(** * R0 estimation pipeline and early-outbreak fitter

    A shallow embedding of [data/scripts/R0_estimator.py] and of the
    [Fitter] class of [scripts/scenarios.py].

    Numbers are IEEE-754 binary64 values (Rocq's primitive [float]), which
    is what numpy's [float64] is.  A numpy masked array is a list of
    elements, each a stored value with its mask bit; for the transforms,
    which do not read the [mask] attribute of the arrays they are given, a
    plain array is the same list with every mask bit clear.  The stair fit
    reads the [mask] attribute of its argument, so there the argument is a
    [series], which tells a plain array, a masked array without a mask
    array and a masked array with one apart.  The channel structure is a Python list indexed by [Sub], whose
    entries are arrays or [None].  Exceptions are the values [Raise e] of
    the error monad [exc].

    Library routines whose result depends on
    the installed numerical library (the elementwise logarithm and
    exponential, the order in which [np.sum] adds, scipy's Savitzky-Golay
    filter and linear regression) are variables of the sections that use
    them; everything the repository itself decides is written out. *)

From Stdlib Require Import ZArith Lia Bool List Floats.
From Stdlib Require Uint63.
From stdpp Require Import base option list strings pretty gmap.

Set Warnings "-inexact-float".

Local Open Scope Z_scope.
Local Open Scope list_scope.

(** ** Python exceptions *)

Inductive pyerr : Type :=
  | IndexError
  | KeyError (key : string)
  | ValueError
  | TypeError
  | AttributeError.

Inductive exc (A : Type) : Type :=
  | Ok (a : A)
  | Raise (e : pyerr).
Arguments Ok {A} a.
Arguments Raise {A} e.

#[global] Instance exc_ret : MRet exc := fun A a => Ok a.
#[global] Instance exc_bind : MBind exc := fun A B f m =>
  match m with
  | Ok a => f a
  | Raise e => Raise e
  end.

(** [l[i]] on a Python list: [IndexError] out of range. *)
Definition py_index {A : Type} (l : list A) (i : nat) : exc A :=
  match l !! i with
  | Some a => Ok a
  | None => Raise IndexError
  end.

(** ** Numbers *)

(** Conversion of a (64-bit) integer to [float64]. *)
Definition Z2float (z : Z) : float :=
  if z <? 0 then (- of_uint63 (Uint63.of_Z (- z)))%float
  else of_uint63 (Uint63.of_Z z).

(** A Python number that is either an integer or a float; the breakpoint of
    a fit is an integer day when it is an element of the time array and a
    float when it is the average of two breakpoints. *)
Inductive pynum : Type :=
  | PyInt (z : Z)
  | PyFloat (x : float).

Definition to_float (a : pynum) : float :=
  match a with
  | PyInt z => Z2float z
  | PyFloat x => x
  end.

Definition py_sub (a b : pynum) : pynum :=
  match a, b with
  | PyInt x, PyInt y => PyInt (x - y)
  | _, _ => PyFloat (to_float a - to_float b)
  end.

Definition py_add (a b : pynum) : pynum :=
  match a, b with
  | PyInt x, PyInt y => PyInt (x + y)
  | _, _ => PyFloat (to_float a + to_float b)
  end.

Definition py_abs (a : pynum) : pynum :=
  match a with
  | PyInt x => PyInt (Z.abs x)
  | PyFloat x => PyFloat (abs x)
  end.

Definition py_ltb (a b : pynum) : bool :=
  match a, b with
  | PyInt x, PyInt y => x <? y
  | _, _ => (to_float a <? to_float b)%float
  end.

(** ** Channels: [Sub = IntEnum('Sub', compartments, start=0)] *)

Module Sub.
Definition S : nat := 0.
Definition E1 : nat := 1.
Definition E2 : nat := 2.
Definition E3 : nat := 3.
Definition I : nat := 4.
Definition H : nat := 5.
Definition C : nat := 6.
Definition D : nat := 7.
Definition R : nat := 8.
Definition T : nat := 9.
Definition NUM : nat := 10.
End Sub.

(** ** Stair fits and their combination *)

(** The list [[val_o, val_e, drop]]. *)
Record fit : Type := Fit { val_o : float; val_e : float; drop : pynum }.

Definition combine_fits (fits : list (option fit)) (drop_shift : Z)
  : exc (option fit) :=
  fT ← py_index fits Sub.T;
  match fT with
  | Some t =>
      fD ← py_index fits Sub.D;
      match fD with
      | Some d =>
          let test1 :=
            (abs (val_o t - val_o d) / (0.5 * (val_o t + val_o d)) <? 0.4)%float in
          let test2 :=
            (abs (val_e t - val_e d) / (0.5 * (val_e t + val_e d)) <? 0.3)%float in
          let test3 :=
            py_ltb (py_abs (py_sub (py_sub (drop d) (PyInt drop_shift)) (drop t)))
                   (PyInt (drop_shift / 2 + 1)) in
          if test1 && test2 && test3 then
            let val_o' := (0.5 * (val_o t + val_o d))%float in
            let val_e' := (0.5 * (val_e t + val_e d))%float in
            let drop' :=
              (0.5 * to_float (py_add (drop t) (py_sub (drop d) (PyInt drop_shift))))%float in
            Ok (Some (Fit val_o' val_e' (PyFloat drop')))
          else Ok fT
      | None => Ok fT
      end
  | None => Ok None
  end.

(** ** numpy arrays

    A masked array is a sequence of cells, each with its stored value and
    its mask bit ([true]: the element is masked, that is invalid).  Where
    the code does not read the [mask] attribute, a plain [ndarray], and a
    masked array whose mask is [nomask], is a sequence of cells none of
    which is masked. *)

Record cell : Type := Cell { cdata : float; cmask : bool }.

Abbreviation marray := (list cell).

Definition ma_data (a : marray) : list float := map cdata a.
Definition ma_mask (a : marray) : list bool := map cmask a.

(** [np.array(l)]: nothing masked. *)
Definition ndarray (l : list float) : marray := map (fun x => Cell x false) l.

(** The channel-indexed structure: one optional array per [Sub] index. *)
Abbreviation data_list := (list (option marray)).

(** An array as the stair fit sees it, which evaluates [vec.mask]: a plain
    [ndarray] has no such attribute; the mask of a [MaskedArray] is either
    the constant [nomask] or an array of bits, one per element (also when
    none of them is set). *)
Inductive series : Type :=
  | Ndarray (l : list float)
  | Nomask (l : list float)
  | Masked (a : marray).

(** The structure whose arrays all carry a mask array. *)
Definition with_mask_array (data : data_list) : list (option series) :=
  map (option_map Masked) data.

(** [a[k:]] and [a[:k]] for a Python integer [k]. *)
Definition py_slice_from {A : Type} (k : Z) (l : list A) : list A :=
  if k <? 0 then skipn (Z.to_nat (Z.max 0 (Z.of_nat (length l) + k))) l
  else skipn (Z.to_nat k) l.

Definition py_slice_to {A : Type} (k : Z) (l : list A) : list A :=
  if k <? 0 then firstn (Z.to_nat (Z.max 0 (Z.of_nat (length l) + k))) l
  else firstn (Z.to_nat k) l.

(** Broadcasting of two one-dimensional operands: equal lengths, or one of
    them of length one; anything else is numpy's [ValueError]. *)
Definition broadcast2 {A B C : Type} (f : A -> B -> C) (a : list A) (b : list B)
  : exc (list C) :=
  if (length a =? length b)%nat then Ok (zip_with f a b)
  else match a, b with
       | [x], _ => Ok (map (f x) b)
       | _, [y] => Ok (map (fun x => f x y) a)
       | _, _ => Raise ValueError
       end.

(** [np.where(b)[0]]: the positions holding [true]. *)
Fixpoint where_from (i : nat) (b : list bool) : list nat :=
  match b with
  | [] => []
  | x :: r => if x then i :: where_from (S i) r else where_from (S i) r
  end.

Definition np_where (b : list bool) : list nat := where_from 0 b.

(** [a[b]] for a boolean index [b] of the length of [a]. *)
Fixpoint select {A : Type} (b : list bool) (l : list A) : list A :=
  match b, l with
  | x :: b', y :: l' => if x then y :: select b' l' else select b' l'
  | _, _ => []
  end.

(** [np.put(a, ind, v)] on a masked array with plain values [v]: the k-th
    index receives [v[k mod len(v)]] (nothing is stored when [v] is empty),
    and the mask is cleared at every index. *)
Definition put_one (v : list float) (acc : marray) (ki : nat * nat) : marray :=
  let (k, i) := ki in
  match v !! (k mod length v)%nat with
  | Some x => <[i := Cell x false]> acc
  | None => alter (fun c => Cell (cdata c) false) i acc
  end.

Definition ma_put (a : marray) (ind : list nat) (v : list float) : marray :=
  fold_left (put_one v) (zip (seq 0 (length ind)) ind) a.

(** [np.diff(x)]: [x[1:] - x[:-1]]. *)
Definition np_diff (x : list float) : list float :=
  zip_with (fun hi lo => (hi - lo)%float) (py_slice_from 1 x) (py_slice_to (-1) x).

(** [np.ma.concatenate]. *)
Definition ma_concatenate (a b : marray) : marray := a ++ b.

(** [a[a.mask] = v] for a plain value [v]: under numpy's default soft
    mask, assigning a value to a masked element stores the value and
    unmasks the element. *)
Definition ma_setitem_where_masked (v : float) (a : marray) : marray :=
  map (fun c => if cmask c then Cell v false else c) a.

(** [a.mask = np.isnan(a)]. *)
Definition ma_mask_isnan (a : marray) : marray :=
  map (fun c => Cell (cdata c) (is_nan (cdata c))) a.

(** [np.ma.repeat(v, n)]: [ValueError] for a negative count. *)
Definition ma_repeat (v : float) (n : Z) : exc marray :=
  if n <? 0 then Raise ValueError else Ok (ndarray (replicate (Z.to_nat n) v)).

(** [np.finfo(float).tiny], the tolerance of numpy's safe-division domain. *)
Definition tiny : float := 0x1p-1022%float.

Definition empty_data_list : data_list :=
  map (fun i => if (i =? Sub.D)%nat || (i =? Sub.T)%nat then Some (ndarray []) else None)
      (seq 0 Sub.NUM).

(** A [for ii in [...]] loop whose body updates a state and may raise. *)
Fixpoint for_each {S : Type} (body : nat -> S -> exc S) (iis : list nat) (s : S)
  : exc S :=
  match iis with
  | [] => Ok s
  | ii :: rest => s' ← body ii s; for_each body rest s'
  end.

(** [[f(x) for x in l]] for a body that may raise. *)
Fixpoint list_comp {A B : Type} (f : A -> exc B) (l : list A) : exc (list B) :=
  match l with
  | [] => Ok []
  | x :: rest => y ← f x; ys ← list_comp f rest; Ok (y :: ys)
  end.

(** ** np.interp

    [search] is the index numpy's interpolation looks up for a key that is
    not NaN: [-1] below the first knot, [len] above the last one, and
    otherwise the number of knots after the first that the key has reached
    (on a non-decreasing table numpy's bisection returns that same index). *)

Fixpoint take_while {A : Type} (p : A -> bool) (l : list A) : list A :=
  match l with
  | [] => []
  | a :: r => if p a then a :: take_while p r else []
  end.

Definition search (x : float) (xp : list float) : Z :=
  let len := Z.of_nat (length xp) in
  if (nth (length xp - 1) xp 0 <? x)%float then len
  else if (x <? nth 0 xp 0)%float then -1
  else Z.of_nat (length (take_while (fun a => (a <=? x)%float) (tail xp))).

Definition interp_one (xp fp : list float) (x : float) : float :=
  let len := length xp in
  let lval := nth 0 fp 0%float in
  let rval := nth (len - 1) fp 0%float in
  if (len =? 1)%nat then
    if (x <? nth 0 xp 0)%float then lval
    else if (nth 0 xp 0 <? x)%float then rval
    else nth 0 fp 0%float
  else if is_nan x then x
  else
    let j := search x xp in
    let jn := Z.to_nat j in
    if j =? -1 then lval
    else if j =? Z.of_nat len then rval
    else if j =? Z.of_nat len - 1 then nth jn fp 0%float
    else if (nth jn xp 0 =? x)%float then nth jn fp 0%float
    else
      let slope :=
        ((nth (jn + 1) fp 0 - nth jn fp 0) / (nth (jn + 1) xp 0 - nth jn xp 0))%float in
      let r := (slope * (x - nth jn xp 0) + nth jn fp 0)%float in
      if is_nan r then
        let r' := (slope * (x - nth (jn + 1) xp 0) + nth (jn + 1) fp 0)%float in
        if is_nan r' && (nth jn fp 0 =? nth (jn + 1) fp 0)%float
        then nth jn fp 0%float else r'
      else r.

(** [np.interp(x, xp, fp)]; the mask of [x], if it has one, is not looked at. *)
Definition np_interp (x xp fp : list float) : exc (list float) :=
  if (length xp =? 0)%nat then Raise ValueError
  else if negb (length xp =? length fp)%nat then Raise ValueError
  else Ok (map (interp_one xp fp) x).

(** The [mode] argument that [smooth] passes to scipy's [savgol_filter]. *)
Inductive savgol_mode : Type := Interp | Mirror.

(** ** The transforms of R0_estimator.py *)

Section Pipeline.

(** numpy's elementwise [log] and [exp], and [np.add.reduce]. *)
Variables np_log np_exp : float -> float.
Variable np_sum : list float -> float.
(** [scipy.signal.savgol_filter(x, window_length, polyorder, mode=...)]. *)
Variable savgol_filter : list float -> Z -> Z -> savgol_mode -> exc (list float).
(** [np.round(x).astype(int)] on one element; the integer is kept as the
    float of the same value. *)
Variable round_astype_int : float -> float.
(** The calibration table of [scripts.mapping]. *)
Variables GR_mapping R0s_mapping : list float.

(** [np.ma.log], on one element: masked where the input is masked or not
    positive or the logarithm is not finite; a masked element keeps its
    input value. *)
Definition log_cell (c : cell) : cell :=
  let r := np_log (cdata c) in
  let m := negb (is_finite r) || (cdata c <=? 0)%float || cmask c in
  Cell (if m then cdata c else r) m.

Definition ma_log (a : marray) : marray := map log_cell a.

(** [np.ma.exp]: the mask is that of the input. *)
Definition exp_cell (c : cell) : cell :=
  Cell (if cmask c then cdata c else np_exp (cdata c)) (cmask c).

Definition ma_exp (a : marray) : marray := map exp_cell a.

(** [a - b] on masked arrays: masked where either operand is, and a masked
    element keeps the value of the first operand. *)
Definition subtract_cell (x y : cell) : cell :=
  let m := cmask x || cmask y in
  Cell (if m then cdata x else (cdata x - cdata y)%float) m.

Definition ma_subtract (a b : marray) : exc marray :=
  broadcast2 subtract_cell a b.

(** [a / b] for a masked array [a] and an integer [b]: masked where [a]
    is masked, where the quotient is not finite and where numpy's
    safe-division domain refuses the operands.  A masked element holds
    zero plus the value of [a].  (numpy also adds [0 * a] to a quotient
    that stays unmasked, which leaves it as it is for a positive [b]; for
    another [b] no unmasked quotient of [get_growth_rate] survives: the
    domain masks every element when [b] is zero, and [np.ma.repeat]
    raises when it is negative.) *)
Definition true_divide_cell (b : Z) (c : cell) : cell :=
  let r := (cdata c / Z2float b)%float in
  let m := negb (is_finite r)
           || (abs (Z2float b) <=? abs (cdata c) * tiny)%float
           || cmask c in
  Cell (if m then (0 + cdata c)%float else r) m.

Definition ma_true_divide (a : marray) (b : Z) : marray :=
  map (true_divide_cell b) a.

Definition get_log (data : data_list) : exc data_list :=
  for_each (fun ii log_data =>
              d ← py_index data ii;
              match d with
              | Some a => Ok (<[ii := Some (ma_log a)]> log_data)
              | None => Ok log_data
              end)
           [Sub.T; Sub.D; Sub.H; Sub.C] empty_data_list.

(** The body of the loop of [smooth] on one present channel.  [np.isnan],
    the boolean index and [np.where] read the stored values, whatever the
    mask; [np.put] stores the filtered values and clears the mask at the
    positions it writes. *)
Definition smooth_channel (as_int : bool) (nb_pts order : Z) (a : marray)
  : exc marray :=
  let good_idx := map (fun c => negb (is_nan (cdata c))) a in
  (* np.sum(good_idx) adds the elements that are not masked, and is the
     masked constant (falsy in the comparison) when all of them are *)
  let count := length (List.filter (fun c => negb (is_nan (cdata c)) && negb (cmask c)) a) in
  let mode :=
    if forallb cmask a then Mirror
    else if nb_pts <? Z.of_nat count then Interp else Mirror in
  filtered ← savgol_filter (ma_data (select good_idx a)) nb_pts order mode;
  let put := ma_put a (np_where good_idx) filtered in
  Ok (if as_int
      then map (fun c => Cell (round_astype_int (cdata c)) (cmask c)) put
      else put).

Definition smooth (data : data_list) (as_int : bool) (nb_pts order : Z)
  : exc data_list :=
  for_each (fun ii smoothed =>
              d ← py_index smoothed ii;
              match d with
              | Some a =>
                  a' ← smooth_channel as_int nb_pts order a;
                  Ok (<[ii := Some a']> smoothed)
              | None => Ok smoothed
              end)
           [Sub.T; Sub.D; Sub.H; Sub.C] data.

Definition log_smooth (data : data_list) (nb_pts : Z) : exc data_list :=
  lg ← get_log data;
  smoothed_log_diff ← smooth lg false nb_pts 1;
  for_each (fun ii log_smooth =>
              d ← py_index smoothed_log_diff ii;
              match d with
              | Some a => Ok (<[ii := Some (ma_exp a)]> log_smooth)
              | None => Ok log_smooth
              end)
           [Sub.T; Sub.D; Sub.H; Sub.C] empty_data_list.

Definition growth_rate_to_R0 (data : data_list) (serial_interval : Z)
  : exc data_list :=
  for_each (fun ii R0_by_day =>
              d ← py_index data ii;
              match d with
              | Some a =>
                  r ← np_interp (ma_data a) GR_mapping R0s_mapping;
                  Ok (<[ii := Some (ma_mask_isnan (ndarray r))]> R0_by_day)
              | None => Ok (<[ii := None]> R0_by_day)
              end)
           [Sub.T; Sub.D] empty_data_list.

(** The body of the loop of [get_daily_counts] on one present channel:
    [np.concatenate] keeps the values only, a zero difference is
    overwritten with NaN, and the mask is the set of NaN positions. *)
Definition daily_counts_channel (a : marray) : marray :=
  let diff := ndarray (nan :: np_diff (ma_data a)) in
  let diff := map (fun c => if (cdata c =? 0)%float then Cell nan (cmask c) else c) diff in
  ma_mask_isnan diff.

Definition get_daily_counts (data : data_list) : exc data_list :=
  for_each (fun ii diff_data =>
              d ← py_index data ii;
              match d with
              | Some a => Ok (<[ii := Some (daily_counts_channel a)]> diff_data)
              | None => Ok (<[ii := None]> diff_data)
              end)
           [Sub.T; Sub.D] empty_data_list.

(** The body of the loop of [get_growth_rate] up to and including
    [np.ma.concatenate], before the masked positions are overwritten. *)
Definition growth_rate_padded (step : Z) (a : marray) : exc marray :=
  log_diff ← ma_subtract (ma_log (py_slice_from step a))
                         (ma_log (py_slice_to (- step) a));
  let log_diff := ma_true_divide log_diff step in
  nans ← ma_repeat nan step;
  let nans := ma_mask_isnan nans in
  Ok (ma_concatenate log_diff nans).

Definition growth_rate_channel (step : Z) (a : marray) : exc marray :=
  log_diff ← growth_rate_padded step a;
  Ok (ma_setitem_where_masked nan log_diff).

Definition get_growth_rate (data : data_list) (step : Z) : exc data_list :=
  for_each (fun ii log_diff =>
              d ← py_index data ii;
              match d with
              | Some a =>
                  a' ← growth_rate_channel step a;
                  Ok (<[ii := Some a']> log_diff)
              | None => Ok (<[ii := None]> log_diff)
              end)
           [Sub.T; Sub.D] empty_data_list.

(** *** Stair fit *)

(** The float that numpy stores when the masked constant ends up in an
    array built from a list. *)
Variable masked_value : float.

Definition stair_func (time : list Z) (val_o val_e : float) (x_drop : Z)
  : list float :=
  map (fun t => if t <=? x_drop then val_o else val_e) time.

(** [np.abs] of a masked array. *)
Definition ma_abs (a : marray) : marray :=
  map (fun c => Cell (abs (cdata c)) (cmask c)) a.

(** The default [fill_value] of a float masked array. *)
Definition fill_value : float := 1e20%float.

(** [a ** 1]: the values are unchanged; numpy's masked power also masks
    every element that is not finite and stores the fill value there. *)
Definition ma_power_one (a : marray) : marray :=
  map (fun c =>
         let invalid := negb (is_finite (cdata c)) in
         Cell (if invalid then fill_value else cdata c) (cmask c || invalid)) a.

(** [np.sum] of a masked array: masked elements count as zero; the
    masked constant when every element is masked. *)
Definition ma_sum (a : marray) : float :=
  if forallb cmask a then masked_value
  else np_sum (map (fun c => if cmask c then 0%float else cdata c) a).

(** [np.mean] of a masked array that carries a mask array. *)
Definition ma_mean (a : marray) : float :=
  let cnt := length (List.filter (fun c => negb (cmask c)) a) in
  if (cnt =? 0)%nat then masked_value
  else (ma_sum a * 1 / Z2float (Z.of_nat cnt))%float.

(** [np.sum(a ** 1)] for a masked array [a]: numpy's masked power drops a
    mask without a set bit, so its result carries a mask array only when
    one of its elements is masked; without one the sum is the plain sum
    (of nothing, when the array is empty). *)
Definition ma_sum_power_one (a : marray) : float :=
  let p := ma_power_one a in
  if existsb cmask p then ma_sum p else np_sum (ma_data p).

(** On a plain array every operation is the plain one, and [** 1] leaves
    the values as they are.  A masked array without a mask array is, as an
    operand of the subtraction, an array none of whose elements is masked. *)
Definition err_function (x_drop : Z) (time : list Z) (vec : series)
    (val_o val_e : float) : exc float :=
  let stair := stair_func time val_o val_e x_drop in
  match vec with
  | Ndarray l =>
      d ← broadcast2 (fun a b => abs (a - b)%float) l stair;
      Ok (np_sum d)
  | Nomask l =>
      d ← ma_subtract (ndarray l) (ndarray stair);
      Ok (ma_sum_power_one (ma_abs d))
  | Masked a =>
      d ← ma_subtract a (ndarray stair);
      Ok (ma_sum_power_one (ma_abs d))
  end.

(** [np.argmin] on floats: the first NaN if there is one, else the first
    minimum. *)
Fixpoint argmin_from (mp : float) (min_ind i : nat) (l : list float) : nat :=
  match l with
  | [] => min_ind
  | x :: rest =>
      if negb (mp <=? x)%float then
        if is_nan x then i else argmin_from x i (S i) rest
      else argmin_from mp min_ind (S i) rest
  end.

Definition np_argmin (l : list float) : exc nat :=
  match l with
  | [] => Raise ValueError
  | x :: rest => Ok (if is_nan x then 0%nat else argmin_from x 0 1 rest)
  end.

(** [vec[~vec.mask]] for a series whose mask is a mask array: the
    elements that are not masked. *)
Definition compressed (vec : marray) : marray :=
  select (map (fun c => negb (cmask c)) vec) vec.

(** [np.mean(vec[~vec.mask][s])] for a slice [s].
    - A plain array has no [mask]: [AttributeError].
    - When the mask is [nomask], [~vec.mask] is the scalar [True] and
      [vec[True]] is the two-dimensional array whose only row is [vec];
      the slice then selects among its rows (that is, the row or nothing),
      and the mean is that of an array without a mask: the sum over the
      number of elements, NaN when there is none.
    - When the mask is an array, the slice selects among the elements that
      are not masked. *)
Definition edge_mean (s : forall A : Type, list A -> list A) (vec : series)
  : exc float :=
  match vec with
  | Ndarray _ => Raise AttributeError
  | Nomask l =>
      let flat := concat (s _ [l]) in
      Ok (np_sum flat / Z2float (Z.of_nat (length flat)))%float
  | Masked a => Ok (ma_mean (s _ (compressed a)))
  end.

Definition stair_fit (time : list Z) (vec : series) (nb_value : Z)
  : exc (float * float * Z) :=
  val_o ← edge_mean (fun A => py_slice_to nb_value) vec;
  val_e ← edge_mean (fun A => py_slice_from (- nb_value)) vec;
  errs ← list_comp (fun x => err_function x time vec val_o val_e) time;
  i ← np_argmin errs;
  drop ← py_index time i;
  Ok (val_o, val_e, drop).

(** Every entry of the result that outlives the loop is [None] or a fit:
    the loop assigns all four channels, in either branch. *)
Definition stair_fits (time : list Z) (data : list (option series)) (nb_value : Z)
  : exc (list (option fit)) :=
  for_each (fun ii stair_fits =>
              d ← py_index data ii;
              match d with
              | Some a =>
                  val_o ← edge_mean (fun A => py_slice_to nb_value) a;
                  val_e ← edge_mean (fun A => py_slice_from (- nb_value)) a;
                  errs ← list_comp (fun x => err_function x time a val_o val_e) time;
                  i ← np_argmin errs;
                  drop ← py_index time i;
                  Ok (<[ii := Some (Fit val_o val_e (PyInt drop))]> stair_fits)
              | None => Ok (<[ii := None]> stair_fits)
              end)
           [Sub.T; Sub.D; Sub.H; Sub.C] (replicate Sub.NUM None).

(** *** The estimator and the comparison routine *)

(** The values of the dictionary that [get_Re_guess] returns. *)
Inductive pyval : Type :=
  | VFit (f : option fit)
  | VFits (fits : list (option fit))
  | VData (d : data_list).

(** [growth_rate_to_R0] assigns the [mask] of every array it returns, so
    each of them reaches [stair_fits] with a mask array. *)
Definition get_Re_guess (time : list Z) (cases : data_list)
    (step extremal_points : Z) : exc (gmap string pyval) :=
  diff_data ← get_daily_counts cases;
  data_log_smoothed ← log_smooth diff_data 7;
  growth_rate ← get_growth_rate data_log_smoothed step;
  R0_by_day ← growth_rate_to_R0 growth_rate 6;
  fits ← stair_fits time (with_mask_array R0_by_day) extremal_points;
  fit ← combine_fits fits 9;
  Ok (<["fit" := VFit fit]>
      (<["diff_data" := VData diff_data]>
       (<["diff_data_smoothed" := VData data_log_smoothed]>
        (<["R0_by_day" := VData R0_by_day]> ∅)))).

(** [d[key]] on a dictionary. *)
Definition py_getitem {V : Type} (d : gmap string V) (key : string) : exc V :=
  match d !! key with
  | Some v => Ok v
  | None => Raise (KeyError key)
  end.

(** The module-level [case_counts] and [load_data] that the routine reads. *)
Variable raw_cases : Type.
Variable case_counts : gmap string raw_cases.
Variable load_data : string -> raw_cases -> exc (list Z * data_list).

(** The three accumulators [(lags, rdiffs_o, rdiffs_e)] of the loop. *)
Definition comparison_acc : Type := list float * list float * list float.

Definition comparison_step (c : string) (acc : comparison_acc) : exc comparison_acc :=
  let '(lags, rdiffs_o, rdiffs_e) := acc in
  raw ← py_getitem case_counts c;
  '(time, data) ← load_data c raw;
  res ← get_Re_guess time data 4 7;
  v ← py_getitem res "fits";
  match v with
  | VFits fits =>
      fD ← py_index fits Sub.D;
      (* [and] looks at fits[Sub.T] only when fits[Sub.D] is not None *)
      fT ← match fD with Some _ => py_index fits Sub.T | None => Ok None end;
      let '(lag, rdiff_o, rdiff_e) :=
        match fD, fT with
        | Some d, Some t =>
            (to_float (py_sub (drop d) (drop t)),
             ((val_o d - val_o t) / (0.5 * (val_o d + val_o t)))%float,
             ((val_e d - val_e t) / (0.5 * (val_e d + val_e t)))%float)
        | _, _ => (nan, nan, nan)
        end in
      Ok (lags ++ [lag], rdiffs_o ++ [rdiff_o], rdiffs_e ++ [rdiff_e])
  | _ => Raise TypeError
  end.

Fixpoint comparison_loop (country_list : list string) (acc : comparison_acc)
  : exc comparison_acc :=
  match country_list with
  | [] => Ok acc
  | c :: rest => acc' ← comparison_step c acc; comparison_loop rest acc'
  end.

(** The result is the list of the three vectors that the routine prints
    (each with its NaN positions masked), in the order of the source;
    the mean and standard deviation printed with each are functions of
    that vector. *)
Definition get_R0_comparison (country_list : list string) : exc (list marray) :=
  '(lags, rdiffs_o, rdiffs_e) ← comparison_loop country_list ([], [], []);
  Ok (map (fun vec => ma_mask_isnan (ndarray vec)) [rdiffs_o; rdiffs_e; lags]).

End Pipeline.

(** ** The early-outbreak fitter of scenarios.py *)

Module Fitter.

(** One entry [dp] of a population time series: [dp['time']] and the
    counts, [None] where the table has no number. *)
Record datapoint : Type :=
  { time : string; cases : option Z; deaths : option Z }.

(** The dictionary returned by [fit_cumulative]. *)
Record regression : Type :=
  { intercept : float; slope : float; rvalue : float }.

(** The dictionary returned by [fit]. *)
Record params : Type :=
  { tMin : string; initialCases : Z; r0 : float }.

Definition doubling_time : float := 3.0.
Definition serial_interval : float := 7.5.
Definition cases_on_tMin : Z := 10.
Definition under_reporting : Z := 5.
Definition delay : Z := 18.
Definition fatality_rate : float := 0.02.

Definition slope_to_r0 (slope : float) : float :=
  (1 + slope * serial_interval)%float.

(** [f"{z:0{width}d}"]. *)
Definition format_0d (width : nat) (z : Z) : string :=
  let digits := pretty (Z.abs z) in
  let sign := if z <? 0 then "-" else "" in
  sign +:+ String.concat "" (replicate (width - String.length sign - String.length digits) "0")
       +:+ digits.

(** [x or np.nan] for a count [x]. *)
Definition or_nan (x : option Z) : float :=
  match x with
  | Some z => if z =? 0 then nan else Z2float z
  | None => nan
  end.

Section Fit.

Variable np_log : float -> float.
(** [ndarray.mean]. *)
Variable np_mean : list float -> float.
(** [scipy.stats.linregress(x, y)]. *)
Variable linregress : list float -> list float -> regression.
(** [datetime.strptime(s, "%Y-%m-%d").toordinal()]; [ValueError] on
    a string that is not such a date. *)
Variable strptime_toordinal : string -> exc Z.
(** [int(x)] for a float, which raises on NaN and on the infinities. *)
Variable int_of_float : float -> exc Z.
(** [datetime.fromordinal(n)] as (year, month, day); [ValueError] out
    of range. *)
Variable fromordinal : Z -> exc (Z * Z * Z).

Definition fixed_slope : float := (np_log 2 / doubling_time)%float.

Definition fit_cumulative (t y : list float) : option regression :=
  let good_ind := map (fun v => (3 <? v)%float && (v <? 500)%float) y in
  let t_subset := select good_ind t in
  let logy_subset := map np_log (select good_ind y) in
  let num_data := Z.of_nat (length (List.filter (fun b : bool => b) good_ind)) in
  if 10 <? num_data then Some (linregress t_subset logy_subset)
  else if 4 <? num_data then
    let intercept := (np_mean logy_subset - np_mean t_subset * fixed_slope)%float in
    Some {| intercept := intercept; slope := (1.0 * fixed_slope)%float; rvalue := nan |}
  else None.

Definition to_ms (time : string) : exc Z :=
  strptime_toordinal (String.substring 0 10 time).

Definition from_ms (time : float) : exc string :=
  n ← int_of_float time;
  '(year, month, day) ← fromordinal n;
  Ok (format_0d 4 year +:+ "-" +:+ format_0d 2 month +:+ "-" +:+ format_0d 2 day).

Definition row (dp : datapoint) : exc (float * float * float) :=
  t ← to_ms (time dp);
  Ok (Z2float t, or_nan (cases dp), or_nan (deaths dp)).

(** [data[:, k]]: an array built from no rows has one dimension, and
    indexing it with two indices raises [IndexError]. *)
Definition column {A : Type} (f : float * float * float -> A)
    (data : list (float * float * float)) : exc (list A) :=
  match data with
  | [] => Raise IndexError
  | _ => Ok (map f data)
  end.

Definition fit (pop : list datapoint) : exc (option params) :=
  data ← list_comp row pop;
  (* Try to fit on death *)
  t ← column (fun r => r.1.1) data;
  y ← column (fun r => r.2) data;
  let on_cases : exc (option params) :=
    (* If no death, fit on case counts *)
    t ← column (fun r => r.1.1) data;
    y ← column (fun r => r.1.2) data;
    match fit_cumulative t y with
    | Some p =>
        if (0 <? slope p)%float then
          let tMin := ((np_log (Z2float cases_on_tMin) / Z2float under_reporting
                        - intercept p) / slope p)%float in
          s ← from_ms tMin;
          Ok (Some {| tMin := s; initialCases := cases_on_tMin;
                      r0 := slope_to_r0 (slope p) |})
        else Ok None
    | None => Ok None
    end in
  match fit_cumulative t y with
  | Some p =>
      if (0 <? slope p)%float then
        let tMin := ((np_log (Z2float cases_on_tMin * fatality_rate) - intercept p)
                     / slope p - Z2float delay)%float in
        s ← from_ms tMin;
        Ok (Some {| tMin := s; initialCases := cases_on_tMin;
                    r0 := slope_to_r0 (slope p) |})
      else on_cases
  | None => on_cases
  end.

End Fit.
End Fitter.

(** ** The common shape of the per-channel loops

    Each transform walks a list of channels, reads the channel of its input
    and assigns the channel of its result: the transformed array when the
    input channel is present and, where the source has an [else] branch,
    [None] when it is absent.  [channel_loop] is that shape, with which the
    loops above are compared. *)
Definition channel_loop {A B : Type} (f : A -> exc B) (has_else : bool)
    (data : list (option A)) (iis : list nat) (init : list (option B))
  : exc (list (option B)) :=
  for_each (fun ii acc =>
              d ← py_index data ii;
              match d with
              | Some a => b ← f a; Ok (<[ii := Some b]> acc)
              | None => Ok (if has_else then <[ii := None]> acc else acc)
              end)
           iis init.

(** ** Elementwise reading of get_growth_rate

    The element that the growth-rate series holds, before the final
    overwrite, for the later value [hi] and the earlier value [lo]. *)
Definition growth_cell (np_log : float -> float) (step : Z) (hi lo : cell) : cell :=
  true_divide_cell step (subtract_cell (log_cell np_log hi) (log_cell np_log lo)).

(** The effect of [a[a.mask] = nan] on one element. *)
Definition overwrite_cell (c : cell) : cell :=
  if cmask c then Cell nan false else c.

(** An element whose logarithm [np.ma.log] leaves unmasked. *)
Definition log_valid (np_log : float -> float) (c : cell) : bool :=
  negb (cmask c) && negb (cdata c <=? 0)%float && is_finite (np_log (cdata c)).

(** The finite-difference quotient of the logarithms, and the test that
    the masked division keeps it. *)
Definition log_quotient (np_log : float -> float) (step : Z) (hi lo : cell) : float :=
  ((np_log (cdata hi) - np_log (cdata lo)) / Z2float step)%float.

Definition quotient_kept (np_log : float -> float) (step : Z) (hi lo : cell) : bool :=
  is_finite (log_quotient np_log step hi lo)
  && negb (abs (Z2float step)
           <=? abs (np_log (cdata hi) - np_log (cdata lo)) * tiny)%float.

(** ** Reading of the calibration table

    The table is strictly increasing in the growth rate. *)
Definition increasing (xp : list float) : Prop :=
  forall i j a b, (i < j)%nat -> xp !! i = Some a -> xp !! j = Some b -> (a <? b)%float = true.

(** The straight line through the knots [(x0, f0)] and [(x1, f1)], at [x]. *)
Definition segment (x0 f0 x1 f1 x : float) : float :=
  ((f1 - f0) / (x1 - x0) * (x - x0) + f0)%float.

(** The output element that [growth_rate_to_R0] computes from the stored
    value of an input element. *)
Definition R0_cell (xp fp : list float) (c : cell) : cell :=
  Cell (interp_one xp fp (cdata c)) (is_nan (interp_one xp fp (cdata c))).

(** ** Reading of smooth *)

(** The number of positions before [i] whose stored value is not NaN: the
    rank, among the values handed to the filter, of the value at [i]. *)
Definition valid_before (a : marray) (i : nat) : nat :=
  length (List.filter (fun c => negb (is_nan (cdata c))) (firstn i a)).

(** ** Reading of np.argmin

    The invariant of the scan: [mp] is the element at [min_ind], it is at
    most every element seen so far and strictly below the earlier ones. *)
Definition least_so_far (l : list float) (min_ind : nat) (mp : float) : Prop :=
  l !! min_ind = Some mp
  /\ forall j y, l !! j = Some y ->
       (mp <=? y)%float = true /\ ((j < min_ind)%nat -> (mp <? y)%float = true).

(** ** Reading of stair_fits *)

(** The mean of a list of values as numpy computes it: their sum, times
    [1.], over their number. *)
Definition mean_of (np_sum : list float -> float) (l : list float) : float :=
  (np_sum l * 1 / Z2float (Z.of_nat (length l)))%float.

(** The last [n] elements of a list (all of them when there are fewer). *)
Definition last_n {A : Type} (n : nat) (l : list A) : list A :=
  skipn (length l - n) l.

(** The absolute deviation, at time [t], of the element [c] from the step
    function that is [val_o] up to [x] and [val_e] after it. *)
Definition deviation (val_o val_e : float) (x t : Z) (c : cell) : float :=
  abs (cdata c - (if t <=? x then val_o else val_e)).

(** The number of elements of a series. *)
Definition series_length (vec : series) : nat :=
  match vec with
  | Ndarray l | Nomask l => length l
  | Masked a => length a
  end.

(** A position that the summed error counts: a valid one whose deviation
    is finite.  (numpy's masked power masks an element that is not finite.) *)
Definition counted (val_o val_e : float) (x t : Z) (c : cell) : bool :=
  negb (cmask c) && is_finite (deviation val_o val_e x t c).

(** The sum of the deviations over the counted positions, every other
    position adding zero; the masked constant when no position is counted. *)
Definition abs_error (np_sum : list float -> float) (masked_value : float)
    (val_o val_e : float) (time : list Z) (a : marray) (x : Z) : float :=
  if existsb (fun tc => counted val_o val_e x tc.1 tc.2) (zip time a)
  then np_sum (zip_with (fun t c => if counted val_o val_e x t c
                                    then deviation val_o val_e x t c else 0%float)
                        time a)
  else masked_value.

(** ** Reading of Fitter.fit_cumulative *)

(** The points that the regression uses: counts strictly between 3 and 500. *)
Definition good_points (y : list float) : nat :=
  length (List.filter (fun v => (3 <? v)%float && (v <? 500)%float) y).

(** ** Reading of Fitter.fit *)

(** A count that the regression uses: present, and strictly between 3 and
    500 once [x or np.nan] has turned a zero into NaN. *)
Definition usable (x : option Z) : bool :=
  (3 <? Fitter.or_nan x)%float && (Fitter.or_nan x <? 500)%float.

(** ** The parameter classes and the scenario table of scenarios.py *)

Module Scenarios.

Record PopulationParams : Type :=
  { populationServed : Z; country : string; suspectedCasesToday : Z;
    importsPerDay : float; hospitalBeds : Z; ICUBeds : Z; cases : string }.

(** [seasonalForcing] and [peakMonth] are [None] when [__init__] leaves
    the attribute unset. *)
Record EpidemiologicalParams : Type :=
  { latencyTime : Z; infectiousPeriod : Z; lengthHospitalStay : Z; lengthICUStay : Z;
    seasonalForcing : option pynum; peakMonth : option Z; overflowSeverity : Z;
    r0 : float }.

Record ContainmentParams : Type :=
  { reduction : list float; numberPoints : Z }.

Record DateRange : Type := { tMin : string; tMax : string }.

Record SimulationParams : Type :=
  { simulationTimeRange : DateRange; numberStochasticRuns : Z }.

Record AllParams : Type :=
  { population : PopulationParams; epidemiological : EpidemiologicalParams;
    simulation : SimulationParams; containment : ContainmentParams }.

(** [max(a, b)] on floats: the first argument unless the second is greater. *)
Definition py_max (a b : float) : float := if (a <? b)%float then b else a.

Section Classes.

(** [int(s)] and [float(s)] on a string: [ValueError] when it does not
    parse. *)
Variable py_int : string -> exc Z.
Variable py_float : string -> exc float.
(** [x ** 0.5]; a negative [x] gives a complex number, which [max] then
    refuses with [TypeError]. *)
Variable pow_half : float -> exc float.
(** [round(x, 1)]. *)
Variable py_round1 : float -> float.
(** The module-level dictionary, as [fit_all_case_data] leaves it: one
    entry [{tMin, r0, initialCases}] per fitted region. *)
Variable FIT_CASE_DATA : gmap string Fitter.params.

Definition new_PopulationParams (region country population beds icus : string)
  : exc PopulationParams :=
  populationServed ← py_int population;
  x ← py_float population;
  h ← pow_half x;
  let importsPerDay := py_round1 (py_max (3e-4 * h) 0.1) in
  hospitalBeds ← py_int beds;
  ICUBeds ← py_int icus;
  Ok {| populationServed := populationServed; country := country;
        suspectedCasesToday := Fitter.cases_on_tMin; importsPerDay := importsPerDay;
        hospitalBeds := hospitalBeds; ICUBeds := ICUBeds; cases := region |}.

Definition new_EpidemiologicalParams (region hemisphere : string)
  : EpidemiologicalParams :=
  let '(seasonalForcing, peakMonth) :=
    if negb (String.eqb hemisphere "") then
      if String.eqb hemisphere "Northern" then (Some (PyFloat 0.2), Some 0)
      else if String.eqb hemisphere "Southern" then (Some (PyFloat 0.2), Some 6)
      else if String.eqb hemisphere "Tropical" then (Some (PyInt 0), Some 6)
      else (None, None)
    else (Some (PyFloat 0.2), Some 0) in
  {| latencyTime := 5; infectiousPeriod := 3; lengthHospitalStay := 4;
     lengthICUStay := 14; seasonalForcing := seasonalForcing; peakMonth := peakMonth;
     overflowSeverity := 2;
     r0 := match FIT_CASE_DATA !! region with
           | Some f => py_round1 (Fitter.r0 f)
           | None => 2.7%float
           end |}.

Definition new_ContainmentParams : ContainmentParams :=
  let reduction := [1.0; 1.0; 1.0; 1.0; 1.0; 1.0; 1.0; 1.0; 1.0; 1.0]%float in
  {| reduction := reduction; numberPoints := Z.of_nat (length reduction) |}.

Definition new_SimulationParams (region : string) : SimulationParams :=
  let tMin := match FIT_CASE_DATA !! region with
              | Some f => Fitter.tMin f
              | None => "2020-03-01"
              end in
  let tMax := "2020-09-01" in
  {| simulationTimeRange := {| tMin := tMin; tMax := tMax |};
     numberStochasticRuns := 0 |}.

Definition new_AllParams (region country population beds icus hemisphere : string)
  : exc AllParams :=
  population ← new_PopulationParams region country population beds icus;
  Ok {| population := population;
        epidemiological := new_EpidemiologicalParams region hemisphere;
        simulation := new_SimulationParams region;
        containment := new_ContainmentParams |}.

(** [hdr.index(name)]: the first position of [name], [ValueError] when it
    does not occur. *)
Fixpoint index_from (i : nat) (hdr : list string) (name : string) : exc nat :=
  match hdr with
  | [] => Raise ValueError
  | h :: rest => if String.eqb h name then Ok i else index_from (S i) rest name
  end.

Definition list_index (hdr : list string) (name : string) : exc nat :=
  index_from 0 hdr name.

(** The dictionary [idx] of [generate]. *)
Record columns : Type :=
  { c_name : nat; c_size : nat; c_ages : nat; c_beds : nat; c_icus : nat;
    c_hemisphere : nat }.

Definition header_columns (hdr : list string) : exc columns :=
  name ← list_index hdr "name";
  size ← list_index hdr "populationServed";
  ages ← list_index hdr "ageDistribution";
  beds ← list_index hdr "hospitalBeds";
  icus ← list_index hdr "ICUBeds";
  hemisphere ← list_index hdr "hemisphere";
  Ok {| c_name := name; c_size := size; c_ages := ages; c_beds := beds;
        c_icus := icus; c_hemisphere := hemisphere |}.

(** The body of the loop over the rows: the key and the value of the
    assignment to [scenario[region[idx['name']]]] of [AllParams] applied to
    the entries of the row under
    [args = ['name', 'ages', 'size', 'beds', 'icus', 'hemisphere']]. *)
Definition scenario_entry (idx : columns) (region : list string)
  : exc (string * AllParams) :=
  name ← py_index region (c_name idx);
  ages ← py_index region (c_ages idx);
  size ← py_index region (c_size idx);
  beds ← py_index region (c_beds idx);
  icus ← py_index region (c_icus idx);
  hemisphere ← py_index region (c_hemisphere idx);
  value ← new_AllParams name ages size beds icus hemisphere;
  key ← py_index region (c_name idx);
  Ok (key, value).

Fixpoint scenario_rows (idx : columns) (rdr : list (list string))
    (scenario : gmap string AllParams) : exc (gmap string AllParams) :=
  match rdr with
  | [] => Ok scenario
  | region :: rest =>
      kv ← scenario_entry idx region;
      scenario_rows idx rest (<[kv.1 := kv.2]> scenario)
  end.

(** The dictionary that [generate] hands to [marshalJSON], from the header
    line and the remaining rows that [csv.reader] yields. *)
Definition generate (hdr : list string) (rdr : list (list string))
  : exc (gmap string AllParams) :=
  idx ← header_columns hdr;
  scenario_rows idx rdr ∅.

End Classes.
End Scenarios.

(** * Properties *)

(** ** Order facts on binary64 values *)

Section SpecOrder.

Lemma SFcompare_antisym x y c :
  SFcompare x y = Some c -> SFcompare y x = Some (CompOpp c).
Proof.
  destruct x as [sx|sx| |sx mx ex], y as [sy|sy| |sy my ey]; simpl;
    try discriminate; try (intros [= <-]; destruct sx; try destruct sy; reflexivity).
  intros [= <-]. f_equal.
  change (PosDef.Pos.compare_cont Eq) with Pos.compare.
  rewrite (Z.compare_antisym ex ey), (Pos.compare_antisym mx my).
  destruct sx, sy; simpl; try reflexivity;
    destruct (ex ?= ey); simpl; try reflexivity;
    destruct (mx ?= my)%positive; reflexivity.
Qed.

Lemma SFcompare_defined x y :
  x <> S754_nan -> y <> S754_nan -> exists c, SFcompare x y = Some c.
Proof. destruct x, y; simpl; intros; try congruence; eauto. Qed.

Lemma SFleb_trans x y z :
  SFleb x y = true -> SFleb y z = true -> SFleb x z = true.
Proof.
  unfold SFleb.
  destruct x as [sx|sx| |sx mx ex], y as [sy|sy| |sy my ey], z as [sz|sz| |sz mz ez];
    simpl; try discriminate; try reflexivity;
    repeat match goal with s : bool |- _ => destruct s end;
    simpl; try discriminate; try reflexivity;
    change (PosDef.Pos.compare_cont Eq) with Pos.compare;
    repeat match goal with
      | |- context [Z.compare ?a ?b] => destruct (Z.compare_spec a b)
      | |- context [Pos.compare ?a ?b] => destruct (Pos.compare_spec a b)
      end; simpl; try discriminate; try reflexivity; intros; exfalso; lia.
Qed.

End SpecOrder.

Section PrimOrder.
Local Open Scope float_scope.

Lemma Prim2SF_nan x : Prim2SF x = S754_nan <-> is_nan x = true.
Proof.
  unfold Prim2SF. destruct (is_nan x); [tauto|].
  split; [|discriminate].
  destruct (is_zero x); [discriminate|].
  destruct (is_infinity x); [discriminate|].
  destruct (Z.frexp x) as [r e].
  destruct (shr_fexp _ _ _ _ _) as [s e'].
  destruct (shr_m s); discriminate.
Qed.

Lemma Prim2SF_not_nan x : is_nan x = false -> Prim2SF x <> S754_nan.
Proof. intros H E. apply Prim2SF_nan in E. congruence. Qed.

Lemma compare_defined x y :
  is_nan x = false -> is_nan y = false ->
  exists c, SFcompare (Prim2SF x) (Prim2SF y) = Some c.
Proof. intros. apply SFcompare_defined; now apply Prim2SF_not_nan. Qed.

Lemma leb_trans x y z : (x <=? y) = true -> (y <=? z) = true -> (x <=? z) = true.
Proof. rewrite !FloatAxioms.leb_spec. apply SFleb_trans. Qed.

Lemma ltb_leb x y : (x <? y) = true -> (x <=? y) = true.
Proof.
  rewrite FloatAxioms.ltb_spec, FloatAxioms.leb_spec. unfold SFltb, SFleb.
  destruct (SFcompare _ _) as [[]|]; congruence.
Qed.

Lemma ltb_not_leb x y : (x <? y) = true -> (y <=? x) = false.
Proof.
  rewrite FloatAxioms.ltb_spec, FloatAxioms.leb_spec. unfold SFltb, SFleb.
  destruct (SFcompare (Prim2SF x) _) as [c|] eqn:E; [|discriminate].
  rewrite (SFcompare_antisym _ _ _ E). destruct c; simpl; congruence.
Qed.

Lemma not_leb_ltb x y :
  is_nan x = false -> is_nan y = false -> (x <=? y) = false -> (y <? x) = true.
Proof.
  intros Hx Hy. rewrite FloatAxioms.ltb_spec, FloatAxioms.leb_spec. unfold SFltb, SFleb.
  destruct (compare_defined x y Hx Hy) as [c E]. rewrite E.
  rewrite (SFcompare_antisym _ _ _ E). destruct c; simpl; congruence.
Qed.

Lemma leb_not_nan x y : (x <=? y) = true -> is_nan x = false /\ is_nan y = false.
Proof.
  rewrite FloatAxioms.leb_spec. unfold SFleb. intros H.
  split; apply not_true_is_false; intros E; apply Prim2SF_nan in E; rewrite E in H;
    simpl in H; try discriminate.
  destruct (Prim2SF x); discriminate.
Qed.

Lemma ltb_not_nan x y : (x <? y) = true -> is_nan x = false /\ is_nan y = false.
Proof. intros H. apply leb_not_nan, ltb_leb, H. Qed.

Lemma leb_refl x : is_nan x = false -> (x <=? x) = true.
Proof.
  intros Hx. destruct (x <=? x) eqn:E; [reflexivity|].
  pose proof (not_leb_ltb x x Hx Hx E) as L.
  apply ltb_leb in L. congruence.
Qed.

Lemma ltb_not_eqb x y : (x <? y) = true -> (x =? y) = false /\ (y =? x) = false.
Proof.
  rewrite FloatAxioms.ltb_spec, !FloatAxioms.eqb_spec. unfold SFltb, SFeqb.
  destruct (SFcompare (Prim2SF x) _) as [c|] eqn:E; [|discriminate].
  rewrite (SFcompare_antisym _ _ _ E). destruct c; simpl; try discriminate. auto.
Qed.

Lemma eqb_refl x : is_nan x = false -> (x =? x) = true.
Proof. unfold is_nan. now destruct (x =? x). Qed.

Lemma is_finite_not_nan x : is_finite x = true -> is_nan x = false.
Proof. unfold is_finite. destruct (is_nan x); simpl; congruence. Qed.

End PrimOrder.

(** ** combine_fits *)

(** C1. [combine_fits] returns the case fit unchanged when the death fit is
    absent (and nothing when the case fit is absent); with both fits it
    returns their average, the death breakpoint shifted back by
    [drop_shift], exactly when the three agreement tests pass, and the case
    fit otherwise.  For (2.0, 1.0, 30) and (2.1, 1.05, 39) with a shift of 9
    the three tests pass and the combined breakpoint is 30; for a death fit
    (2.0, 1.0, 50) the case fit comes back unchanged. *)
Theorem combine_fits_spec (fits : list (option fit)) (delay_shift : Z)
    (fit_T fit_D : option fit) :
  fits !! Sub.T = Some fit_T ->
  fits !! Sub.D = Some fit_D ->
  (fit_D = None -> combine_fits fits delay_shift = Ok fit_T)
  /\ (fit_T = None -> combine_fits fits delay_shift = Ok None)
  /\ (forall oT eT dT oD eD dD,
        fit_T = Some (Fit oT eT (PyInt dT)) ->
        fit_D = Some (Fit oD eD (PyInt dD)) ->
        combine_fits fits delay_shift =
          if ((abs (oT - oD) / (0.5 * (oT + oD)) <? 0.4)%float
              && (abs (eT - eD) / (0.5 * (eT + eD)) <? 0.3)%float
              && (Z.abs ((dD - delay_shift) - dT) <? delay_shift / 2 + 1))
          then Ok (Some (Fit (0.5 * (oT + oD)) (0.5 * (eT + eD))
                             (PyFloat (0.5 * Z2float (dT + (dD - delay_shift))))))
          else Ok fit_T)
  /\ (let fT := Fit 2.0 1.0 (PyInt 30) in
      let fD := Fit 2.1 1.05 (PyInt 39) in
      (abs (2.0 - 2.1) / (0.5 * (2.0 + 2.1)) <? 0.4)%float = true
      /\ (abs (1.0 - 1.05) / (0.5 * (1.0 + 1.05)) <? 0.3)%float = true
      /\ (Z.abs ((39 - 9) - 30) <? 9 / 2 + 1) = true
      /\ combine_fits [None; None; None; None; None; None; None; Some fD; None; Some fT] 9
         = Ok (Some (Fit (0.5 * (2.0 + 2.1)) (0.5 * (1.0 + 1.05)) (PyFloat 30))))
  /\ (let fT := Fit 2.0 1.0 (PyInt 30) in
      let fD := Fit 2.0 1.0 (PyInt 50) in
      combine_fits [None; None; None; None; None; None; None; Some fD; None; Some fT] 9
      = Ok (Some fT)).
Proof.
  intros HT HD. unfold combine_fits, py_index. rewrite HT. cbn [mbind exc_bind].
  split; [|split; [|split; [|split]]].
  - intros ->. destruct fit_T; [rewrite HD|]; reflexivity.
  - intros ->. reflexivity.
  - intros oT eT dT oD eD dD -> ->. rewrite HD. cbn. reflexivity.
  - vm_compute. repeat split.
  - vm_compute. reflexivity.
Qed.

Lemma combine_fits_spec_witness :
  combine_fits [None; None; None; None; None; None; None; None; None;
                Some (Fit 2.0 1.0 (PyInt 30))] 9
  = Ok (Some (Fit 2.0 1.0 (PyInt 30))).
Proof.
  exact (proj1 (combine_fits_spec
                  [None; None; None; None; None; None; None; None; None;
                   Some (Fit 2.0 1.0 (PyInt 30))] 9 (Some (Fit 2.0 1.0 (PyInt 30))) None
                  eq_refl eq_refl) eq_refl).
Defined.

(** ** The per-channel loops *)

Lemma exc_bind_Ok {A B : Type} (m : exc A) (f : A -> exc B) (b : B) :
  (m ≫= f) = Ok b -> exists a, m = Ok a /\ f a = Ok b.
Proof. destruct m as [a|e]; cbn; [eauto | discriminate]. Qed.

Lemma py_index_Ok {A : Type} (l : list A) (i : nat) (a : A) :
  py_index l i = Ok a <-> l !! i = Some a.
Proof. unfold py_index. destruct (l !! i); split; congruence. Qed.

Lemma channel_loop_spec {A B : Type} (f : A -> exc B) (has_else : bool)
    (data : list (option A)) (iis : list nat) (init out : list (option B)) :
  NoDup iis ->
  (forall ii, ii ∈ iis -> (ii < length init)%nat) ->
  channel_loop f has_else data iis init = Ok out ->
  length out = length init
  /\ (forall j, j ∉ iis -> out !! j = init !! j)
  /\ (forall ii, ii ∈ iis ->
        exists d, data !! ii = Some d /\
          match d with
          | Some a => exists b, f a = Ok b /\ out !! ii = Some (Some b)
          | None => out !! ii = if has_else then Some None else init !! ii
          end).
Proof.
  unfold channel_loop. revert init.
  induction iis as [|i iis IH]; intros init Hnd Hlen H.
  - cbn in H. injection H as <-. split; [done|]. split; [done|].
    intros ii Hin. by apply elem_of_nil in Hin.
  - apply NoDup_cons in Hnd as [Hni Hnd].
    cbn [for_each] in H. apply exc_bind_Ok in H as (s' & Hbody & Hrest).
    apply exc_bind_Ok in Hbody as (d & Hd & Hs'). apply py_index_Ok in Hd.
    assert (Hi : (i < length init)%nat) by (apply Hlen; left).
    assert (Hs'len : length s' = length init).
    { destruct d as [a|].
      - apply exc_bind_Ok in Hs' as (b & _ & [= <-]). by rewrite length_insert.
      - injection Hs' as <-. destruct has_else; [by rewrite length_insert | done]. }
    assert (Hs'ne : forall j, j <> i -> s' !! j = init !! j).
    { intros j Hj. destruct d as [a|].
      - apply exc_bind_Ok in Hs' as (b & _ & [= <-]). by rewrite list_lookup_insert_ne.
      - injection Hs' as <-. destruct has_else; [by rewrite list_lookup_insert_ne | done]. }
    destruct (IH s' Hnd) as (Hl & Hout & Hin); [|exact Hrest|].
    { intros ii Hii. rewrite Hs'len. apply Hlen. by right. }
    split; [congruence|]. split.
    + intros j Hj. apply not_elem_of_cons in Hj as [Hji Hj].
      rewrite (Hout j Hj). by apply Hs'ne.
    + intros ii Hii. apply elem_of_cons in Hii as [-> | Hii].
      * exists d. split; [done|]. rewrite (Hout i Hni). destruct d as [a|].
        -- apply exc_bind_Ok in Hs' as (b & Hb & [= <-]). exists b. split; [done|].
           by rewrite list_lookup_insert_eq.
        -- injection Hs' as <-. destruct has_else; [by rewrite list_lookup_insert_eq | done].
      * destruct (Hin ii Hii) as (d' & Hd' & Hm). exists d'. split; [done|].
        destruct d' as [a'|]; [done|]. rewrite Hm.
        destruct has_else; [done|]. apply Hs'ne. intros ->. done.
Qed.

Lemma for_each_ext {S : Type} (f g : nat -> S -> exc S) (iis : list nat) (s : S) :
  (forall ii s', f ii s' = g ii s') -> for_each f iis s = for_each g iis s.
Proof.
  intros E. revert s. induction iis as [|i iis IH]; intros s; [done|].
  cbn [for_each]. rewrite E. destruct (g i s); cbn; [apply IH | done].
Qed.

Lemma channels4_NoDup : NoDup [Sub.T; Sub.D; Sub.H; Sub.C].
Proof. compute_done. Qed.

Lemma channels2_NoDup : NoDup [Sub.T; Sub.D].
Proof. compute_done. Qed.

Lemma empty_data_list_length : length empty_data_list = Sub.NUM.
Proof. reflexivity. Qed.

(** The channels that a transform does not assign stay as
    [empty_data_list] has them: [None] for H and C. *)
Lemma empty_data_list_HC :
  empty_data_list !! Sub.H = Some None /\ empty_data_list !! Sub.C = Some None.
Proof. split; reflexivity. Qed.

Section LoopForms.

Variables np_log np_exp : float -> float.
Variable np_sum : list float -> float.
Variables GR_mapping R0s_mapping : list float.
Variable masked_value : float.

Lemma get_log_loop data :
  get_log np_log data
  = channel_loop (fun a => Ok (ma_log np_log a)) false data
      [Sub.T; Sub.D; Sub.H; Sub.C] empty_data_list.
Proof. reflexivity. Qed.

Lemma get_daily_counts_loop data :
  get_daily_counts data
  = channel_loop (fun a => Ok (daily_counts_channel a)) true data
      [Sub.T; Sub.D] empty_data_list.
Proof. reflexivity. Qed.

Lemma get_growth_rate_loop data step :
  get_growth_rate np_log data step
  = channel_loop (growth_rate_channel np_log step) true data
      [Sub.T; Sub.D] empty_data_list.
Proof. reflexivity. Qed.

Lemma growth_rate_to_R0_loop data si :
  growth_rate_to_R0 GR_mapping R0s_mapping data si
  = channel_loop
      (fun a => r ← np_interp (ma_data a) GR_mapping R0s_mapping;
                Ok (ma_mask_isnan (ndarray r)))
      true data [Sub.T; Sub.D] empty_data_list.
Proof.
  unfold growth_rate_to_R0, channel_loop. apply for_each_ext. intros ii acc.
  destruct (py_index data ii) as [[a|]|]; cbn; try done.
  by destruct (np_interp _ _ _).
Qed.

End LoopForms.

(** ** Absent channels *)

(** A loop with an [else] branch keeps an absent channel absent; a loop
    without one leaves the channel as the initial structure has it. *)
Lemma channel_loop_absent {A B : Type} (f : A -> exc B) (has_else : bool)
    (data : list (option A)) (iis : list nat) (init out : list (option B)) (ii : nat) :
  NoDup iis ->
  (forall i, i ∈ iis -> (i < length init)%nat) ->
  channel_loop f has_else data iis init = Ok out ->
  ii ∈ iis ->
  data !! ii = Some None ->
  out !! ii = if has_else then Some None else init !! ii.
Proof.
  intros Hnd Hlen H Hin Hd.
  destruct (channel_loop_spec f has_else data iis init out Hnd Hlen H) as (_ & _ & Hs).
  destruct (Hs ii Hin) as (d & Hd' & Hm). rewrite Hd in Hd'. by injection Hd' as <-.
Qed.

Lemma channels_lt_NUM (ii : nat) :
  ii ∈ [Sub.T; Sub.D; Sub.H; Sub.C] -> (ii < length empty_data_list)%nat.
Proof.
  rewrite empty_data_list_length. intros Hin.
  apply elem_of_cons in Hin as [-> | Hin]; [compute; lia|].
  apply elem_of_cons in Hin as [-> | Hin]; [compute; lia|].
  apply elem_of_cons in Hin as [-> | Hin]; [compute; lia|].
  apply elem_of_cons in Hin as [-> | Hin]; [compute; lia|].
  by apply elem_of_nil in Hin.
Qed.

Lemma channels2_in4 (ii : nat) :
  ii ∈ [Sub.T; Sub.D] -> ii ∈ [Sub.T; Sub.D; Sub.H; Sub.C].
Proof.
  intros Hin. apply elem_of_cons in Hin as [-> | Hin]; [by left|].
  apply elem_of_cons in Hin as [-> | Hin]; [by right; left|].
  by apply elem_of_nil in Hin.
Qed.

Lemma channels2_lt_NUM (ii : nat) :
  ii ∈ [Sub.T; Sub.D] -> (ii < length empty_data_list)%nat.
Proof. intros Hin. by apply channels_lt_NUM, channels2_in4. Qed.

(** The transforms with an [else] branch: an absent T or D stays absent. *)
Lemma get_daily_counts_absent data out ii :
  get_daily_counts data = Ok out -> ii ∈ [Sub.T; Sub.D] ->
  data !! ii = Some None -> out !! ii = Some None.
Proof.
  rewrite get_daily_counts_loop. intros H Hin Hd.
  exact (channel_loop_absent _ true _ _ _ _ ii channels2_NoDup channels2_lt_NUM H Hin Hd).
Qed.

Lemma get_growth_rate_absent np_log data step out ii :
  get_growth_rate np_log data step = Ok out -> ii ∈ [Sub.T; Sub.D] ->
  data !! ii = Some None -> out !! ii = Some None.
Proof.
  rewrite get_growth_rate_loop. intros H Hin Hd.
  exact (channel_loop_absent _ true _ _ _ _ ii channels2_NoDup channels2_lt_NUM H Hin Hd).
Qed.

Lemma growth_rate_to_R0_absent GR R0s data si out ii :
  growth_rate_to_R0 GR R0s data si = Ok out -> ii ∈ [Sub.T; Sub.D] ->
  data !! ii = Some None -> out !! ii = Some None.
Proof.
  rewrite growth_rate_to_R0_loop. intros H Hin Hd.
  exact (channel_loop_absent _ true _ _ _ _ ii channels2_NoDup channels2_lt_NUM H Hin Hd).
Qed.

(** [get_log] has no [else] branch: an absent T or D comes out as the
    empty array that [empty_data_list] puts there. *)
Lemma get_log_absent np_log data out ii :
  get_log np_log data = Ok out -> ii ∈ [Sub.T; Sub.D] ->
  data !! ii = Some None -> out !! ii = Some (Some (ndarray [])).
Proof.
  rewrite get_log_loop. intros H Hin Hd.
  pose proof (channel_loop_absent _ false _ _ _ _ ii channels4_NoDup channels_lt_NUM H
                (channels2_in4 ii Hin) Hd) as E.
  cbn beta iota in E. rewrite E.
  apply elem_of_cons in Hin as [-> | Hin]; [reflexivity|].
  apply elem_of_cons in Hin as [-> | Hin]; [reflexivity|].
  by apply elem_of_nil in Hin.
Qed.

(** C6. The absent-channel invariant fails in [get_log]: on a structure
    whose channels are all absent it returns, for T and for D, a present
    empty array instead of an absent channel (H and C stay absent). *)
Theorem get_log_absent_channel_becomes_present (np_log : float -> float) :
  let data : data_list := replicate Sub.NUM None in
  data !! Sub.T = Some None
  /\ exists out,
       get_log np_log data = Ok out
       /\ out !! Sub.T = Some (Some (ndarray []))
       /\ out !! Sub.D = Some (Some (ndarray []))
       /\ out !! Sub.H = Some None
       /\ out !! Sub.C = Some None.
Proof.
  cbn zeta. split; [reflexivity|].
  exists empty_data_list. repeat split; reflexivity.
Qed.

(** ** get_daily_counts *)

(** C4. On the empty cumulative series, which is what [empty_data_list]
    holds for T and D, [get_daily_counts] returns a series of length one
    (a single masked NaN): the output is longer than the input. *)
Theorem get_daily_counts_empty_series_grows :
  empty_data_list !! Sub.T = Some (Some (ndarray []))
  /\ exists out,
       get_daily_counts empty_data_list = Ok out
       /\ out !! Sub.T = Some (Some [Cell nan true])
       /\ out !! Sub.D = Some (Some [Cell nan true])
       /\ length [Cell nan true] <> length (ndarray []).
Proof.
  split; [reflexivity|].
  eexists. split; [reflexivity|].
  repeat split; try reflexivity. discriminate.
Qed.

(** ** get_growth_rate *)

Section GrowthRate.

Variable np_log : float -> float.

Lemma growth_cell_spec step hi lo :
  overwrite_cell (growth_cell np_log step hi lo)
  = Cell (if log_valid np_log hi && log_valid np_log lo
             && quotient_kept np_log step hi lo
          then log_quotient np_log step hi lo else nan) false.
Proof.
  unfold overwrite_cell, growth_cell, true_divide_cell, subtract_cell, log_cell,
    log_valid, quotient_kept, log_quotient.
  destruct hi as [xh mh], lo as [xl ml]; cbn [cdata cmask].
  destruct mh, ml; cbn [negb andb orb];
    rewrite ?orb_true_r, ?andb_false_r; cbn [cdata cmask negb andb orb]; try reflexivity;
    rewrite ?orb_false_r.
  destruct (is_finite (np_log xh)), (xh <=? 0)%float,
    (is_finite (np_log xl)), (xl <=? 0)%float;
    cbn [negb andb orb cdata cmask]; rewrite ?orb_true_r; cbn [cdata cmask]; try reflexivity.
  rewrite ?orb_false_r.
  destruct (is_finite _), (_ <=? _)%float; reflexivity.
Qed.

(** The closed form of one channel for a positive step, before and after
    the final overwrite. *)
Lemma growth_rate_padded_eq (step : Z) (a : marray) :
  0 < step ->
  growth_rate_padded np_log step a
  = Ok (map (true_divide_cell step)
          (zip_with subtract_cell
             (map (log_cell np_log) (skipn (Z.to_nat step) a))
             (map (log_cell np_log) (firstn (length a - Z.to_nat step) a)))
        ++ replicate (Z.to_nat step) (Cell nan true)).
Proof.
  intros Hs. unfold growth_rate_padded, ma_subtract, broadcast2,
    py_slice_from, py_slice_to, ma_log, ma_true_divide, ma_repeat, ma_concatenate.
  replace (step <? 0) with false by lia. replace (- step <? 0) with true by lia.
  replace (Z.to_nat (Z.max 0 (Z.of_nat (length a) + - step)))
    with (length a - Z.to_nat step)%nat by lia.
  rewrite !length_map, length_drop, length_take.
  replace ((length a - Z.to_nat step) `min` length a)%nat
    with (length a - Z.to_nat step)%nat by lia.
  rewrite Nat.eqb_refl. cbn [mbind exc_bind].
  do 2 f_equal.
  unfold ma_mask_isnan, ndarray. rewrite <- !list_fmap_compose.
  induction (Z.to_nat step) as [|k IH]; [reflexivity|].
  cbn. f_equal. exact IH.
Qed.

Lemma growth_rate_channel_padded (step : Z) (a : marray) :
  growth_rate_channel np_log step a
  = (padded ← growth_rate_padded np_log step a; Ok (map overwrite_cell padded)).
Proof. reflexivity. Qed.

Lemma growth_rate_channel_eq (step : Z) (a : marray) :
  0 < step ->
  growth_rate_channel np_log step a
  = Ok (map overwrite_cell
          (map (true_divide_cell step)
             (zip_with subtract_cell
                (map (log_cell np_log) (skipn (Z.to_nat step) a))
                (map (log_cell np_log) (firstn (length a - Z.to_nat step) a)))
           ++ replicate (Z.to_nat step) (Cell nan true))).
Proof.
  intros Hs. by rewrite growth_rate_channel_padded, growth_rate_padded_eq.
Qed.

(** Before the overwrite, an element that is not masked is not NaN. *)
Lemma growth_rate_padded_unmasked_finite (step : Z) (a padded : marray) :
  0 < step ->
  growth_rate_padded np_log step a = Ok padded ->
  Forall (fun p => cmask p = false -> is_nan (cdata p) = false) padded.
Proof.
  intros Hs. rewrite (growth_rate_padded_eq step a Hs). intros [= <-].
  apply Forall_app. split.
  - apply Forall_fmap, Forall_true. intros c. unfold true_divide_cell. cbn.
    destruct (is_finite (cdata c / Z2float step)) eqn:E; cbn; [|done].
    destruct (_ <=? _)%float; cbn; [done|].
    destruct (cmask c); cbn; [done|]. intros _. by apply is_finite_not_nan.
  - apply Forall_replicate. cbn. done.
Qed.

Lemma growth_rate_channel_length (step : Z) (a out : marray) :
  0 < step ->
  growth_rate_channel np_log step a = Ok out ->
  length out = (length a - Z.to_nat step + Z.to_nat step)%nat.
Proof.
  intros Hs. rewrite (growth_rate_channel_eq step a Hs). intros [= <-].
  rewrite length_map, length_app, length_map, length_zip_with, !length_map,
    length_drop, length_take, length_replicate. lia.
Qed.

Lemma growth_rate_channel_lookup (step : Z) (a out : marray) (t : nat) (lo hi : cell) :
  0 < step ->
  growth_rate_channel np_log step a = Ok out ->
  a !! t = Some lo ->
  a !! (t + Z.to_nat step)%nat = Some hi ->
  out !! t = Some (overwrite_cell (growth_cell np_log step hi lo)).
Proof.
  intros Hs. rewrite (growth_rate_channel_eq step a Hs). intros [= <-] Hlo Hhi.
  assert (Hlen : (t + Z.to_nat step < length a)%nat) by (by eapply lookup_lt_Some).
  rewrite list_lookup_fmap, lookup_app_l.
  2:{ rewrite length_map, length_zip_with, !length_map, length_drop, length_take. lia. }
  rewrite list_lookup_fmap, lookup_zip_with, !list_lookup_fmap, lookup_drop, lookup_take.
  rewrite (Nat.add_comm (Z.to_nat step) t), Hhi, Hlo.
  destruct (decide (t < length a - Z.to_nat step)%nat); [reflexivity | lia].
Qed.

Lemma growth_rate_channel_trailing (step : Z) (a out : marray) (t : nat) :
  0 < step ->
  growth_rate_channel np_log step a = Ok out ->
  (length a - Z.to_nat step <= t < length a - Z.to_nat step + Z.to_nat step)%nat ->
  out !! t = Some (Cell nan false).
Proof.
  intros Hs. rewrite (growth_rate_channel_eq step a Hs). intros [= <-] Ht.
  rewrite list_lookup_fmap, lookup_app_r;
    rewrite length_map, length_zip_with, !length_map, length_drop, length_take; [|lia].
  rewrite lookup_replicate_2 by lia. reflexivity.
Qed.

Lemma growth_rate_channel_unmasked (step : Z) (a out : marray) :
  0 < step ->
  growth_rate_channel np_log step a = Ok out ->
  Forall (fun c => cmask c = false) out.
Proof.
  intros Hs. rewrite (growth_rate_channel_eq step a Hs). intros [= <-].
  apply Forall_fmap, Forall_true. intros c. unfold overwrite_cell; cbn.
  by destruct (cmask c) eqn:E.
Qed.

End GrowthRate.

(** C3 (as amended).  For a present T or D series [a] and a positive step,
    [get_growth_rate] returns for that channel a series in which nothing is
    masked and where: the element at [t] is the forward difference
    [(log a[t+step] - log a[t]) / step] when both [a[t]] and [a[t+step]]
    are valid for the logarithm and the quotient is kept by the masked
    division, and NaN otherwise; when the series has at least [step]
    elements the result has the length of the series and its last [step]
    elements are NaN; and where every such quotient is the same value [g],
    every element but the last [step] is [g]. *)
Theorem get_growth_rate_forward_difference (np_log : float -> float)
    (data out : data_list) (step : Z) (ii : nat) (a : marray) :
  0 < step ->
  ii ∈ [Sub.T; Sub.D] ->
  data !! ii = Some (Some a) ->
  get_growth_rate np_log data step = Ok out ->
  exists a',
    out !! ii = Some (Some a')
    /\ Forall (fun c => cmask c = false) a'
    /\ (forall t lo hi,
          a !! t = Some lo -> a !! (t + Z.to_nat step)%nat = Some hi ->
          a' !! t =
            Some (Cell (if log_valid np_log hi && log_valid np_log lo
                           && quotient_kept np_log step hi lo
                        then log_quotient np_log step hi lo else nan) false))
    /\ ((Z.to_nat step <= length a)%nat ->
        length a' = length a
        /\ forall t, (length a - Z.to_nat step <= t < length a)%nat ->
                     a' !! t = Some (Cell nan false))
    /\ (forall g,
          (forall t lo hi,
             a !! t = Some lo -> a !! (t + Z.to_nat step)%nat = Some hi ->
             log_valid np_log hi = true /\ log_valid np_log lo = true
             /\ quotient_kept np_log step hi lo = true
             /\ log_quotient np_log step hi lo = g) ->
          forall t, (t + Z.to_nat step < length a)%nat -> a' !! t = Some (Cell g false)).
Proof.
  intros Hs Hin Hd H. rewrite get_growth_rate_loop in H.
  destruct (channel_loop_spec _ true _ _ _ _ channels2_NoDup channels2_lt_NUM H)
    as (_ & _ & Hch).
  destruct (Hch ii Hin) as (d & Hd' & Hm). rewrite Hd in Hd'. injection Hd' as <-.
  destruct Hm as (a' & Ha' & Hout). exists a'.
  assert (Hlook : forall t lo hi,
             a !! t = Some lo -> a !! (t + Z.to_nat step)%nat = Some hi ->
             a' !! t =
               Some (Cell (if log_valid np_log hi && log_valid np_log lo
                              && quotient_kept np_log step hi lo
                           then log_quotient np_log step hi lo else nan) false)).
  { intros t lo hi Hlo Hhi.
    rewrite (growth_rate_channel_lookup np_log step a a' t lo hi Hs Ha' Hlo Hhi).
    by rewrite growth_cell_spec. }
  split; [exact Hout|]. split; [by eapply growth_rate_channel_unmasked|].
  split; [exact Hlook|]. split.
  - intros Hle. split.
    + rewrite (growth_rate_channel_length np_log step a a' Hs Ha'). lia.
    + intros t Ht. apply (growth_rate_channel_trailing np_log step a a' t Hs Ha'). lia.
  - intros g Hg t Ht.
    destruct (lookup_lt_is_Some_2 a t) as [lo Hlo]; [lia|].
    destruct (lookup_lt_is_Some_2 a (t + Z.to_nat step)) as [hi Hhi]; [lia|].
    rewrite (Hlook t lo hi Hlo Hhi).
    destruct (Hg t lo hi Hlo Hhi) as (-> & -> & -> & ->). reflexivity.
Qed.

Lemma get_growth_rate_forward_difference_witness :
  exists a' : marray,
    get_growth_rate (fun x => x)
      [None; None; None; None; None; None; None; None; None;
       Some (ndarray [1; 2; 4]%float)] 1
    = Ok [None; None; None; None; None; None; None; None; None; Some a']
    /\ length a' = 3%nat.
Proof.
  destruct (get_growth_rate_forward_difference (fun x => x)
              [None; None; None; None; None; None; None; None; None;
               Some (ndarray [1; 2; 4]%float)]
              [None; None; None; None; None; None; None; None; None;
               Some [Cell 1 false; Cell 2 false; Cell nan false]]
              1 Sub.T (ndarray [1; 2; 4]%float))
    as (a' & Hout & _ & _ & Hlen & _).
  - lia.
  - by left.
  - reflexivity.
  - vm_compute. reflexivity.
  - exists a'. injection Hout as <-. split; [vm_compute; reflexivity|].
    apply Hlen. cbn. lia.
Defined.

(** ** np.interp on an increasing table *)

Section Interp.
Local Open Scope float_scope.

Lemma take_while_app_all {A : Type} (p : A -> bool) (l k : list A) :
  Forall (fun a => p a = true) l -> take_while p (l ++ k) = l ++ take_while p k.
Proof.
  induction 1 as [|a l Ha _ IH]; [done|]. cbn. rewrite Ha. by f_equal.
Qed.

Lemma take_while_all {A : Type} (p : A -> bool) (l : list A) :
  Forall (fun a => p a = true) l -> take_while p l = l.
Proof.
  intros H. rewrite <- (app_nil_r l) at 1. rewrite take_while_app_all by done.
  by rewrite app_nil_r.
Qed.

Lemma increasing_not_nan xp i a :
  increasing xp -> (2 <= length xp)%nat -> xp !! i = Some a -> is_nan a = false.
Proof.
  intros Hinc Hlen Ha.
  destruct i as [|i].
  - destruct (lookup_lt_is_Some_2 xp 1) as [b Hb]; [lia|].
    assert (L : (a <? b) = true) by (apply (Hinc 0%nat 1%nat); [lia|done..]).
    apply (ltb_not_nan a b L).
  - destruct (lookup_lt_is_Some_2 xp 0) as [b Hb]; [lia|].
    assert (L : (b <? a) = true) by (apply (Hinc 0%nat (S i)); [lia|done..]).
    apply (ltb_not_nan b a L).
Qed.

Lemma increasing_leb xp i j a b :
  increasing xp -> (2 <= length xp)%nat -> (i <= j)%nat ->
  xp !! i = Some a -> xp !! j = Some b -> (a <=? b) = true.
Proof.
  intros Hinc Hlen Hij Ha Hb.
  destruct (decide (i = j)) as [->|Hne].
  - rewrite Ha in Hb. injection Hb as <-. apply leb_refl. by eapply increasing_not_nan.
  - apply ltb_leb, (Hinc i j); [lia|done..].
Qed.

(** The index that [search] finds for a key between two consecutive knots,
    or at or after the last one. *)
Lemma search_found xp j x0 x :
  increasing xp -> (2 <= length xp)%nat ->
  xp !! j = Some x0 ->
  (x0 <=? x) = true ->
  (nth (length xp - 1) xp 0 <? x) = false ->
  (forall x1, xp !! S j = Some x1 -> (x <? x1) = true) ->
  search x xp = Z.of_nat j.
Proof.
  intros Hinc Hlen Hj Hle Habove Hnext. unfold search. rewrite Habove.
  assert (Hfirst : (x <? nth 0 xp 0) = false).
  { destruct (lookup_lt_is_Some_2 xp 0) as [f Hf]; [lia|].
    rewrite (nth_lookup_Some _ _ _ _ Hf).
    destruct (x <? f) eqn:E; [|done].
    apply ltb_not_leb in E.
    rewrite (leb_trans f x0 x) in E; [done| |done].
    eapply (increasing_leb xp 0 j); [done..|lia|done|done]. }
  rewrite Hfirst. f_equal.
  pose proof (take_drop_middle xp j x0 Hj) as E.
  assert (Hlj : length (take j xp) = j).
  { rewrite length_take. apply lookup_lt_Some in Hj. lia. }
  assert (Hpre : Forall (fun a => (a <=? x) = true) (take j xp)).
  { apply Forall_lookup. intros i a Ha. apply (leb_trans a x0 x); [|done].
    assert (i < j)%nat by (apply lookup_lt_Some in Ha; lia).
    rewrite lookup_take in Ha. destruct (decide (i < j)%nat); [|done].
    apply ltb_leb, (Hinc i j); done. }
  assert (Hpost : take_while (fun a => a <=? x) (skipn (S j) xp) = []).
  { destruct (skipn (S j) xp) as [|x1 rest] eqn:Ed; [done|].
    assert (Hx1 : xp !! S j = Some x1).
    { rewrite <- (Nat.add_0_r (S j)), <- lookup_drop. unfold drop. by rewrite Ed. }
    cbn. by rewrite (ltb_not_leb x x1 (Hnext x1 Hx1)). }
  rewrite <- E. destruct (take j xp) as [|y pre] eqn:Ep.
  - cbn in Hlj. subst j. cbn [app tail]. by rewrite Hpost.
  - cbn [app tail]. apply Forall_cons in Hpre as [_ Hpre].
    rewrite take_while_app_all by done. cbn. rewrite Hle, Hpost.
    rewrite length_app. cbn in *. lia.
Qed.

End Interp.

Section InterpOne.
Local Open Scope float_scope.

Variables xp fp : list float.
Hypothesis Hinc : increasing xp.
Hypothesis Hlen2 : (2 <= length xp)%nat.

Lemma not_above_last x b i :
  xp !! i = Some b -> (x <=? b) = true ->
  (nth (length xp - 1) xp 0 <? x) = false.
Proof using Hinc Hlen2.
  intros Hb Hxb.
  destruct (lookup_lt_is_Some_2 xp (length xp - 1)) as [l Hl]; [lia|].
  rewrite (nth_lookup_Some _ _ _ _ Hl).
  destruct (l <? x) eqn:E; [|done].
  apply ltb_not_leb in E. rewrite (leb_trans x b l) in E; [done|done|].
  apply (increasing_leb xp i (length xp - 1)); try done.
  apply lookup_lt_Some in Hb. lia.
Qed.

Lemma interp_one_nan x : is_nan x = true -> interp_one xp fp x = x.
Proof using Hlen2.
  intros Hx. unfold interp_one.
  replace (length xp =? 1)%nat with false by (symmetry; apply Nat.eqb_neq; lia).
  by rewrite Hx.
Qed.

Lemma interp_one_knot j xj fj :
  xp !! j = Some xj -> fp !! j = Some fj -> interp_one xp fp xj = fj.
Proof using Hinc Hlen2.
  intros Hx Hf. unfold interp_one.
  replace (length xp =? 1)%nat with false by (symmetry; apply Nat.eqb_neq; lia).
  pose proof (increasing_not_nan xp j xj Hinc Hlen2 Hx) as Hnn. rewrite Hnn.
  pose proof (leb_refl xj Hnn) as Hrefl.
  rewrite (search_found xp j xj xj Hinc Hlen2 Hx Hrefl).
  2:{ by apply (not_above_last xj xj j). }
  2:{ intros x1 Hx1. apply (Hinc j (S j)); [lia|done..]. }
  pose proof (lookup_lt_Some _ _ _ Hx) as Hj.
  replace (Z.of_nat j =? -1)%Z with false by lia.
  replace (Z.of_nat j =? Z.of_nat (length xp))%Z with false by lia.
  rewrite Nat2Z.id, (nth_lookup_Some _ _ _ _ Hf), (nth_lookup_Some _ _ _ _ Hx).
  rewrite (eqb_refl xj Hnn). by destruct (_ =? _)%Z.
Qed.

Lemma interp_one_between j x0 x1 f0 f1 x :
  xp !! j = Some x0 -> xp !! S j = Some x1 ->
  fp !! j = Some f0 -> fp !! S j = Some f1 ->
  (x0 <? x) = true -> (x <? x1) = true ->
  is_nan (segment x0 f0 x1 f1 x) = false ->
  interp_one xp fp x = segment x0 f0 x1 f1 x.
Proof using Hinc Hlen2.
  intros Hx0 Hx1 Hf0 Hf1 Hlo Hhi Hseg. unfold interp_one.
  replace (length xp =? 1)%nat with false by (symmetry; apply Nat.eqb_neq; lia).
  destruct (ltb_not_nan _ _ Hlo) as [_ Hnn]. rewrite Hnn.
  rewrite (search_found xp j x0 x Hinc Hlen2 Hx0 (ltb_leb _ _ Hlo)).
  2:{ apply (not_above_last x x1 (S j)); [done|by apply ltb_leb]. }
  2:{ intros x1' Hx1'. rewrite Hx1 in Hx1'. by injection Hx1' as <-. }
  pose proof (lookup_lt_Some _ _ _ Hx1) as Hj.
  replace (Z.of_nat j =? -1)%Z with false by lia.
  replace (Z.of_nat j =? Z.of_nat (length xp))%Z with false by lia.
  replace (Z.of_nat j =? Z.of_nat (length xp) - 1)%Z with false by lia.
  rewrite Nat2Z.id, Nat.add_1_r.
  rewrite (nth_lookup_Some _ _ _ _ Hf0), (nth_lookup_Some _ _ _ _ Hx0),
    (nth_lookup_Some _ _ _ _ Hf1), (nth_lookup_Some _ _ _ _ Hx1).
  destruct (ltb_not_eqb _ _ Hlo) as [-> _].
  fold (segment x0 f0 x1 f1 x). by rewrite Hseg.
Qed.

Lemma interp_one_below x0 x :
  xp !! 0%nat = Some x0 -> (x <? x0) = true -> interp_one xp fp x = nth 0 fp 0.
Proof using Hinc Hlen2.
  intros Hx0 Hlt. unfold interp_one.
  replace (length xp =? 1)%nat with false by (symmetry; apply Nat.eqb_neq; lia).
  destruct (ltb_not_nan _ _ Hlt) as [Hnn _]. rewrite Hnn.
  unfold search.
  rewrite (not_above_last x x0 0 Hx0 (ltb_leb _ _ Hlt)).
  rewrite (nth_lookup_Some _ _ _ _ Hx0), Hlt. reflexivity.
Qed.

Lemma interp_one_above x :
  (nth (length xp - 1) xp 0 <? x) = true ->
  interp_one xp fp x = nth (length xp - 1) fp 0.
Proof using Hlen2.
  intros Hlt. unfold interp_one.
  replace (length xp =? 1)%nat with false by (symmetry; apply Nat.eqb_neq; lia).
  destruct (ltb_not_nan _ _ Hlt) as [_ Hnn]. rewrite Hnn.
  unfold search. rewrite Hlt.
  replace (Z.of_nat (length xp) =? -1)%Z with false by lia.
  by rewrite Z.eqb_refl.
Qed.

End InterpOne.

(** ** growth_rate_to_R0 *)

Lemma increasing_pair (a b : float) : (a <? b)%float = true -> increasing [a; b].
Proof.
  intros Hab i j x y Hij Hx Hy.
  destruct i as [|[|i]], j as [|[|j]]; cbn in Hx, Hy; try lia; try discriminate.
  by injection Hx as <-; injection Hy as <-.
Qed.

Lemma growth_rate_to_R0_channel GR R0s data si out ii a :
  ii ∈ [Sub.T; Sub.D] ->
  data !! ii = Some (Some a) ->
  growth_rate_to_R0 GR R0s data si = Ok out ->
  out !! ii = Some (Some (map (R0_cell GR R0s) a)).
Proof.
  intros Hin Hd H. rewrite growth_rate_to_R0_loop in H.
  destruct (channel_loop_spec _ true _ _ _ _ channels2_NoDup channels2_lt_NUM H)
    as (_ & _ & Hch).
  destruct (Hch ii Hin) as (d & Hd' & Hm). rewrite Hd in Hd'. injection Hd' as <-.
  destruct Hm as (b & Hb & ->). do 2 f_equal.
  apply exc_bind_Ok in Hb as (r & Hr & [= <-]).
  unfold np_interp in Hr. destruct (_ =? _)%nat; [done|].
  destruct (negb _); [done|]. injection Hr as <-.
  unfold ma_mask_isnan, ndarray, ma_data, R0_cell.
  rewrite <- !list_fmap_compose. reflexivity.
Qed.

(** C5 (as amended).  On a strictly increasing table with at least two
    knots, each output element of [growth_rate_to_R0] is computed from the
    stored value of the input element alone, the input mask playing no
    part: it is the knot's R0 at a knot, the value of the straight line
    through the two neighbouring knots strictly between them, the first
    (last) R0 below (above) the table, and it is masked exactly when that
    value is NaN; an input element whose stored value is NaN yields a
    masked NaN. *)
Theorem growth_rate_to_R0_interpolates (GR_mapping R0s_mapping : list float)
    (data out : data_list) (serial_interval : Z) (ii : nat) (a : marray) :
  increasing GR_mapping ->
  (2 <= length GR_mapping)%nat ->
  ii ∈ [Sub.T; Sub.D] ->
  data !! ii = Some (Some a) ->
  growth_rate_to_R0 GR_mapping R0s_mapping data serial_interval = Ok out ->
  out !! ii = Some (Some (map (R0_cell GR_mapping R0s_mapping) a))
  /\ (forall x m, R0_cell GR_mapping R0s_mapping (Cell x m)
                  = Cell (interp_one GR_mapping R0s_mapping x)
                         (is_nan (interp_one GR_mapping R0s_mapping x)))
  /\ (forall j xj fj,
        GR_mapping !! j = Some xj -> R0s_mapping !! j = Some fj ->
        interp_one GR_mapping R0s_mapping xj = fj)
  /\ (forall j x0 x1 f0 f1 x,
        GR_mapping !! j = Some x0 -> GR_mapping !! S j = Some x1 ->
        R0s_mapping !! j = Some f0 -> R0s_mapping !! S j = Some f1 ->
        (x0 <? x)%float = true -> (x <? x1)%float = true ->
        is_nan (segment x0 f0 x1 f1 x) = false ->
        interp_one GR_mapping R0s_mapping x = segment x0 f0 x1 f1 x)
  /\ (forall x0 x,
        GR_mapping !! 0%nat = Some x0 -> (x <? x0)%float = true ->
        interp_one GR_mapping R0s_mapping x = nth 0 R0s_mapping 0%float)
  /\ (forall x,
        (nth (length GR_mapping - 1) GR_mapping 0 <? x)%float = true ->
        interp_one GR_mapping R0s_mapping x
        = nth (length GR_mapping - 1) R0s_mapping 0%float)
  /\ (forall x m, is_nan x = true ->
                  R0_cell GR_mapping R0s_mapping (Cell x m) = Cell x true).
Proof.
  intros Hinc Hlen Hin Hd H.
  split; [by eapply growth_rate_to_R0_channel|].
  split; [reflexivity|].
  split; [intros; by eapply interp_one_knot|].
  split; [intros; by eapply interp_one_between|].
  split; [intros; by eapply interp_one_below|].
  split; [intros; by eapply interp_one_above|].
  intros x m Hx. unfold R0_cell. cbn. by rewrite interp_one_nan, Hx.
Qed.

Lemma growth_rate_to_R0_interpolates_witness :
  growth_rate_to_R0 [0; 1]%float [1; 2]%float
    [None; None; None; None; None; None; None; None; None;
     Some [Cell 0.5 false; Cell nan false]] 6
  = Ok [None; None; None; None; None; None; None; None; None;
        Some [Cell 1.5 false; Cell nan true]]
  /\ interp_one [0; 1]%float [1; 2]%float 1 = 2%float.
Proof.
  destruct (growth_rate_to_R0_interpolates [0; 1]%float [1; 2]%float
              [None; None; None; None; None; None; None; None; None;
               Some [Cell 0.5 false; Cell nan false]]
              [None; None; None; None; None; None; None; None; None;
               Some [Cell 1.5 false; Cell nan true]]
              6 Sub.T [Cell 0.5 false; Cell nan false])
    as (_ & _ & Hknot & _).
  - apply increasing_pair. reflexivity.
  - cbn. lia.
  - by left.
  - reflexivity.
  - vm_compute. reflexivity.
  - split; [vm_compute; reflexivity|]. by apply (Hknot 1%nat).
Defined.

(** A masked input element whose stored value is an ordinary number is
    interpolated like any other and comes out unmasked. *)
Lemma growth_rate_to_R0_unmasks_masked_input :
  growth_rate_to_R0 [0; 1]%float [1; 2]%float
    [None; None; None; None; None; None; None; None; None; Some [Cell 0.5 true]] 6
  = Ok [None; None; None; None; None; None; None; None; None; Some [Cell 1.5 false]].
Proof. vm_compute. reflexivity. Qed.

(** ** NaN as the mark of an invalid growth rate *)

(** C10 (as amended).  For a present T or D series and a positive step,
    the series returned by [get_growth_rate] has no masked element: the
    final assignment stores NaN at every position that was masked until
    then and clears its mask, so that a stored value is NaN exactly at
    those positions.  [growth_rate_to_R0] (on a table with at least two
    knots) rebuilds its mask as the NaN positions of the interpolated
    values, and so masks every one of those positions. *)
Theorem growth_rate_nan_marks_invalid (np_log : float -> float)
    (GR_mapping R0s_mapping : list float)
    (data out : data_list) (step : Z) (ii : nat) (a : marray) :
  0 < step ->
  ii ∈ [Sub.T; Sub.D] ->
  data !! ii = Some (Some a) ->
  get_growth_rate np_log data step = Ok out ->
  exists padded a',
    growth_rate_padded np_log step a = Ok padded
    /\ out !! ii = Some (Some a')
    /\ length a' = length padded
    /\ (forall i p, padded !! i = Some p ->
          exists c, a' !! i = Some c /\ cmask c = false
                    /\ is_nan (cdata c) = cmask p)
    /\ ((2 <= length GR_mapping)%nat ->
        forall r, growth_rate_to_R0 GR_mapping R0s_mapping out 6 = Ok r ->
          exists b,
            r !! ii = Some (Some b)
            /\ length b = length a'
            /\ (forall i c', b !! i = Some c' -> cmask c' = is_nan (cdata c'))
            /\ (forall i p, padded !! i = Some p -> cmask p = true ->
                  exists c', b !! i = Some c' /\ cmask c' = true)).
Proof.
  intros Hs Hin Hd H. rewrite get_growth_rate_loop in H.
  destruct (channel_loop_spec _ true _ _ _ _ channels2_NoDup channels2_lt_NUM H)
    as (_ & _ & Hch).
  destruct (Hch ii Hin) as (d & Hd' & Hm). rewrite Hd in Hd'. injection Hd' as <-.
  destruct Hm as (a' & Ha' & Hout).
  rewrite growth_rate_channel_padded in Ha'.
  apply exc_bind_Ok in Ha' as (padded & Hp & [= <-]).
  pose proof (growth_rate_padded_unmasked_finite np_log step a padded Hs Hp) as Hfin.
  assert (Hcell : forall i p, padded !! i = Some p ->
            exists c, map overwrite_cell padded !! i = Some c /\ cmask c = false
                      /\ is_nan (cdata c) = cmask p).
  { intros i p Hi. exists (overwrite_cell p). rewrite list_lookup_fmap, Hi.
    split; [done|]. unfold overwrite_cell. destruct (cmask p) eqn:E; cbn; [done|].
    split; [done|]. rewrite Forall_lookup in Hfin. by apply (Hfin i p). }
  exists padded, (map overwrite_cell padded).
  split; [done|]. split; [done|]. split; [by rewrite length_map|].
  split; [exact Hcell|].
  intros Hlen r Hr.
  rewrite (growth_rate_to_R0_channel _ _ _ _ _ ii _ Hin Hout Hr).
  eexists. split; [reflexivity|]. split; [by rewrite length_map|]. split.
  - intros i c' Hc'. rewrite list_lookup_fmap in Hc'.
    destruct (_ !! i); [|done]. by injection Hc' as <-.
  - intros i p Hi Hmask. destruct (Hcell i p Hi) as (c & Hc & _ & Hnan).
    exists (R0_cell GR_mapping R0s_mapping c).
    rewrite list_lookup_fmap, Hc. split; [done|].
    unfold R0_cell. cbn. rewrite interp_one_nan by (done || congruence). congruence.
Qed.

Lemma growth_rate_nan_marks_invalid_witness :
  exists padded a' : marray,
    growth_rate_padded (fun x => x) 1 (ndarray [1; 2; 4]%float) = Ok padded
    /\ a' = [Cell 1 false; Cell 2 false; Cell nan false]
    /\ length a' = length padded.
Proof.
  destruct (growth_rate_nan_marks_invalid (fun x => x) [0; 1]%float [1; 2]%float
              [None; None; None; None; None; None; None; None; None;
               Some (ndarray [1; 2; 4]%float)]
              [None; None; None; None; None; None; None; None; None;
               Some [Cell 1 false; Cell 2 false; Cell nan false]]
              1 Sub.T (ndarray [1; 2; 4]%float))
    as (padded & a' & Hp & Hout & Hlen & _).
  - lia.
  - by left.
  - reflexivity.
  - vm_compute. reflexivity.
  - exists padded, a'. injection Hout as <-. done.
Defined.

(** Whatever the logarithm, the one-element series [[1.0]] with a step of
    one comes back as a single element that holds NaN and is not masked. *)
Lemma get_growth_rate_nan_is_not_masked :
  exists (a : marray) (step : Z),
    a = ndarray [1%float] /\ step = 1
    /\ forall np_log : float -> float,
         get_growth_rate np_log
           [None; None; None; None; None; None; None; None; None; Some a] step
         = Ok [None; None; None; None; None; None; None; None; None;
               Some [Cell nan false]]
         /\ is_nan (cdata (Cell nan false)) = true
         /\ cmask (Cell nan false) = false.
Proof.
  exists (ndarray [1%float]), 1. split; [done|]. split; [done|].
  intros np_log. split; [|done].
  unfold get_growth_rate, for_each, py_index. cbn [lookup list_lookup Sub.T Sub.D].
  cbn [mbind exc_bind]. rewrite growth_rate_channel_eq by lia. reflexivity.
Qed.

(** On the series [[1.0, 1.0, 4.0]] with a step of one, and for any
    logarithm with [log 1 = 0] and [log 4 = 1.3862943611198906], both
    endpoints of the backward difference at index 1 are valid and that
    difference is 0, while the element returned at index 1 is
    [log 4 - log 1]: the forward difference. *)
Lemma get_growth_rate_is_not_backward_difference :
  exists (a : marray) (t : nat) (lo hi : cell),
    a = ndarray [1; 1; 4]%float /\ t = 1%nat
    /\ a !! (t - 1)%nat = Some lo /\ a !! t = Some hi
    /\ forall np_log : float -> float,
         np_log 1%float = 0%float ->
         np_log 4%float = 1.3862943611198906%float ->
         log_valid np_log lo = true /\ log_valid np_log hi = true
         /\ log_quotient np_log 1 hi lo = 0%float
         /\ get_growth_rate np_log
              [None; None; None; None; None; None; None; None; None; Some a] 1
            = Ok [None; None; None; None; None; None; None; None; None;
                  Some [Cell 0 false; Cell 1.3862943611198906 false; Cell nan false]]
         /\ Cell 1.3862943611198906 false <> Cell (log_quotient np_log 1 hi lo) false.
Proof.
  exists (ndarray [1; 1; 4]%float), 1%nat, (Cell 1 false), (Cell 1 false).
  split; [done|]. split; [done|]. split; [done|]. split; [done|].
  intros np_log H1 H4.
  assert (Hq : log_quotient np_log 1 (Cell 1 false) (Cell 1 false) = 0%float).
  { unfold log_quotient. cbn [cdata]. rewrite H1. vm_compute. reflexivity. }
  assert (Hv : log_valid np_log (Cell 1 false) = true).
  { unfold log_valid. cbn [cdata cmask]. rewrite H1. vm_compute. reflexivity. }
  split; [done|]. split; [done|]. split; [done|]. split.
  - unfold get_growth_rate, for_each, py_index. cbn [lookup list_lookup Sub.T Sub.D].
    cbn [mbind exc_bind]. rewrite growth_rate_channel_eq by lia.
    cbv -[Z2float]. rewrite !H1, !H4. vm_compute. reflexivity.
  - rewrite Hq. discriminate.
Qed.

(** ** smooth *)

Lemma channel_loop_in_range {A B : Type} (f : A -> exc B) (has_else : bool)
    (data : list (option A)) (iis : list nat) (init out : list (option B)) :
  channel_loop f has_else data iis init = Ok out ->
  forall ii, ii ∈ iis -> (ii < length data)%nat.
Proof.
  unfold channel_loop. revert init.
  induction iis as [|i iis IH]; intros init H ii Hin; [by apply elem_of_nil in Hin|].
  cbn [for_each] in H. apply exc_bind_Ok in H as (s' & Hbody & Hrest).
  apply exc_bind_Ok in Hbody as (d & Hd & _). apply py_index_Ok in Hd.
  apply elem_of_cons in Hin as [-> | Hin]; [by eapply lookup_lt_Some|].
  by eapply IH.
Qed.

(** A loop that reads the channel from the structure it is updating reads
    what the input holds, each channel being visited once. *)
Lemma for_each_in_place {A : Type} (f : A -> exc A)
    (data : list (option A)) (iis : list nat) (s : list (option A)) :
  NoDup iis ->
  (forall ii, ii ∈ iis -> s !! ii = data !! ii) ->
  for_each (fun ii smoothed =>
              d ← py_index smoothed ii;
              match d with
              | Some a => a' ← f a; Ok (<[ii := Some a']> smoothed)
              | None => Ok smoothed
              end) iis s
  = channel_loop f false data iis s.
Proof.
  unfold channel_loop. revert s.
  induction iis as [|i iis IH]; intros s Hnd Hs; [done|].
  apply NoDup_cons in Hnd as [Hni Hnd]. cbn [for_each].
  replace (py_index s i) with (py_index data i)
    by (unfold py_index; rewrite (Hs i); [done | by left]).
  unfold py_index.
  destruct (data !! i) as [[a|]|]; cbn [mbind exc_bind]; [|by apply IH; [|intros; apply Hs; right]|done].
  destruct (f a) as [a'|e]; cbn [mbind exc_bind]; [|done].
  apply IH; [done|]. intros ii Hii.
  rewrite list_lookup_insert_ne by (intros ->; done). apply Hs. by right.
Qed.

Section Smooth.

Variable savgol_filter : list float -> Z -> Z -> savgol_mode -> exc (list float).
Variable round_astype_int : float -> float.

Lemma smooth_loop data as_int nb_pts order :
  smooth savgol_filter round_astype_int data as_int nb_pts order
  = channel_loop (smooth_channel savgol_filter round_astype_int as_int nb_pts order)
      false data [Sub.T; Sub.D; Sub.H; Sub.C] data.
Proof. unfold smooth. by apply for_each_in_place; [apply channels4_NoDup|]. Qed.

Lemma elem_of_where_from (b : list bool) (k i : nat) :
  i ∈ where_from k b <-> (k <= i)%nat /\ b !! (i - k)%nat = Some true.
Proof.
  revert k. induction b as [|x b IH]; intros k; cbn.
  - split; [by intros ?%elem_of_nil | by intros [_ ?]].
  - destruct x.
    + rewrite elem_of_cons, IH. split.
      * intros [-> | [Hk Hb]]; [by rewrite Nat.sub_diag|].
        split; [lia|]. by replace (i - k)%nat with (S (i - S k)) by lia.
      * intros [Hk Hb]. destruct (decide (i = k)) as [->|Hne]; [by left|right].
        split; [lia|]. by replace (i - k)%nat with (S (i - S k)) in Hb by lia.
    + rewrite IH. split.
      * intros [Hk Hb]. split; [lia|].
        by replace (i - k)%nat with (S (i - S k)) by lia.
      * intros [Hk Hb]. destruct (decide (i = k)) as [->|Hne].
        { by rewrite Nat.sub_diag in Hb. }
        split; [lia|]. by replace (i - k)%nat with (S (i - S k)) in Hb by lia.
Qed.

Lemma elem_of_np_where (b : list bool) (i : nat) :
  i ∈ np_where b <-> b !! i = Some true.
Proof.
  unfold np_where. rewrite elem_of_where_from, Nat.sub_0_r. split; [by intros [_ ?]|].
  intros ?. split; [lia|done].
Qed.

End Smooth.

(** *** np.put *)

Lemma ma_put_snoc (a : marray) (ind : list nat) (x : nat) (v : list float) :
  ma_put a (ind ++ [x]) v = put_one v (ma_put a ind v) (length ind, x).
Proof.
  unfold ma_put. rewrite length_app. cbn [length].
  rewrite Nat.add_1_r, seq_S, zip_with_app by (by rewrite length_seq).
  by rewrite fold_left_app.
Qed.

Lemma put_one_length v acc ki : length (put_one v acc ki) = length acc.
Proof.
  destruct ki as [k i]. cbn. destruct (v !! _); [apply length_insert | apply length_alter].
Qed.

Lemma ma_put_length a ind v : length (ma_put a ind v) = length a.
Proof.
  induction ind as [|x ind IH] using rev_ind; [done|].
  by rewrite ma_put_snoc, put_one_length.
Qed.

Lemma put_one_lookup_ne v acc k i j :
  i <> j -> put_one v acc (k, i) !! j = acc !! j.
Proof.
  intros Hne. cbn. destruct (v !! _);
    [by apply list_lookup_insert_ne | by apply list_lookup_alter_ne].
Qed.

(** Positions that are not among the indices are left as they are. *)
Lemma ma_put_lookup_notin a ind v j :
  j ∉ ind -> ma_put a ind v !! j = a !! j.
Proof.
  induction ind as [|x ind IH] using rev_ind; [done|].
  intros Hj. apply not_elem_of_app in Hj as [Hj Hx].
  apply not_elem_of_cons in Hx as [Hx _].
  rewrite ma_put_snoc, put_one_lookup_ne by done. by apply IH.
Qed.

(** With no value to store, the indexed positions keep their value and
    lose their mask. *)
Lemma ma_put_nil_lookup a ind j c :
  a !! j = Some c ->
  ma_put a ind [] !! j = Some (if decide (j ∈ ind) then Cell (cdata c) false else c).
Proof.
  intros Hc. induction ind as [|x ind IH] using rev_ind.
  - cbn. rewrite Hc. by rewrite decide_False by apply not_elem_of_nil.
  - rewrite ma_put_snoc. destruct (decide (x = j)) as [->|Hne].
    + unfold put_one. rewrite lookup_nil, list_lookup_alter_eq, IH. cbn.
      rewrite (decide_True (P := j ∈ ind ++ [j])) by (apply elem_of_app; right; by left).
      by destruct (decide (j ∈ ind)).
    + rewrite put_one_lookup_ne, IH by done.
      destruct (decide (j ∈ ind)) as [Hin|Hnin].
      * by rewrite decide_True by (apply elem_of_app; by left).
      * rewrite decide_False; [done|]. intros [?|Hx%list_elem_of_singleton]%elem_of_app; done.
Qed.

(** With values to store, an indexed position holds one of them, unmasked. *)
Lemma ma_put_lookup_in a ind v j :
  v <> [] -> j ∈ ind -> (j < length a)%nat ->
  exists y, y ∈ v /\ ma_put a ind v !! j = Some (Cell y false).
Proof.
  intros Hv. induction ind as [|x ind IH] using rev_ind; intros Hin Hj.
  - by apply elem_of_nil in Hin.
  - rewrite ma_put_snoc. destruct (decide (x = j)) as [->|Hne].
    + cbn. destruct (lookup_lt_is_Some_2 v (length ind mod length v)) as [y Hy].
      { apply Nat.mod_upper_bound. by destruct v. }
      rewrite Hy. exists y. split; [by eapply list_elem_of_lookup_2|].
      apply list_lookup_insert_eq. by rewrite ma_put_length.
    + rewrite put_one_lookup_ne by done. apply IH; [|done].
      apply elem_of_app in Hin as [?|Hx%list_elem_of_singleton]; done.
Qed.

Section SmoothChannel.

Variable savgol_filter : list float -> Z -> Z -> savgol_mode -> exc (list float).
Variable round_astype_int : float -> float.

(** What [smooth] does to one present channel when [as_int] is false. *)
Lemma smooth_channel_spec (nb_pts order : Z) (a a' : marray) :
  smooth_channel savgol_filter round_astype_int false nb_pts order a = Ok a' ->
  exists filtered mode,
    savgol_filter (ma_data (select (map (fun c => negb (is_nan (cdata c))) a) a))
      nb_pts order mode = Ok filtered
    /\ length a' = length a
    /\ (forall i c, a !! i = Some c -> is_nan (cdata c) = true -> a' !! i = Some c)
    /\ (forall i c, a !! i = Some c -> is_nan (cdata c) = false ->
          exists c', a' !! i = Some c' /\ cmask c' = false
                     /\ (cdata c' ∈ filtered \/ (filtered = [] /\ cdata c' = cdata c))).
Proof.
  unfold smooth_channel. intros H.
  apply exc_bind_Ok in H as (filtered & Hf & [= <-]).
  eexists filtered, _. split; [exact Hf|]. split; [apply ma_put_length|]. split.
  - intros i c Hc Hnan. rewrite ma_put_lookup_notin; [done|].
    rewrite elem_of_np_where, list_lookup_fmap, Hc. cbn. by rewrite Hnan.
  - intros i c Hc Hnan.
    assert (Hin : i ∈ np_where (map (fun c => negb (is_nan (cdata c))) a)).
    { rewrite elem_of_np_where, list_lookup_fmap, Hc. cbn. by rewrite Hnan. }
    destruct filtered as [|y filtered].
    + rewrite (ma_put_nil_lookup a _ i c Hc), decide_True by done.
      eexists. split; [done|]. split; [done|]. right. done.
    + destruct (ma_put_lookup_in a (np_where (map (fun c => negb (is_nan (cdata c))) a))
                  (y :: filtered) i) as (z & Hz & Hl);
        [done|done|by eapply lookup_lt_Some|].
      rewrite Hl. eexists. split; [done|]. split; [done|]. by left.
Qed.

End SmoothChannel.

(** *** The positions that np.where lists *)

Lemma where_from_NoDup (b : list bool) (s : nat) : NoDup (where_from s b).
Proof.
  revert s. induction b as [|x b IH]; intros s; cbn; [constructor|].
  destruct x; [|apply IH]. constructor; [|apply IH].
  rewrite elem_of_where_from. intros [Hle _]. lia.
Qed.

Lemma where_from_lookup (b : list bool) (s i : nat) :
  b !! i = Some true ->
  where_from s b !! length (List.filter (fun x : bool => x) (firstn i b)) = Some (s + i)%nat.
Proof.
  revert s i. induction b as [|x b IH]; intros s i Hi; [done|].
  destruct i as [|i].
  - cbn in Hi. injection Hi as ->. cbn. f_equal. lia.
  - cbn in Hi. specialize (IH (S s) i Hi).
    destruct x; cbn [firstn List.filter where_from length].
    + change ((s :: where_from (S s) b) !! S ?n) with (where_from (S s) b !! n).
      rewrite IH. f_equal. lia.
    + rewrite IH. f_equal. lia.
Qed.

Lemma filter_map_length {A : Type} (f : A -> bool) (l : list A) :
  length (List.filter (fun x : bool => x) (map f l)) = length (List.filter f l).
Proof. induction l as [|y l IH]; cbn; [done|]. destruct (f y); cbn; by rewrite IH. Qed.

(** The position [i] of a value that is not NaN is the entry of rank
    [valid_before a i] in the list of positions that [np.where] returns. *)
Lemma np_where_valid_before (a : marray) (i : nat) (c : cell) :
  a !! i = Some c -> is_nan (cdata c) = false ->
  np_where (map (fun c => negb (is_nan (cdata c))) a) !! valid_before a i = Some i.
Proof.
  intros Hc Hnan. unfold np_where, valid_before.
  rewrite <- filter_map_length, <- firstn_map.
  rewrite (where_from_lookup _ 0 i); [done|].
  rewrite list_lookup_fmap, Hc. cbn. by rewrite Hnan.
Qed.


(** *** np.put, position by position *)

(** The position listed at rank [k] receives the value of rank [k], the
    values being repeated when there are fewer of them than positions; it
    keeps its own value when there is no value at all.  Either way it is
    not masked afterwards. *)
Lemma ma_put_lookup_nth (a : marray) (ind : list nat) (v : list float)
    (k j : nat) (c : cell) :
  NoDup ind -> ind !! k = Some j -> a !! j = Some c ->
  ma_put a ind v !! j
  = Some (Cell (default (cdata c) (v !! (k mod length v)%nat)) false).
Proof.
  intros Hnd Hk Hc. revert k Hk Hnd.
  induction ind as [|x ind IH] using rev_ind; intros k Hk Hnd; [done|].
  apply NoDup_app in Hnd as (Hnd & Hdisj & _).
  rewrite ma_put_snoc.
  apply lookup_app_Some in Hk as [Hk | [Hge Hk]].
  - assert (x <> j).
    { intros ->. apply (Hdisj j); [by eapply list_elem_of_lookup_2 | by left]. }
    rewrite put_one_lookup_ne by done. by apply IH.
  - apply list_lookup_singleton_Some in Hk as [Hk ->].
    assert (k = length ind) as -> by lia.
    assert (Hj : j ∉ ind). { intros Hin. apply (Hdisj j Hin). by left. }
    pose proof (ma_put_lookup_notin a ind v j Hj) as Hacc. rewrite Hc in Hacc.
    cbn [put_one]. destruct (v !! _) as [y|]; cbn [default].
    + apply list_lookup_insert_eq. by eapply lookup_lt_Some.
    + by rewrite list_lookup_alter_eq, Hacc.
Qed.

Section SmoothPositions.

Variable savgol_filter : list float -> Z -> Z -> savgol_mode -> exc (list float).
Variable round_astype_int : float -> float.

(** What [smooth] does to one present channel when [as_int] is false,
    position by position. *)
Lemma smooth_channel_positions (nb_pts order : Z) (a a' : marray) :
  smooth_channel savgol_filter round_astype_int false nb_pts order a = Ok a' ->
  exists filtered mode,
    savgol_filter (ma_data (select (map (fun c => negb (is_nan (cdata c))) a) a))
      nb_pts order mode = Ok filtered
    /\ length a' = length a
    /\ (forall i c, a !! i = Some c -> is_nan (cdata c) = true -> a' !! i = Some c)
    /\ (forall i c, a !! i = Some c -> is_nan (cdata c) = false ->
          a' !! i
          = Some (Cell (default (cdata c)
                          (filtered !! (valid_before a i mod length filtered)%nat))
                       false)).
Proof.
  unfold smooth_channel. intros H.
  apply exc_bind_Ok in H as (filtered & Hf & [= <-]).
  eexists filtered, _. split; [exact Hf|]. split; [apply ma_put_length|]. split.
  - intros i c Hc Hnan. rewrite ma_put_lookup_notin; [done|].
    rewrite elem_of_np_where, list_lookup_fmap, Hc. cbn. by rewrite Hnan.
  - intros i c Hc Hnan.
    apply (ma_put_lookup_nth a _ filtered (valid_before a i) i c);
      [apply where_from_NoDup | by eapply np_where_valid_before | done].
Qed.

End SmoothPositions.



(** C7.  [smooth] takes the positions whose stored value is NaN for the
    missing ones and does not look at the mask.  An element that is masked
    while its stored value is not NaN is therefore not skipped.  [np.ma.log]
    leaves such an element wherever a count is not positive: it masks the
    element and keeps the count, here [-5].  In [smooth] the count is
    handed to the filter together with the values of the other elements,
    and whatever the filter, the window and the order, the position
    receives the first filtered value and comes back unmasked. *)
Theorem smooth_overwrites_masked_value :
  exists (a : marray) (c : cell),
    a = [Cell (-5) true; Cell 1 false; Cell 2 false]
    /\ a !! 0%nat = Some c /\ cmask c = true
    /\ (forall np_log : float -> float, log_cell np_log (Cell (-5) false) = c)
    /\ smooth (fun x _ _ _ => Ok (map (fun v => v + 10)%float x)) (fun x => x)
         [None; None; None; None; None; None; None; None; None; Some a] false 9 3
       = Ok [None; None; None; None; None; None; None; None; None;
             Some [Cell 5 false; Cell 11 false; Cell 12 false]]
    /\ forall (savgol_filter : list float -> Z -> Z -> savgol_mode -> exc (list float))
              (round_astype_int : float -> float) (nb_pts order : Z) (out : data_list),
         smooth savgol_filter round_astype_int
           [None; None; None; None; None; None; None; None; None; Some a]
           false nb_pts order = Ok out ->
         exists (a' : marray) (c' : cell) (filtered : list float) (mode : savgol_mode),
           savgol_filter [-5; 1; 2]%float nb_pts order mode = Ok filtered
           /\ out !! Sub.T = Some (Some a') /\ a' !! 0%nat = Some c'
           /\ c' = Cell (default (-5)%float (filtered !! 0%nat)) false
           /\ cmask c' = false /\ c' <> c.
Proof.
  exists [Cell (-5) true; Cell 1 false; Cell 2 false], (Cell (-5) true).
  split; [done|]. split; [done|]. split; [done|].
  split.
  { intros np_log. unfold log_cell. cbn [cdata cmask].
    change (-5 <=? 0)%float with true. by rewrite orb_true_r. }
  split; [vm_compute; reflexivity|].
  intros savgol_filter round_astype_int nb_pts order out H.
  rewrite smooth_loop in H.
  pose proof (channel_loop_in_range _ _ _ _ _ _ H) as Hrange.
  destruct (channel_loop_spec _ false _ _ _ _ channels4_NoDup Hrange H) as (_ & _ & Hch).
  destruct (Hch Sub.T ltac:(by left)) as (d & Hd & Hm).
  injection Hd as <-. destruct Hm as (a' & Ha' & Hout).
  destruct (smooth_channel_positions _ _ _ _ _ _ Ha')
    as (filtered & mode & Hf & _ & _ & Hval).
  pose proof (Hval 0%nat (Cell (-5) true) eq_refl ltac:(vm_compute; reflexivity)) as Hc'.
  change (valid_before _ 0) with 0%nat in Hc'. rewrite Nat.Div0.mod_0_l in Hc'.
  cbn [cdata] in Hc'.
  eexists a', _, filtered, mode.
  split; [exact Hf|]. split; [done|]. split; [exact Hc'|]. split; [done|].
  split; [done|]. discriminate.
Qed.

(** ** get_Re_guess and get_R0_comparison *)

Section Estimator.

Variables np_log np_exp : float -> float.
Variable np_sum : list float -> float.
Variable savgol_filter : list float -> Z -> Z -> savgol_mode -> exc (list float).
Variable round_astype_int : float -> float.
Variables GR_mapping R0s_mapping : list float.
Variable masked_value : float.

Abbreviation Re_guess :=
  (get_Re_guess np_log np_exp np_sum savgol_filter round_astype_int
     GR_mapping R0s_mapping masked_value).

Lemma get_Re_guess_keys time cases step extremal_points res :
  Re_guess time cases step extremal_points = Ok res ->
  (exists f, res !! "fit" = Some (VFit f))
  /\ (exists d, res !! "diff_data" = Some (VData d))
  /\ (exists d, res !! "diff_data_smoothed" = Some (VData d))
  /\ (exists d, res !! "R0_by_day" = Some (VData d))
  /\ res !! "fits" = None.
Proof.
  unfold get_Re_guess. intros H.
  apply exc_bind_Ok in H as (diff_data & _ & H).
  apply exc_bind_Ok in H as (smoothed & _ & H).
  apply exc_bind_Ok in H as (growth & _ & H).
  apply exc_bind_Ok in H as (R0 & _ & H).
  apply exc_bind_Ok in H as (fits & _ & H).
  apply exc_bind_Ok in H as (f & _ & [= <-]).
  repeat split; try eexists; by simplify_map_eq.
Qed.

Variable raw_cases : Type.
Variable case_counts : gmap string raw_cases.
Variable load_data : string -> raw_cases -> exc (list Z * data_list).

Abbreviation R0_comparison :=
  (get_R0_comparison np_log np_exp np_sum savgol_filter round_astype_int
     GR_mapping R0s_mapping masked_value raw_cases case_counts load_data).

Lemma comparison_step_raises c acc :
  exists e,
    comparison_step np_log np_exp np_sum savgol_filter round_astype_int
      GR_mapping R0s_mapping masked_value raw_cases case_counts load_data c acc
    = Raise e
    /\ forall raw time data res,
         case_counts !! c = Some raw ->
         load_data c raw = Ok (time, data) ->
         Re_guess time data 4 7 = Ok res ->
         e = KeyError "fits".
Proof.
  unfold comparison_step. destruct acc as [[lags rdiffs_o] rdiffs_e].
  assert (Hget : forall raw, case_counts !! c = Some raw ->
                             py_getitem case_counts c = Ok raw).
  { intros raw Hraw. unfold py_getitem. by rewrite Hraw. }
  destruct (py_getitem case_counts c) as [raw|e] eqn:Ec; cbn [mbind exc_bind].
  2:{ eexists. split; [reflexivity|]. intros raw ??? Hraw. discriminate (Hget raw Hraw). }
  destruct (load_data c raw) as [[time data]|e] eqn:El; cbn [mbind exc_bind].
  2:{ eexists. split; [reflexivity|]. intros raw' ??? Hraw.
      injection (Hget raw' Hraw) as <-. rewrite El. discriminate. }
  destruct (Re_guess time data 4 7) as [res|e] eqn:Er; cbn [mbind exc_bind].
  2:{ eexists. split; [reflexivity|]. intros raw' ??? Hraw.
      injection (Hget raw' Hraw) as <-. rewrite El. intros [= <- <-].
      rewrite Er. discriminate. }
  destruct (get_Re_guess_keys _ _ _ _ _ Er) as (_ & _ & _ & _ & Hfits).
  unfold py_getitem. rewrite Hfits. cbn [mbind exc_bind].
  eexists. split; [reflexivity|]. done.
Qed.

Lemma get_R0_comparison_raises c rest :
  exists e,
    R0_comparison (c :: rest) = Raise e
    /\ forall raw time data res,
         case_counts !! c = Some raw ->
         load_data c raw = Ok (time, data) ->
         Re_guess time data 4 7 = Ok res ->
         e = KeyError "fits".
Proof.
  destruct (comparison_step_raises c ([], [], [])) as (e & He & Hkey).
  exists e. split; [|exact Hkey].
  unfold get_R0_comparison. cbn [comparison_loop]. by rewrite He.
Qed.

End Estimator.

(** C8. Whatever [get_Re_guess] returns holds the key "fit" and no key
    "fits"; so [get_R0_comparison] raises on the first country of any
    non-empty list, and raises the [KeyError] of its lookup of "fits"
    whenever that country's data loads and the estimator returns. *)
Theorem get_Re_guess_returns_fit_not_fits
    (np_log np_exp : float -> float) (np_sum : list float -> float)
    (savgol_filter : list float -> Z -> Z -> savgol_mode -> exc (list float))
    (round_astype_int : float -> float)
    (GR_mapping R0s_mapping : list float) (masked_value : float)
    (time : list Z) (cases : data_list) (step extremal_points : Z)
    (res : gmap string pyval) :
  get_Re_guess np_log np_exp np_sum savgol_filter round_astype_int
    GR_mapping R0s_mapping masked_value time cases step extremal_points = Ok res ->
  (exists f, res !! "fit" = Some (VFit f))
  /\ res !! "fits" = None
  /\ forall (raw_cases : Type) (case_counts : gmap string raw_cases)
       (load_data : string -> raw_cases -> exc (list Z * data_list))
       (c : string) (rest : list string),
       exists e,
         get_R0_comparison np_log np_exp np_sum savgol_filter round_astype_int
           GR_mapping R0s_mapping masked_value raw_cases case_counts load_data (c :: rest)
         = Raise e
         /\ forall raw time' data res',
              case_counts !! c = Some raw ->
              load_data c raw = Ok (time', data) ->
              get_Re_guess np_log np_exp np_sum savgol_filter round_astype_int
                GR_mapping R0s_mapping masked_value time' data 4 7 = Ok res' ->
              e = KeyError "fits".
Proof.
  intros H.
  destruct (get_Re_guess_keys _ _ _ _ _ _ _ _ _ _ _ _ _ H) as (Hfit & _ & _ & _ & Hfits).
  split; [exact Hfit|]. split; [exact Hfits|].
  intros raw_cases case_counts load_data c rest. apply get_R0_comparison_raises.
Qed.

Lemma get_Re_guess_returns_fit_not_fits_witness :
  exists res : gmap string pyval,
    get_Re_guess (fun x => x) (fun x => x) (fun l => fold_left PrimFloat.add l 0%float)
      (fun x _ _ _ => Ok x) (fun x => x) [0; 1]%float [1; 2]%float 0%float
      [1; 2; 3; 4] (replicate Sub.NUM None) 4 7 = Ok res
    /\ res !! "fit" = Some (VFit (Some (Fit 0 0 (PyInt 1))))
    /\ res !! "fits" = None.
Proof.
  destruct (get_Re_guess (fun x => x) (fun x => x) (fun l => fold_left PrimFloat.add l 0%float)
      (fun x _ _ _ => Ok x) (fun x => x) [0; 1]%float [1; 2]%float 0%float
      [1; 2; 3; 4] (replicate Sub.NUM None) 4 7) as [res|e] eqn:E;
    [|vm_compute in E; discriminate].
  exists res. split; [reflexivity|].
  split; [|exact (proj1 (proj2 (get_Re_guess_returns_fit_not_fits _ _ _ _ _ _ _ _ _ _ _ _ _ E)))].
  vm_compute in E. injection E as <-. reflexivity.
Defined.

(** ** np.argmin *)

Section Argmin.
Local Open Scope float_scope.

Lemma ltb_leb_trans x y z :
  (x <? y) = true -> (y <=? z) = true -> (x <? z) = true.
Proof.
  intros Hxy Hyz.
  destruct (ltb_not_nan _ _ Hxy) as [Hx _]. destruct (leb_not_nan _ _ Hyz) as [_ Hz].
  apply not_leb_ltb; [done..|].
  destruct (z <=? x) eqn:E; [|done].
  pose proof (leb_trans _ _ _ Hyz E) as Hyx.
  by rewrite (ltb_not_leb _ _ Hxy) in Hyx.
Qed.

Lemma argmin_from_spec (rest pre : list float) (mp : float) (min_ind : nat) :
  Forall (fun x => is_nan x = false) (pre ++ rest) ->
  least_so_far pre min_ind mp ->
  exists m,
    least_so_far (pre ++ rest) (argmin_from mp min_ind (length pre) rest) m.
Proof.
  revert pre mp min_ind.
  induction rest as [|x rest IH]; intros pre mp min_ind Hnn Hinv.
  - cbn. rewrite app_nil_r. by exists mp.
  - destruct Hinv as [Hmp Hle]. cbn [argmin_from].
    assert (Hx : is_nan x = false).
    { rewrite Forall_app, Forall_cons in Hnn. by destruct Hnn as (_ & ? & _). }
    assert (Hmpn : is_nan mp = false).
    { rewrite Forall_app, Forall_lookup in Hnn. destruct Hnn as [Hp _]. by apply (Hp min_ind). }
    replace (pre ++ x :: rest) with ((pre ++ [x]) ++ rest) in * by (by rewrite <- app_assoc).
    replace (S (length pre)) with (length (pre ++ [x])) by (rewrite length_app; cbn; lia).
    destruct (mp <=? x) eqn:E; cbn [negb].
    + apply IH; [done|]. split.
      * rewrite lookup_app_l; [done|]. by eapply lookup_lt_Some.
      * intros j y Hy. apply lookup_app_Some in Hy as [Hy | [Hj Hy]]; [by apply Hle|].
        apply list_lookup_singleton_Some in Hy as [_ <-].
        split; [done|]. intros Hlt. apply lookup_lt_Some in Hmp. exfalso. lia.
    + rewrite Hx. apply IH; [done|].
      pose proof (not_leb_ltb _ _ Hmpn Hx E) as Hlt.
      split.
      * rewrite lookup_app_r by done. by rewrite Nat.sub_diag.
      * intros j y Hy. apply lookup_app_Some in Hy as [Hy | [Hj Hy]].
        -- destruct (Hle j y Hy) as [Hmy _].
           pose proof (ltb_leb_trans _ _ _ Hlt Hmy) as Hxy.
           split; [by apply ltb_leb | done].
        -- apply list_lookup_singleton_Some in Hy as [Hj' <-].
           split; [by apply leb_refl | intros; exfalso; lia].
Qed.

Lemma np_argmin_spec (l : list float) (i : nat) :
  Forall (fun x => is_nan x = false) l ->
  np_argmin l = Ok i ->
  exists m, least_so_far l i m.
Proof.
  destruct l as [|x rest]; [done|]. intros Hnn [= <-].
  assert (Hx : is_nan x = false) by (by apply Forall_cons in Hnn as [? _]).
  rewrite Hx.
  apply (argmin_from_spec rest [x] x 0 Hnn). split; [done|].
  intros j y Hy. apply list_lookup_singleton_Some in Hy as [-> <-].
  split; [by apply leb_refl | intros; exfalso; lia].
Qed.

Lemma argmin_from_lt (rest : list float) (mp : float) (min_ind i : nat) :
  (min_ind < i)%nat -> (argmin_from mp min_ind i rest < i + length rest)%nat.
Proof.
  revert mp min_ind i. induction rest as [|x rest IH]; intros mp min_ind i Hlt; cbn; [lia|].
  destruct (negb _); [destruct (is_nan x); [lia|]|].
  - pose proof (IH x i (S i)). lia.
  - pose proof (IH mp min_ind (S i)). lia.
Qed.

Lemma np_argmin_lt (l : list float) (i : nat) :
  np_argmin l = Ok i -> (i < length l)%nat.
Proof.
  destruct l as [|x rest]; [done|]. intros [= <-]. cbn.
  destruct (is_nan x); [lia|]. pose proof (argmin_from_lt rest x 0 1). lia.
Qed.

End Argmin.

(** ** np.argmin in the presence of NaN *)

Section ArgminNaN.
Local Open Scope float_scope.

Lemma argmin_from_nan (pre rest : list float) (x mp : float) (min_ind i : nat) :
  is_nan mp = false -> Forall (fun y => is_nan y = false) pre -> is_nan x = true ->
  argmin_from mp min_ind i (pre ++ x :: rest) = (i + length pre)%nat.
Proof.
  revert mp min_ind i. induction pre as [|y pre IH]; intros mp min_ind i Hmp Hpre Hx.
  - cbn [app argmin_from length].
    assert (E : (mp <=? x) = false).
    { destruct (mp <=? x) eqn:E; [|done]. apply leb_not_nan in E as [_ E]. congruence. }
    rewrite E, Hx. cbn. lia.
  - apply Forall_cons in Hpre as [Hy Hpre]. cbn [app argmin_from length].
    destruct (negb (mp <=? y)).
    + rewrite Hy, IH by done. lia.
    + rewrite IH by done. lia.
Qed.

Lemma first_nan_split (l : list float) :
  ~ Forall (fun y => is_nan y = false) l ->
  exists pre x rest,
    l = pre ++ x :: rest /\ Forall (fun y => is_nan y = false) pre /\ is_nan x = true.
Proof.
  induction l as [|y l IH]; intros Hn; [by destruct Hn|].
  destruct (is_nan y) eqn:Ey.
  - by exists [], y, l.
  - destruct IH as (pre & x & rest & -> & Hpre & Hx).
    { intros Hl. apply Hn. by constructor. }
    exists (y :: pre), x, rest. split; [done|]. split; [by constructor | done].
Qed.

(** The position that [np.argmin] returns holds the first NaN of the list
    or, when the list has none, its first least element. *)
Lemma np_argmin_reading (l : list float) (i : nat) :
  np_argmin l = Ok i ->
  exists m,
    l !! i = Some m
    /\ if is_nan m
       then forall j y, l !! j = Some y -> (j < i)%nat -> is_nan y = false
       else forall j y, l !! j = Some y ->
              is_nan y = false /\ (m <=? y) = true /\ ((j < i)%nat -> (m <? y) = true).
Proof.
  intros Hi.
  destruct (decide (Forall (fun y => is_nan y = false) l)) as [Hall | Hn].
  - destruct (np_argmin_spec l i Hall Hi) as (m & Hm & Hle).
    exists m. split; [done|].
    rewrite Forall_lookup in Hall. rewrite (Hall i m Hm).
    intros j y Hy. split; [by apply (Hall j)|]. by apply Hle.
  - destruct (first_nan_split l Hn) as (pre & x & rest & -> & Hpre & Hx).
    assert (i = length pre) as ->.
    { destruct pre as [|p pre]; cbn in Hi.
      - rewrite Hx in Hi. by injection Hi as <-.
      - apply Forall_cons in Hpre as [Hp Hpre]. rewrite Hp in Hi.
        rewrite argmin_from_nan in Hi by done. injection Hi as <-. cbn. lia. }
    exists x. split; [by rewrite list_lookup_middle|].
    rewrite Hx. intros j y Hy Hj. rewrite lookup_app_l in Hy by done.
    rewrite Forall_lookup in Hpre. by apply (Hpre j).
Qed.

End ArgminNaN.

(** ** stair_fits *)

Section StairFits.

Variable np_sum : list float -> float.
Variable masked_value : float.

Lemma stair_fits_loop time data nb_value :
  stair_fits np_sum masked_value time data nb_value
  = channel_loop
      (fun a => r ← stair_fit np_sum masked_value time a nb_value;
                Ok (Fit r.1.1 r.1.2 (PyInt r.2)))
      true data [Sub.T; Sub.D; Sub.H; Sub.C] (replicate Sub.NUM None).
Proof.
  unfold stair_fits, channel_loop. apply for_each_ext. intros ii acc.
  destruct (py_index data ii) as [[a|]|]; cbn [mbind exc_bind]; try done.
  unfold stair_fit.
  destruct (edge_mean _ _ (fun A => py_slice_to nb_value) a) as [vo|];
    cbn [mbind exc_bind]; [|done].
  destruct (edge_mean _ _ _ a) as [ve|]; cbn [mbind exc_bind]; [|done].
  destruct (list_comp _ time) as [errs|]; cbn [mbind exc_bind]; [|done].
  destruct (np_argmin errs) as [i|]; cbn [mbind exc_bind]; [|done].
  by destruct (py_index time i).
Qed.

Lemma compressed_unmasked (a : marray) :
  Forall (fun c => cmask c = false) (compressed a).
Proof.
  unfold compressed. induction a as [|c a IH]; cbn; [done|].
  destruct (cmask c) eqn:E; cbn; [done|]. by constructor.
Qed.

Lemma compressed_elem (a : marray) (c : cell) :
  c ∈ compressed a -> c ∈ a /\ cmask c = false.
Proof.
  unfold compressed. induction a as [|c' a IH]; cbn; [by intros ?%elem_of_nil|].
  destruct (cmask c') eqn:E; cbn.
  - intros [? ?]%IH. split; [by right | done].
  - intros [-> | [? ?]%IH]%elem_of_cons; (split; [by constructor | done]).
Qed.

(** The mean of a non-empty array with nothing masked. *)
Lemma ma_mean_unmasked (l : marray) :
  l <> [] -> Forall (fun c => cmask c = false) l ->
  ma_mean np_sum masked_value l = mean_of np_sum (ma_data l).
Proof.
  intros Hne Hun. unfold ma_mean, ma_sum, mean_of, ma_data.
  assert (Hf : List.filter (fun c => negb (cmask c)) l = l).
  { clear Hne. induction Hun as [|c l Hc _ IH]; cbn; [done|]. by rewrite Hc, IH. }
  rewrite Hf, length_map.
  destruct l as [|c l]; [done|]. cbn [length Nat.eqb forallb].
  apply Forall_cons in Hun as [Hc Hun]. rewrite Hc. cbn [andb].
  do 3 f_equal. cbn [map]. rewrite Hc. f_equal.
  clear Hf. induction Hun as [|c' l' Hc' _ IH]; cbn; [done|]. by rewrite Hc', IH.
Qed.

End StairFits.

Section ErrFunction.

Variable np_sum : list float -> float.
Variable masked_value : float.

(** The masked array that [err_function] sums, position by position: an
    element is masked exactly where the position is not counted. *)
Lemma err_terms_eq (val_o val_e : float) (x : Z) (time : list Z) (a : marray) :
  length time = length a ->
  let terms :=
    ma_power_one (ma_abs (zip_with subtract_cell a (ndarray (stair_func time val_o val_e x)))) in
  map cmask terms = map (fun tc => negb (counted val_o val_e x tc.1 tc.2)) (zip time a)
  /\ map (fun c => if cmask c then 0%float else cdata c) terms
     = zip_with (fun t c => if counted val_o val_e x t c
                            then deviation val_o val_e x t c else 0%float) time a.
Proof.
  cbn zeta. revert a. induction time as [|t time IH]; intros [|c a] Hlen;
    try discriminate; [done|].
  cbn in Hlen. injection Hlen as Hlen.
  destruct (IH a Hlen) as [IHm IHd].
  cbn [stair_func ndarray map zip zip_with ma_abs ma_power_one fst snd].
  unfold ma_power_one, ma_abs, ndarray, stair_func in IHm, IHd.
  split; (f_equal; [|done]).
  - unfold subtract_cell, counted, deviation. cbn [cdata cmask]. rewrite orb_false_r.
    by destruct (cmask c); cbn [cdata cmask orb andb negb].
  - unfold subtract_cell, counted, deviation. cbn [cdata cmask]. rewrite orb_false_r.
    destruct (cmask c); cbn [cdata cmask orb andb negb]; [done|].
    by destruct (is_finite _).
Qed.

Lemma unmasked_data (l : marray) :
  existsb cmask l = false ->
  ma_data l = map (fun c => if cmask c then 0%float else cdata c) l.
Proof.
  induction l as [|c l IH]; cbn; [done|].
  intros [Hc Hl]%orb_false_iff. by rewrite Hc, <- IH.
Qed.

Lemma all_masked_counted {A : Type} (f : A -> bool) (l : list A) (cells : marray) :
  map cmask cells = map (fun y => negb (f y)) l ->
  forallb cmask cells = negb (existsb f l)
  /\ existsb cmask cells = negb (forallb f l).
Proof.
  revert l. induction cells as [|c cells IH]; intros [|y l] H; try discriminate; [done|].
  cbn in H. injection H as Hc H. destruct (IH l H) as [IH1 IH2].
  cbn. rewrite Hc, IH1, IH2. by destruct (f y), (existsb f l), (forallb f l).
Qed.

Lemma forallb_existsb_nonempty {A : Type} (f : A -> bool) (l : list A) :
  l <> [] -> forallb f l = true -> existsb f l = true.
Proof. destruct l as [|y l]; [done|]. cbn. by intros _ [-> _]%andb_true_iff. Qed.

Lemma err_function_eq (val_o val_e : float) (x : Z) (time : list Z) (a : marray) :
  length time = length a -> a <> [] ->
  err_function np_sum masked_value x time (Masked a) val_o val_e
  = Ok (abs_error np_sum masked_value val_o val_e time a x).
Proof.
  intros Hlen Hne.
  unfold err_function, ma_subtract, broadcast2.
  replace (length (ndarray (stair_func time val_o val_e x))) with (length a)
    by (unfold ndarray, stair_func; by rewrite !length_map).
  rewrite Nat.eqb_refl. cbn [mbind exc_bind]. f_equal.
  destruct (err_terms_eq val_o val_e x time a Hlen) as [Hm Hd].
  destruct (all_masked_counted _ _ _ Hm) as [Hall Hex].
  assert (Hz : zip time a <> []) by (by destruct time, a).
  unfold ma_sum_power_one, ma_sum, abs_error.
  destruct (existsb cmask _) eqn:E.
  - rewrite Hall, Hd. by destruct (existsb _ (zip time a)).
  - rewrite (unmasked_data _ E), Hd.
    symmetry in Hex. apply negb_false_iff in Hex.
    by rewrite (forallb_existsb_nonempty _ _ Hz Hex).
Qed.

Lemma list_comp_Ok {A B : Type} (f : A -> exc B) (g : A -> B) (l : list A) :
  (forall x, x ∈ l -> f x = Ok (g x)) -> list_comp f l = Ok (map g l).
Proof.
  induction l as [|x l IH]; intros H; [done|].
  cbn [list_comp]. rewrite (H x) by (by left). cbn [mbind exc_bind].
  rewrite IH by (intros; apply H; by right). done.
Qed.

End ErrFunction.

Section StairFit.

Variable np_sum : list float -> float.
Variable masked_value : float.

Lemma edge_levels (a : marray) (nb_value : Z) :
  0 < nb_value -> compressed a <> [] ->
  ma_mean np_sum masked_value (py_slice_to nb_value (compressed a))
  = mean_of np_sum (firstn (Z.to_nat nb_value) (ma_data (compressed a)))
  /\ ma_mean np_sum masked_value (py_slice_from (- nb_value) (compressed a))
     = mean_of np_sum (last_n (Z.to_nat nb_value) (ma_data (compressed a))).
Proof.
  intros Hnb Hne. pose proof (compressed_unmasked a) as Hun.
  unfold py_slice_to, py_slice_from, last_n, ma_data.
  replace (nb_value <? 0) with false by lia. replace (- nb_value <? 0) with true by lia.
  replace (Z.to_nat (Z.max 0 (Z.of_nat (length (compressed a)) + - nb_value)))
    with (length (compressed a) - Z.to_nat nb_value)%nat by lia.
  rewrite length_map, firstn_map, skipn_map.
  split; (apply ma_mean_unmasked; [|by (apply Forall_take || apply Forall_drop)]).
  - destruct (compressed a); [done|].
    destruct (Z.to_nat nb_value) eqn:E; [lia|done].
  - intros Hnil. apply (f_equal length) in Hnil. rewrite length_drop in Hnil. cbn in Hnil.
    destruct (compressed a); [done|]. cbn in Hnil. lia.
Qed.

(** The fit of one present channel whose series carries a mask array. *)
Lemma stair_fit_spec (time : list Z) (a : marray) (nb_value : Z) (r : float * float * Z) :
  let values := ma_data (compressed a) in
  let early_level := mean_of np_sum (firstn (Z.to_nat nb_value) values) in
  let late_level := mean_of np_sum (last_n (Z.to_nat nb_value) values) in
  0 < nb_value -> values <> [] -> length time = length a ->
  stair_fit np_sum masked_value time (Masked a) nb_value = Ok r ->
  exists i breakpoint,
    r = (early_level, late_level, breakpoint)
    /\ time !! i = Some breakpoint
    /\ np_argmin (map (abs_error np_sum masked_value early_level late_level time a) time)
       = Ok i.
Proof.
  cbn zeta. intros Hnb Hne Hlen. unfold stair_fit, edge_mean. cbn [mbind exc_bind].
  assert (Hne' : compressed a <> []) by (intros E; by rewrite E in Hne).
  destruct (edge_levels a nb_value Hnb Hne') as [-> ->].
  set (vo := mean_of np_sum (firstn _ _)) in *.
  set (ve := mean_of np_sum (last_n _ _)) in *.
  intros H.
  apply exc_bind_Ok in H as (errs & Herrs & H).
  apply exc_bind_Ok in H as (i & Hi & H).
  apply exc_bind_Ok in H as (bp & Hbp & [= <-]). apply py_index_Ok in Hbp.
  exists i, bp. split; [done|]. split; [done|].
  rewrite (list_comp_Ok _ (abs_error np_sum masked_value vo ve time a)) in Herrs.
  2:{ intros x Hx. apply err_function_eq; [done|]. intros ->. by apply Hne'. }
  by injection Herrs as <-.
Qed.

(** Without a mask array, both levels are the mean of the whole series as
    soon as [nb_value] is positive. *)
Lemma edge_mean_nomask (l : list float) (nb_value : Z) :
  0 < nb_value ->
  edge_mean np_sum masked_value (fun A => py_slice_to nb_value) (Nomask l)
  = Ok (np_sum l / Z2float (Z.of_nat (length l)))%float
  /\ edge_mean np_sum masked_value (fun A => py_slice_from (- nb_value)) (Nomask l)
     = Ok (np_sum l / Z2float (Z.of_nat (length l)))%float.
Proof.
  intros Hnb. unfold edge_mean, py_slice_to, py_slice_from.
  replace (nb_value <? 0) with false by lia. replace (- nb_value <? 0) with true by lia.
  cbn [length].
  replace (Z.to_nat (Z.max 0 (Z.of_nat 1 + - nb_value))) with 0%nat by lia.
  destruct (Z.to_nat nb_value) as [|k] eqn:E; [lia|].
  cbn [firstn skipn]. rewrite firstn_nil. cbn [concat]. by rewrite app_nil_r.
Qed.

Lemma stair_fit_nomask (time : list Z) (l : list float) (nb_value : Z)
    (r : float * float * Z) :
  let level := (np_sum l / Z2float (Z.of_nat (length l)))%float in
  0 < nb_value ->
  stair_fit np_sum masked_value time (Nomask l) nb_value = Ok r ->
  exists breakpoint, r = (level, level, breakpoint) /\ breakpoint ∈ time.
Proof.
  cbn zeta. intros Hnb. unfold stair_fit.
  destruct (edge_mean_nomask l nb_value Hnb) as [-> ->]. cbn [mbind exc_bind].
  intros H.
  apply exc_bind_Ok in H as (errs & Herrs & H).
  apply exc_bind_Ok in H as (i & Hi & H).
  apply exc_bind_Ok in H as (bp & Hbp & [= <-]). apply py_index_Ok in Hbp.
  exists bp. split; [done|]. by eapply list_elem_of_lookup_2.
Qed.

End StairFit.

Lemma channels_lt_replicate (ii : nat) :
  ii ∈ [Sub.T; Sub.D; Sub.H; Sub.C] ->
  (ii < length (replicate Sub.NUM (@None fit)))%nat.
Proof. rewrite length_replicate. intros Hin. by apply channels_lt_NUM in Hin. Qed.

(** C2 (as amended).  [stair_fits] gives an absent channel an absent fit,
    and raises on a plain array, which has no mask.  For a present channel
    whose series carries a mask array, has at least one valid element and
    is aligned with the time array, and for [nb_value >= 1], the fit is
    (early level, late level, breakpoint) where the early (late) level is
    the mean of the first (last) [nb_value] valid values and the breakpoint
    is an element of the time array, chosen by the summed error of each
    candidate: the sum of the absolute deviations from the candidate's step
    function over the valid positions at which the deviation is finite (the
    masked constant when there is no such position).  If no candidate's
    error is NaN, the breakpoint's error is at most that of every candidate
    and strictly below that of every candidate that comes earlier in the
    time array; otherwise the breakpoint is the first candidate whose error
    is NaN.  For a masked series without a mask array, both levels are the
    mean of the whole series. *)
Theorem stair_fits_minimises_absolute_error
    (np_sum : list float -> float) (masked_value : float)
    (time : list Z) (data : list (option series)) (out : list (option fit))
    (nb_value : Z) (ii : nat) :
  ii ∈ [Sub.T; Sub.D; Sub.H; Sub.C] ->
  stair_fits np_sum masked_value time data nb_value = Ok out ->
  match data !! ii with
  | Some (Some (Masked a)) =>
      let values := ma_data (compressed a) in
      let early_level := mean_of np_sum (firstn (Z.to_nat nb_value) values) in
      let late_level := mean_of np_sum (last_n (Z.to_nat nb_value) values) in
      let error := abs_error np_sum masked_value early_level late_level time a in
      0 < nb_value -> values <> [] -> length time = length a ->
      exists i breakpoint,
        out !! ii = Some (Some (Fit early_level late_level (PyInt breakpoint)))
        /\ time !! i = Some breakpoint
        /\ breakpoint ∈ time
        /\ if is_nan (error breakpoint)
           then forall j x, time !! j = Some x -> (j < i)%nat -> is_nan (error x) = false
           else forall j x, time !! j = Some x ->
                  is_nan (error x) = false
                  /\ (error breakpoint <=? error x)%float = true
                  /\ ((j < i)%nat -> (error breakpoint <? error x)%float = true)
  | Some (Some (Nomask l)) =>
      let level := (np_sum l / Z2float (Z.of_nat (length l)))%float in
      0 < nb_value ->
      exists breakpoint,
        out !! ii = Some (Some (Fit level level (PyInt breakpoint)))
        /\ breakpoint ∈ time
  | Some (Some (Ndarray _)) => False
  | Some None => out !! ii = Some None
  | None => False
  end.
Proof.
  intros Hin H. rewrite stair_fits_loop in H.
  destruct (channel_loop_spec _ true _ _ _ _ channels4_NoDup channels_lt_replicate H)
    as (_ & _ & Hch).
  destruct (Hch ii Hin) as (d & Hd & Hm). rewrite Hd.
  destruct d as [[l|l|a]|]; [| | |exact Hm]; destruct Hm as (b & Hb & Hout);
    apply exc_bind_Ok in Hb as (r & Hr & [= <-]).
  - discriminate Hr.
  - cbn zeta. intros Hnb.
    destruct (stair_fit_nomask np_sum masked_value time l nb_value r Hnb Hr)
      as (bp & -> & Hbp).
    by exists bp.
  - cbn zeta. intros Hnb Hne Hlen.
    destruct (stair_fit_spec np_sum masked_value time a nb_value r Hnb Hne Hlen Hr)
      as (i & bp & -> & Hbp & Hi).
    exists i, bp. split; [exact Hout|]. split; [exact Hbp|].
    split; [by eapply list_elem_of_lookup_2|].
    destruct (np_argmin_reading _ _ Hi) as (m & Hm & Hread).
    rewrite list_lookup_fmap, Hbp in Hm. injection Hm as <-.
    destruct (is_nan _).
    + intros j x Hx. apply (Hread j). by rewrite list_lookup_fmap, Hx.
    + intros j x Hx. apply (Hread j). by rewrite list_lookup_fmap, Hx.
Qed.

Lemma stair_fits_minimises_absolute_error_witness :
  exists (i : nat) (breakpoint : Z),
    stair_fits (fun l => fold_left PrimFloat.add l 0%float) nan [1; 2; 3; 4]
      [None; None; None; None; None; None; None; None; None;
       Some (Masked [Cell 2 false; Cell 2 false; Cell nan true; Cell 5 false])] 1
    = Ok [None; None; None; None; None; None; None; None; None;
          Some (Fit 2 5 (PyInt breakpoint))]
    /\ [1; 2; 3; 4] !! i = Some breakpoint
    /\ forall j x, [1; 2; 3; 4] !! j = Some x -> (j < i)%nat ->
         (abs_error (fun l => fold_left PrimFloat.add l 0%float) nan 2 5 [1; 2; 3; 4]%Z
            [Cell 2 false; Cell 2 false; Cell nan true; Cell 5 false] breakpoint
          <? abs_error (fun l => fold_left PrimFloat.add l 0%float) nan 2 5 [1; 2; 3; 4]%Z
               [Cell 2 false; Cell 2 false; Cell nan true; Cell 5 false] x)%float = true.
Proof.
  pose proof (stair_fits_minimises_absolute_error
                (fun l => fold_left PrimFloat.add l 0%float) nan [1; 2; 3; 4]
                [None; None; None; None; None; None; None; None; None;
                 Some (Masked [Cell 2 false; Cell 2 false; Cell nan true; Cell 5 false])]
                [None; None; None; None; None; None; None; None; None;
                 Some (Fit 2 5 (PyInt 2))]
                1 Sub.T ltac:(by left) ltac:(vm_compute; reflexivity)) as H.
  cbn [lookup list_lookup Sub.T] in H. cbn zeta in H.
  destruct (H ltac:(lia) ltac:(discriminate) ltac:(reflexivity))
    as (i & bp & Hout & Hbp & _ & Hmin).
  assert (Hb : bp = 2) by congruence. subst bp.
  exists i, 2. split; [vm_compute; reflexivity|].
  split; [exact Hbp|]. intros j x Hx Hj.
  destruct (is_nan _) eqn:E in Hmin; [vm_compute in E; discriminate|].
  exact (proj2 (proj2 (Hmin j x Hx)) Hj).
Defined.

(** Two series on which the fit is not the one of the sum over all valid
    positions.  In the first, the valid value at time 3 is infinite: its
    deviation is infinite for every candidate, so every sum over the valid
    positions is infinite and the first of these equal sums belongs to the
    candidate 1; the masked power leaves the infinite deviation out and
    the breakpoint is 2.  The second is a masked array without a mask
    array: both levels are the mean 3.5 of the whole series, not the means
    2 and 5 of its first and of its last value. *)
Lemma stair_fits_needs_mask_array_and_finite_deviations :
  stair_fits (fun l => fold_left PrimFloat.add l 0%float) nan [1; 2; 3; 4]
    [None; None; None; None; None; None; None; None; None;
     Some (Masked [Cell 2 false; Cell 2 false; Cell infinity false; Cell 5 false])] 1
  = Ok [None; None; None; None; None; None; None; None; None;
        Some (Fit 2 5 (PyInt 2))]
  /\ map (fun x =>
            fold_left PrimFloat.add
              (zip_with (fun t c => if cmask c then 0%float else deviation 2 5 x t c)
                        [1; 2; 3; 4]
                        [Cell 2 false; Cell 2 false; Cell infinity false; Cell 5 false])
              0%float)
         [1; 2; 3; 4]
     = [infinity; infinity; infinity; infinity]
  /\ stair_fits (fun l => fold_left PrimFloat.add l 0%float) nan [1; 2; 3; 4]
       [None; None; None; None; None; None; None; None; None;
        Some (Nomask [2; 2; 5; 5]%float)] 1
     = Ok [None; None; None; None; None; None; None; None; None;
           Some (Fit 3.5 3.5 (PyInt 1))]
  /\ mean_of (fun l => fold_left PrimFloat.add l 0%float) (firstn 1 [2; 2; 5; 5]%float)
     = 2%float
  /\ mean_of (fun l => fold_left PrimFloat.add l 0%float) (last_n 1 [2; 2; 5; 5]%float)
     = 5%float.
Proof. repeat split; vm_compute; reflexivity. Qed.

(** ** Fitter.fit *)

Section FitterFit.

Variable np_log : float -> float.
Variable np_mean : list float -> float.
Variable linregress : list float -> list float -> Fitter.regression.
Variable strptime_toordinal : string -> exc Z.
Variable int_of_float : float -> exc Z.
Variable fromordinal : Z -> exc (Z * Z * Z).

Abbreviation fit_cumulative := (Fitter.fit_cumulative np_log np_mean linregress).
Abbreviation fit :=
  (Fitter.fit np_log np_mean linregress strptime_toordinal int_of_float fromordinal).

Lemma good_points_count (y : list float) :
  length (List.filter (fun b : bool => b)
            (map (fun v => (3 <? v)%float && (v <? 500)%float) y))
  = good_points y.
Proof.
  unfold good_points. induction y as [|v y IH]; [done|]. cbn.
  destruct (_ && _); cbn; by rewrite IH.
Qed.

(** With fewer than five usable points the regression returns [None]; it
    is a total function and raises nothing. *)
Lemma fit_cumulative_insufficient (t y : list float) :
  (good_points y < 5)%nat -> fit_cumulative t y = None.
Proof.
  intros H. unfold Fitter.fit_cumulative. rewrite good_points_count.
  replace (10 <? Z.of_nat (good_points y)) with false by lia.
  by replace (4 <? Z.of_nat (good_points y)) with false by lia.
Qed.

(** X18. On a series with at least one entry whose dates parse, too few
    usable points in both channels (fewer than five counts strictly between
    3 and 500) give an absent result, and no exception. *)
Lemma fit_absent_when_insufficient (pop : list Fitter.datapoint)
    (data : list (float * float * float)) :
  data <> [] ->
  list_comp (Fitter.row strptime_toordinal) pop = Ok data ->
  (good_points (map (fun r => r.2) data) < 5)%nat ->
  (good_points (map (fun r => r.1.2) data) < 5)%nat ->
  fit pop = Ok None.
Proof.
  intros Hne Hrows Hd Hc. unfold Fitter.fit. rewrite Hrows. cbn [mbind exc_bind].
  destruct data as [|r data]; [done|]. cbn [Fitter.column mbind exc_bind].
  by rewrite !fit_cumulative_insufficient.
Qed.

(** X19. Deaths are fitted first: a death-based regression with a positive
    slope decides the result ([tMin] from its intercept and slope, shifted
    back by the delay of 18 days), and the case counts are not looked at. *)
Lemma fit_prefers_deaths (pop : list Fitter.datapoint)
    (data : list (float * float * float)) (p : Fitter.regression) :
  data <> [] ->
  list_comp (Fitter.row strptime_toordinal) pop = Ok data ->
  fit_cumulative (map (fun r => r.1.1) data) (map (fun r => r.2) data) = Some p ->
  (0 <? Fitter.slope p)%float = true ->
  fit pop
  = (s ← Fitter.from_ms int_of_float fromordinal
           ((np_log (Z2float Fitter.cases_on_tMin * Fitter.fatality_rate)
             - Fitter.intercept p) / Fitter.slope p - Z2float Fitter.delay)%float;
     Ok (Some {| Fitter.tMin := s; Fitter.initialCases := Fitter.cases_on_tMin;
                 Fitter.r0 := Fitter.slope_to_r0 (Fitter.slope p) |})).
Proof.
  intros Hne Hrows Hp Hs. unfold Fitter.fit. rewrite Hrows. cbn [mbind exc_bind].
  destruct data as [|r data]; [done|]. cbn [Fitter.column mbind exc_bind].
  by rewrite Hp, Hs.
Qed.

End FitterFit.

(** C9. On the empty population series, which has fewer than five usable
    points in either channel, [Fitter.fit] does not return an absent
    result: the array built from no rows has one dimension and taking its
    first column raises [IndexError], before any regression is tried. *)
Theorem Fitter_fit_empty_series_raises
    (np_log : float -> float) (np_mean : list float -> float)
    (linregress : list float -> list float -> Fitter.regression)
    (strptime_toordinal : string -> exc Z) (int_of_float : float -> exc Z)
    (fromordinal : Z -> exc (Z * Z * Z)) :
  (good_points [] < 5)%nat
  /\ Fitter.fit_cumulative np_log np_mean linregress [] [] = None
  /\ Fitter.fit np_log np_mean linregress strptime_toordinal int_of_float fromordinal []
     = Raise IndexError.
Proof. split; [cbn; lia|]. split; reflexivity. Qed.

(** ** get_daily_counts on a non-empty series *)

Lemma np_diff_lookup (x : list float) (t : nat) (lo hi : float) :
  x !! t = Some lo -> x !! S t = Some hi -> np_diff x !! t = Some (hi - lo)%float.
Proof.
  intros Hlo Hhi. unfold np_diff, py_slice_from, py_slice_to. cbn [Z.ltb Z.compare].
  rewrite lookup_zip_with. change (Z.to_nat 1) with 1%nat.
  rewrite lookup_drop. cbn [Nat.add]. rewrite Hhi. cbn [mbind option_bind].
  rewrite lookup_take. pose proof (lookup_lt_Some _ _ _ Hhi).
  destruct (decide _) as [_|Hn]; [by rewrite Hlo | lia].
Qed.

Lemma np_diff_length (x : list float) : length (np_diff x) = (length x - 1)%nat.
Proof.
  unfold np_diff, py_slice_from, py_slice_to. cbn [Z.ltb Z.compare].
  rewrite length_zip_with, length_drop, length_take. lia.
Qed.

(** On a series with at least one element the result has the length of
    the input, its first element is invalid, and the element at [t > 0]
    is invalid when the difference is zero (or NaN) and holds the
    difference otherwise; on a series that grows by a constant [k > 0] it
    holds [k] at every position after the first. *)
Lemma daily_counts_channel_spec (a : marray) :
  a <> [] ->
  length (daily_counts_channel a) = length a
  /\ daily_counts_channel a !! 0%nat = Some (Cell nan true)
  /\ (forall t lo hi,
        a !! t = Some lo -> a !! S t = Some hi ->
        daily_counts_channel a !! S t
        = Some (if (cdata hi - cdata lo =? 0)%float then Cell nan true
                else Cell (cdata hi - cdata lo) (is_nan (cdata hi - cdata lo))))
  /\ (forall k,
        (0 <? k)%float = true ->
        (forall t lo hi, a !! t = Some lo -> a !! S t = Some hi ->
                         (cdata hi - cdata lo)%float = k) ->
        forall t, (0 < t < length a)%nat ->
                  daily_counts_channel a !! t = Some (Cell k false)).
Proof.
  intros Hne.
  assert (Hstep : forall t lo hi,
            a !! t = Some lo -> a !! S t = Some hi ->
            daily_counts_channel a !! S t
            = Some (if (cdata hi - cdata lo =? 0)%float then Cell nan true
                    else Cell (cdata hi - cdata lo) (is_nan (cdata hi - cdata lo)))).
  { intros t lo hi Hlo Hhi. unfold daily_counts_channel, ma_mask_isnan, ndarray.
    rewrite !list_lookup_fmap.
    change ((nan :: np_diff (ma_data a)) !! S t) with (np_diff (ma_data a) !! t).
    rewrite (np_diff_lookup (ma_data a) t (cdata lo) (cdata hi));
      [|by unfold ma_data; rewrite list_lookup_fmap, ?Hlo, ?Hhi..].
    cbn. by destruct (_ =? _)%float. }
  split; [|split; [done|split; [exact Hstep|]]].
  - unfold daily_counts_channel, ma_mask_isnan, ndarray, ma_data.
    rewrite !length_map. cbn [length]. rewrite np_diff_length, length_map.
    destruct a; [done|]. cbn. lia.
  - intros k Hk Hconst t Ht. destruct t as [|t]; [lia|].
    destruct (lookup_lt_is_Some_2 a t) as [lo Hlo]; [lia|].
    destruct (lookup_lt_is_Some_2 a (S t)) as [hi Hhi]; [lia|].
    rewrite (Hstep t lo hi Hlo Hhi), (Hconst t lo hi Hlo Hhi).
    destruct (ltb_not_eqb _ _ Hk) as [_ ->]. destruct (ltb_not_nan _ _ Hk) as [_ ->].
    done.
Qed.

(** ** Structures with fewer than ten channels *)

Lemma py_index_short {A : Type} (l : list A) (i : nat) :
  (length l <= i)%nat -> py_index l i = Raise IndexError.
Proof. intros H. unfold py_index. by rewrite lookup_ge_None_2. Qed.

(** X1. Every transform reads [data[Sub.T]], the entry of index 9, before
    anything else: on a structure with fewer than ten entries each of them,
    and [get_Re_guess] with them, raises [IndexError]. *)
Theorem transforms_raise_on_short_structure
    (np_log np_exp : float -> float) (np_sum : list float -> float)
    (savgol_filter : list float -> Z -> Z -> savgol_mode -> exc (list float))
    (round_astype_int : float -> float)
    (GR_mapping R0s_mapping : list float) (masked_value : float)
    (data : data_list) (as_int : bool) (nb_pts order step serial_interval nb_value : Z)
    (time : list Z) :
  (length data < Sub.NUM)%nat ->
  smooth savgol_filter round_astype_int data as_int nb_pts order = Raise IndexError
  /\ get_log np_log data = Raise IndexError
  /\ log_smooth np_log np_exp savgol_filter round_astype_int data nb_pts = Raise IndexError
  /\ growth_rate_to_R0 GR_mapping R0s_mapping data serial_interval = Raise IndexError
  /\ get_daily_counts data = Raise IndexError
  /\ get_growth_rate np_log data step = Raise IndexError
  /\ (forall series_data : list (option series),
        (length series_data < Sub.NUM)%nat ->
        stair_fits np_sum masked_value time series_data nb_value = Raise IndexError)
  /\ get_Re_guess np_log np_exp np_sum savgol_filter round_astype_int
       GR_mapping R0s_mapping masked_value time data step nb_value = Raise IndexError.
Proof.
  intros Hlen.
  assert (HT : py_index data Sub.T = Raise IndexError).
  { apply py_index_short. unfold Sub.T, Sub.NUM in *. lia. }
  assert (Hlog : get_log np_log data = Raise IndexError).
  { unfold get_log. cbn [for_each]. by rewrite HT. }
  assert (Hdc : get_daily_counts data = Raise IndexError).
  { unfold get_daily_counts. cbn [for_each]. by rewrite HT. }
  repeat split; try done.
  - unfold smooth. cbn [for_each]. by rewrite HT.
  - unfold log_smooth. by rewrite Hlog.
  - unfold growth_rate_to_R0. cbn [for_each]. by rewrite HT.
  - unfold get_growth_rate. cbn [for_each]. by rewrite HT.
  - intros series_data Hs. unfold stair_fits. cbn [for_each].
    rewrite (py_index_short series_data Sub.T); [done|]. unfold Sub.T, Sub.NUM in *. lia.
  - unfold get_Re_guess. by rewrite Hdc.
Qed.

Lemma transforms_raise_on_short_structure_witness :
  get_daily_counts [Some (ndarray [1%float]); None] = Raise IndexError.
Proof.
  exact (proj1 (proj2 (proj2 (proj2 (proj2
    (transforms_raise_on_short_structure (fun x => x) (fun x => x) (fun _ => 0%float)
       (fun x _ _ _ => Ok x) (fun x => x) [] [] 0%float
       [Some (ndarray [1%float]); None] false 9 3 3 6 3 []
       ltac:(unfold Sub.NUM; cbn; lia))))))).
Defined.

(** ** Transforms on a structure with ten channels *)

Lemma channel_loop_returns {A B : Type} (f : A -> exc B) (has_else : bool)
    (data : list (option A)) (iis : list nat) (init : list (option B)) :
  (forall ii, ii ∈ iis ->
     exists d, data !! ii = Some d
               /\ match d with Some a => exists b, f a = Ok b | None => True end) ->
  exists out, channel_loop f has_else data iis init = Ok out.
Proof.
  unfold channel_loop. revert init. induction iis as [|i iis IH]; intros init H.
  - by eexists.
  - cbn [for_each]. destruct (H i) as (d & Hd & Hf); [by left|].
    rewrite (proj2 (py_index_Ok _ _ _) Hd). cbn [mbind exc_bind].
    destruct d as [a|].
    + destruct Hf as [b ->]. cbn [mbind exc_bind]. apply IH. intros; apply H; by right.
    + apply IH. intros; apply H; by right.
Qed.

Lemma channels_present (data : data_list) (ii : nat) :
  (Sub.NUM <= length data)%nat -> ii ∈ [Sub.T; Sub.D; Sub.H; Sub.C] ->
  exists d, data !! ii = Some d.
Proof.
  intros Hlen Hin. apply lookup_lt_is_Some_2.
  apply channels_lt_NUM in Hin. rewrite empty_data_list_length in Hin. lia.
Qed.

(** X2. On a structure with at least ten entries [get_log] and
    [get_daily_counts] always return, whatever the series hold (zeros,
    negative numbers, NaN, masked elements, no element at all), and so does
    [get_growth_rate] for a positive step. *)
Theorem elementwise_transforms_never_raise (np_log : float -> float)
    (data : data_list) (step : Z) :
  (Sub.NUM <= length data)%nat ->
  (exists out, get_log np_log data = Ok out)
  /\ (exists out, get_daily_counts data = Ok out)
  /\ (0 < step -> exists out, get_growth_rate np_log data step = Ok out).
Proof.
  intros Hlen. split; [|split].
  - rewrite get_log_loop. apply channel_loop_returns. intros ii Hin.
    destruct (channels_present data ii Hlen Hin) as [d Hd].
    exists d. split; [done|]. destruct d; [by eexists | done].
  - rewrite get_daily_counts_loop. apply channel_loop_returns. intros ii Hin.
    destruct (channels_present data ii Hlen (channels2_in4 ii Hin)) as [d Hd].
    exists d. split; [done|]. destruct d; [by eexists | done].
  - intros Hs. rewrite get_growth_rate_loop. apply channel_loop_returns. intros ii Hin.
    destruct (channels_present data ii Hlen (channels2_in4 ii Hin)) as [d Hd].
    exists d. split; [done|]. destruct d as [a|]; [|done].
    rewrite (growth_rate_channel_eq np_log step a Hs). by eexists.
Qed.

Lemma elementwise_transforms_never_raise_witness :
  exists out,
    get_log (fun x => x)
      [None; None; None; None; None; None; None; None; None;
       Some [Cell 0 false; Cell (-3) false; Cell nan true]] = Ok out.
Proof.
  apply (elementwise_transforms_never_raise (fun x => x)
           [None; None; None; None; None; None; None; None; None;
            Some [Cell 0 false; Cell (-3) false; Cell nan true]] 3).
  unfold Sub.NUM. cbn. lia.
Defined.

Lemma empty_data_list_other (j : nat) :
  (j < Sub.NUM)%nat -> j <> Sub.T -> j <> Sub.D -> empty_data_list !! j = Some None.
Proof.
  unfold Sub.NUM, Sub.T, Sub.D. intros Hj HT HD.
  do 10 (destruct j as [|j]; [done || reflexivity|]). lia.
Qed.

(** X3. What [get_daily_counts], [get_growth_rate] and [growth_rate_to_R0]
    return has exactly ten entries, of which only T and D can be present:
    the H and C channels of the input are dropped, and so is every other
    entry. *)
Theorem td_transforms_keep_only_T_and_D (np_log : float -> float)
    (GR_mapping R0s_mapping : list float) (data out : data_list)
    (step serial_interval : Z) :
  get_daily_counts data = Ok out
  \/ get_growth_rate np_log data step = Ok out
  \/ growth_rate_to_R0 GR_mapping R0s_mapping data serial_interval = Ok out ->
  length out = Sub.NUM
  /\ out !! Sub.H = Some None /\ out !! Sub.C = Some None
  /\ forall j, (j < Sub.NUM)%nat -> j <> Sub.T -> j <> Sub.D -> out !! j = Some None.
Proof.
  intros H.
  assert (Hspec : length out = length empty_data_list
                  /\ forall j, j ∉ [Sub.T; Sub.D] -> out !! j = empty_data_list !! j).
  { destruct H as [H | [H | H]].
    - rewrite get_daily_counts_loop in H.
      destruct (channel_loop_spec _ _ _ _ _ _ channels2_NoDup channels2_lt_NUM H)
        as (? & ? & _). done.
    - rewrite get_growth_rate_loop in H.
      destruct (channel_loop_spec _ _ _ _ _ _ channels2_NoDup channels2_lt_NUM H)
        as (? & ? & _). done.
    - rewrite growth_rate_to_R0_loop in H.
      destruct (channel_loop_spec _ _ _ _ _ _ channels2_NoDup channels2_lt_NUM H)
        as (? & ? & _). done. }
  destruct Hspec as [Hlen Hother].
  assert (Hj : forall j, (j < Sub.NUM)%nat -> j <> Sub.T -> j <> Sub.D ->
                         out !! j = Some None).
  { intros j Hlt HT HD. rewrite Hother; [by apply empty_data_list_other|].
    intros Hin. apply elem_of_cons in Hin as [-> | Hin]; [done|].
    apply elem_of_cons in Hin as [-> | Hin]; [done|]. by apply elem_of_nil in Hin. }
  split; [done|]. split; [|split; [|exact Hj]]; apply Hj; compute; (lia || discriminate).
Qed.

Lemma td_transforms_keep_only_T_and_D_witness :
  exists out,
    get_daily_counts
      [None; None; None; None; None; Some (ndarray [1; 2]%float); None;
       Some (ndarray [1; 3]%float); None; Some (ndarray [1; 5]%float)] = Ok out
    /\ out !! Sub.H = Some None.
Proof.
  destruct (get_daily_counts
      [None; None; None; None; None; Some (ndarray [1; 2]%float); None;
       Some (ndarray [1; 3]%float); None; Some (ndarray [1; 5]%float)])
    as [out|e] eqn:E; [|vm_compute in E; discriminate].
  exists out. split; [reflexivity|].
  exact (proj1 (proj2 (td_transforms_keep_only_T_and_D (fun x => x) [] [] _ out 1 6
                         (or_introl E)))).
Defined.

(** ** get_log, element by element *)

(** X4. [get_log] keeps the length of a present channel and never unmasks:
    a masked element comes back unchanged, an element whose value is zero
    or negative comes back masked with its value kept, and an element that
    comes back unmasked was unmasked and holds the logarithm of the input,
    a finite number. *)
Theorem get_log_masks_and_never_unmasks (np_log : float -> float)
    (data out : data_list) (ii : nat) (a : marray) :
  ii ∈ [Sub.T; Sub.D; Sub.H; Sub.C] ->
  data !! ii = Some (Some a) ->
  get_log np_log data = Ok out ->
  exists a',
    out !! ii = Some (Some a')
    /\ length a' = length a
    /\ forall i c, a !! i = Some c ->
         exists c', a' !! i = Some c'
           /\ (cmask c = true -> c' = c)
           /\ ((cdata c <=? 0)%float = true -> c' = Cell (cdata c) true)
           /\ (cmask c' = false ->
               cmask c = false /\ (cdata c <=? 0)%float = false
               /\ cdata c' = np_log (cdata c) /\ is_finite (cdata c') = true).
Proof.
  intros Hin Hd H. rewrite get_log_loop in H.
  destruct (channel_loop_spec _ false _ _ _ _ channels4_NoDup channels_lt_NUM H)
    as (_ & _ & Hch).
  destruct (Hch ii Hin) as (d & Hd' & Hm). rewrite Hd in Hd'. injection Hd' as <-.
  destruct Hm as (b & [= <-] & Hout).
  exists (ma_log np_log a). split; [done|]. split; [apply length_map|].
  intros i c Hc. exists (log_cell np_log c).
  unfold ma_log. rewrite list_lookup_fmap, Hc. split; [done|].
  unfold log_cell. destruct c as [x m]. cbn [cdata cmask].
  split; [|split].
  - intros ->. by rewrite orb_true_r.
  - intros ->. by rewrite orb_true_r.
  - destruct (is_finite (np_log x)) eqn:E, (x <=? 0)%float, m; cbn; done.
Qed.

Lemma get_log_masks_and_never_unmasks_witness :
  exists a' : marray,
    get_log (fun x => x)
      [None; None; None; None; None; None; None; None; None;
       Some [Cell 0 false; Cell 2 false; Cell 5 true]]
    = Ok [None; None; None; None; None; None; None; Some []; None; Some a']
    /\ a' !! 0%nat = Some (Cell 0 true) /\ a' !! 2%nat = Some (Cell 5 true).
Proof.
  destruct (get_log_masks_and_never_unmasks (fun x => x)
              [None; None; None; None; None; None; None; None; None;
               Some [Cell 0 false; Cell 2 false; Cell 5 true]]
              [None; None; None; None; None; None; None; Some []; None;
               Some [Cell 0 true; Cell 2 false; Cell 5 true]]
              Sub.T [Cell 0 false; Cell 2 false; Cell 5 true]
              ltac:(by left) eq_refl ltac:(vm_compute; reflexivity))
    as (a' & Hout & _ & Hel).
  exists a'. injection Hout as <-. split; [vm_compute; reflexivity|].
  split; reflexivity.
Defined.

(** ** get_daily_counts on any series *)

Lemma get_daily_counts_channel (data out : data_list) (ii : nat) (a : marray) :
  ii ∈ [Sub.T; Sub.D] ->
  data !! ii = Some (Some a) ->
  get_daily_counts data = Ok out ->
  out !! ii = Some (Some (daily_counts_channel a)).
Proof.
  intros Hin Hd H. rewrite get_daily_counts_loop in H.
  destruct (channel_loop_spec _ true _ _ _ _ channels2_NoDup channels2_lt_NUM H)
    as (_ & _ & Hch).
  destruct (Hch ii Hin) as (d & Hd' & Hm). rewrite Hd in Hd'. injection Hd' as <-.
  by destruct Hm as (b & [= <-] & Hout).
Qed.

(** X5. On a T or D series with at least one element, [get_daily_counts]
    keeps the length, returns a masked NaN first and, after it, the
    difference of the stored values of consecutive elements (the input mask
    is not looked at), masked and replaced by NaN when it is zero; a series
    growing by a constant [k > 0] gives [k] everywhere after the first
    element. *)
Theorem get_daily_counts_differences (data out : data_list) (ii : nat) (a : marray) :
  ii ∈ [Sub.T; Sub.D] ->
  data !! ii = Some (Some a) ->
  a <> [] ->
  get_daily_counts data = Ok out ->
  exists a',
    out !! ii = Some (Some a')
    /\ length a' = length a
    /\ a' !! 0%nat = Some (Cell nan true)
    /\ (forall t lo hi,
          a !! t = Some lo -> a !! S t = Some hi ->
          a' !! S t
          = Some (if (cdata hi - cdata lo =? 0)%float then Cell nan true
                  else Cell (cdata hi - cdata lo) (is_nan (cdata hi - cdata lo))))
    /\ (forall k,
          (0 <? k)%float = true ->
          (forall t lo hi, a !! t = Some lo -> a !! S t = Some hi ->
                           (cdata hi - cdata lo)%float = k) ->
          forall t, (0 < t < length a)%nat -> a' !! t = Some (Cell k false)).
Proof.
  intros Hin Hd Hne H. exists (daily_counts_channel a).
  split; [by eapply get_daily_counts_channel|]. by apply daily_counts_channel_spec.
Qed.

Lemma get_daily_counts_differences_witness :
  exists a' : marray,
    get_daily_counts
      [None; None; None; None; None; None; None; None; None;
       Some [Cell 1 false; Cell 4 true; Cell 4 false; Cell 9 false]]
    = Ok [None; None; None; None; None; None; None; None; None; Some a']
    /\ a' = [Cell nan true; Cell 3 false; Cell nan true; Cell 5 false].
Proof.
  destruct (get_daily_counts_differences
              [None; None; None; None; None; None; None; None; None;
               Some [Cell 1 false; Cell 4 true; Cell 4 false; Cell 9 false]]
              [None; None; None; None; None; None; None; None; None;
               Some [Cell nan true; Cell 3 false; Cell nan true; Cell 5 false]]
              Sub.T [Cell 1 false; Cell 4 true; Cell 4 false; Cell 9 false]
              ltac:(by left) eq_refl ltac:(discriminate) ltac:(vm_compute; reflexivity))
    as (a' & Hout & _).
  exists a'. injection Hout as <-. split; [vm_compute; reflexivity | reflexivity].
Defined.

(** X6. A series returned by [get_daily_counts] is never empty, an element
    of it is masked exactly when its stored value is NaN, and no stored
    value is zero. *)
Theorem get_daily_counts_masks_nan_and_zero (data out : data_list) (ii : nat)
    (a' : marray) :
  ii ∈ [Sub.T; Sub.D] ->
  get_daily_counts data = Ok out ->
  out !! ii = Some (Some a') ->
  a' <> []
  /\ Forall (fun c => cmask c = is_nan (cdata c) /\ (cdata c =? 0)%float = false) a'.
Proof.
  intros Hin H Hout.
  assert (Ha : exists a, a' = daily_counts_channel a).
  { rewrite get_daily_counts_loop in H.
    destruct (channel_loop_spec _ true _ _ _ _ channels2_NoDup channels2_lt_NUM H)
      as (_ & _ & Hch).
    destruct (Hch ii Hin) as (d & Hd & Hm). destruct d as [a|]; [|congruence].
    destruct Hm as (b & [= <-] & Hb). exists a. congruence. }
  destruct Ha as [a ->]. split; [done|].
  unfold daily_counts_channel, ma_mask_isnan.
  apply Forall_fmap, Forall_fmap, Forall_true. intros c. cbn.
  destruct (cdata c =? 0)%float eqn:E; cbn; [done|]. by rewrite E.
Qed.

Lemma get_daily_counts_masks_nan_and_zero_witness :
  [Cell nan true; Cell 3 false; Cell nan true] <> []
  /\ Forall (fun c => cmask c = is_nan (cdata c) /\ (cdata c =? 0)%float = false)
       [Cell nan true; Cell 3 false; Cell nan true].
Proof.
  apply (get_daily_counts_masks_nan_and_zero
           [None; None; None; None; None; None; None; None; None;
            Some (ndarray [1; 4; 4]%float)]
           [None; None; None; None; None; None; None; None; None;
            Some [Cell nan true; Cell 3 false; Cell nan true]]
           Sub.T _ ltac:(by left) ltac:(vm_compute; reflexivity) eq_refl).
Defined.

(** ** get_growth_rate: short series and steps that are not positive *)

(** X7. For a positive step, the series that [get_growth_rate] returns has
    the length of the input or [step], whichever is larger: a series with
    at most [step] elements comes back as [step] unmasked NaN. *)
Theorem get_growth_rate_pads_short_series (np_log : float -> float)
    (data out : data_list) (step : Z) (ii : nat) (a : marray) :
  0 < step ->
  ii ∈ [Sub.T; Sub.D] ->
  data !! ii = Some (Some a) ->
  get_growth_rate np_log data step = Ok out ->
  exists a',
    out !! ii = Some (Some a')
    /\ length a' = (length a `max` Z.to_nat step)%nat
    /\ ((length a <= Z.to_nat step)%nat ->
        a' = replicate (Z.to_nat step) (Cell nan false)).
Proof.
  intros Hs Hin Hd H. rewrite get_growth_rate_loop in H.
  destruct (channel_loop_spec _ true _ _ _ _ channels2_NoDup channels2_lt_NUM H)
    as (_ & _ & Hch).
  destruct (Hch ii Hin) as (d & Hd' & Hm). rewrite Hd in Hd'. injection Hd' as <-.
  destruct Hm as (a' & Ha' & Hout). exists a'. split; [done|]. split.
  - rewrite (growth_rate_channel_length np_log step a a' Hs Ha'). lia.
  - intros Hle. rewrite (growth_rate_channel_eq np_log step a Hs) in Ha'.
    injection Ha' as <-. rewrite drop_ge by done. cbn [map zip_with app].
    generalize (Z.to_nat step). clear. intros k.
    induction k as [|k IH]; [done|]. cbn. by rewrite IH.
Qed.

Lemma get_growth_rate_pads_short_series_witness :
  get_growth_rate (fun x => x)
    [None; None; None; None; None; None; None; None; None; Some (ndarray [1; 2]%float)] 4
  = Ok [None; None; None; None; None; None; None; None; None;
        Some (replicate 4 (Cell nan false))].
Proof.
  destruct (get_growth_rate_pads_short_series (fun x => x)
              [None; None; None; None; None; None; None; None; None;
               Some (ndarray [1; 2]%float)]
              [None; None; None; None; None; None; None; None; None;
               Some (replicate 4 (Cell nan false))]
              4 Sub.T (ndarray [1; 2]%float)
              ltac:(lia) ltac:(by left) eq_refl ltac:(vm_compute; reflexivity))
    as (a' & Hout & _ & Hall).
  injection Hout as <-. vm_compute. reflexivity.
Defined.

Lemma growth_rate_channel_negative_step (np_log : float -> float) (step : Z) (a : marray) :
  step < 0 -> growth_rate_channel np_log step a = Raise ValueError.
Proof.
  intros Hs. unfold growth_rate_channel, growth_rate_padded, ma_subtract, broadcast2,
    py_slice_from, py_slice_to, ma_log, ma_repeat.
  replace (step <? 0) with true by lia. replace (- step <? 0) with false by lia.
  rewrite !length_map, length_drop, length_take.
  replace (length a - Z.to_nat (Z.max 0 (Z.of_nat (length a) + step)) =?
           Z.to_nat (- step) `min` length a)%nat with true
    by (symmetry; apply Nat.eqb_eq; lia).
  reflexivity.
Qed.

Lemma growth_rate_channel_zero_step (np_log : float -> float) (a : marray) :
  (2 <= length a)%nat -> growth_rate_channel np_log 0 a = Raise ValueError.
Proof.
  intros Hlen. unfold growth_rate_channel, growth_rate_padded, ma_subtract, broadcast2,
    py_slice_from, py_slice_to, ma_log.
  cbn [Z.ltb Z.opp Z.compare Z.to_nat skipn firstn map length].
  destruct a as [|c [|c' a]]; cbn in Hlen; try lia. reflexivity.
Qed.

(** X8. With a step that is not positive [get_growth_rate] raises
    [ValueError] as soon as T is present and the step is negative or the
    series has two elements or more; for a negative step it returns only
    when T and D are both absent. *)
Theorem get_growth_rate_rejects_a_step_that_is_not_positive (np_log : float -> float)
    (data : data_list) (step : Z) :
  step <= 0 ->
  (Sub.NUM <= length data)%nat ->
  (forall a, data !! Sub.T = Some (Some a) -> step < 0 \/ (2 <= length a)%nat ->
             get_growth_rate np_log data step = Raise ValueError)
  /\ (step < 0 ->
      get_growth_rate np_log data step
      = match data !! Sub.T, data !! Sub.D with
        | Some None, Some None => Ok (replicate Sub.NUM None)
        | _, _ => Raise ValueError
        end).
Proof.
  intros Hs Hlen. split.
  - intros a HT Hcase. unfold get_growth_rate. cbn [for_each].
    rewrite (proj2 (py_index_Ok _ _ _) HT). cbn [mbind exc_bind].
    destruct Hcase as [Hneg | Hlong].
    + by rewrite growth_rate_channel_negative_step.
    + destruct (decide (step < 0)) as [Hneg | Hzero].
      * by rewrite growth_rate_channel_negative_step.
      * assert (step = 0) as -> by lia. by rewrite growth_rate_channel_zero_step.
  - intros Hneg.
    destruct (channels_present data Sub.T Hlen ltac:(by left)) as [dT HT].
    destruct (channels_present data Sub.D Hlen ltac:(by right; left)) as [dD HD].
    rewrite HT, HD. unfold get_growth_rate. cbn [for_each].
    rewrite (proj2 (py_index_Ok _ _ _) HT). cbn [mbind exc_bind].
    destruct dT as [a|].
    + by rewrite growth_rate_channel_negative_step.
    + rewrite (proj2 (py_index_Ok _ _ _) HD). cbn [mbind exc_bind].
      destruct dD as [a|]; [by rewrite growth_rate_channel_negative_step | reflexivity].
Qed.

Lemma get_growth_rate_rejects_a_step_that_is_not_positive_witness :
  get_growth_rate (fun x => x)
    [None; None; None; None; None; None; None; None; None; Some (ndarray [1; 2; 4]%float)]
    0
  = Raise ValueError.
Proof.
  apply (proj1 (get_growth_rate_rejects_a_step_that_is_not_positive (fun x => x)
                  [None; None; None; None; None; None; None; None; None;
                   Some (ndarray [1; 2; 4]%float)] 0
                  ltac:(lia) ltac:(unfold Sub.NUM; cbn; lia))
               (ndarray [1; 2; 4]%float) eq_refl).
  right. unfold ndarray. cbn. lia.
Defined.

(** ** growth_rate_to_R0: what a returned series looks like *)

(** X9. When [growth_rate_to_R0] returns for a present T or D channel, the
    calibration table is not empty and its two columns have the same
    length; the output has the length of the input and is masked exactly
    where its stored value is NaN; and the [serial_interval] argument has
    no effect on the result. *)
Theorem growth_rate_to_R0_keeps_length_and_masks_nan
    (GR_mapping R0s_mapping : list float) (data out : data_list)
    (serial_interval : Z) (ii : nat) (a : marray) :
  ii ∈ [Sub.T; Sub.D] ->
  data !! ii = Some (Some a) ->
  growth_rate_to_R0 GR_mapping R0s_mapping data serial_interval = Ok out ->
  GR_mapping <> [] /\ length GR_mapping = length R0s_mapping
  /\ (exists b,
        out !! ii = Some (Some b) /\ length b = length a
        /\ Forall (fun c => cmask c = is_nan (cdata c)) b)
  /\ forall other : Z, growth_rate_to_R0 GR_mapping R0s_mapping data other = Ok out.
Proof.
  intros Hin Hd H.
  assert (Htable : GR_mapping <> [] /\ length GR_mapping = length R0s_mapping).
  { rewrite growth_rate_to_R0_loop in H.
    destruct (channel_loop_spec _ true _ _ _ _ channels2_NoDup channels2_lt_NUM H)
      as (_ & _ & Hch).
    destruct (Hch ii Hin) as (d & Hd' & Hm). rewrite Hd in Hd'. injection Hd' as <-.
    destruct Hm as (b & Hb & _). apply exc_bind_Ok in Hb as (r & Hr & _).
    unfold np_interp in Hr.
    destruct (length GR_mapping =? 0)%nat eqn:E0; [done|].
    destruct (length GR_mapping =? length R0s_mapping)%nat eqn:E1; [|done].
    apply Nat.eqb_eq in E1. split; [|done]. intros ->. done. }
  split; [apply Htable|]. split; [apply Htable|]. split; [|done].
  exists (map (R0_cell GR_mapping R0s_mapping) a).
  split; [by eapply growth_rate_to_R0_channel|]. split; [apply length_map|].
  by apply Forall_fmap, Forall_true.
Qed.

Lemma growth_rate_to_R0_keeps_length_and_masks_nan_witness :
  exists b : marray,
    growth_rate_to_R0 [0; 1]%float [1; 2]%float
      [None; None; None; None; None; None; None; None; None;
       Some [Cell 0.5 false; Cell nan false]] 6
    = Ok [None; None; None; None; None; None; None; None; None; Some b]
    /\ length b = 2%nat.
Proof.
  destruct (growth_rate_to_R0_keeps_length_and_masks_nan [0; 1]%float [1; 2]%float
              [None; None; None; None; None; None; None; None; None;
               Some [Cell 0.5 false; Cell nan false]]
              [None; None; None; None; None; None; None; None; None;
               Some [Cell 1.5 false; Cell nan true]]
              6 Sub.T [Cell 0.5 false; Cell nan false]
              ltac:(by left) eq_refl ltac:(vm_compute; reflexivity))
    as (_ & _ & (b & Hout & Hlen & _) & _).
  exists b. injection Hout as <-. split; [vm_compute; reflexivity | exact Hlen].
Defined.

(** ** log_smooth: which elements come out masked *)

Lemma log_cell_nan (np_log : float -> float) (c : cell) :
  is_nan (cdata (log_cell np_log c)) = true ->
  is_nan (cdata c) = true /\ log_cell np_log c = Cell (cdata c) true.
Proof.
  unfold log_cell. destruct c as [x m]. cbn [cdata cmask].
  destruct (is_finite (np_log x)) eqn:E, (x <=? 0)%float, m; cbn; try done.
  intros Hn. apply is_finite_not_nan in E. congruence.
Qed.

(** X10. [log_smooth] keeps the length of a present channel and returns
    unmasked every element whose stored input value is not NaN, also the
    masked ones and the zero or negative counts that the logarithm had
    masked; an element that comes back masked stored NaN and still does,
    and where the logarithm of NaN is not finite every stored NaN comes
    back masked. *)
Theorem log_smooth_masks_stored_nan_only (np_log np_exp : float -> float)
    (savgol_filter : list float -> Z -> Z -> savgol_mode -> exc (list float))
    (round_astype_int : float -> float)
    (data out : data_list) (nb_pts : Z) (ii : nat) (a : marray) :
  ii ∈ [Sub.T; Sub.D; Sub.H; Sub.C] ->
  data !! ii = Some (Some a) ->
  log_smooth np_log np_exp savgol_filter round_astype_int data nb_pts = Ok out ->
  exists a',
    out !! ii = Some (Some a')
    /\ length a' = length a
    /\ forall i c, a !! i = Some c ->
         exists c', a' !! i = Some c'
           /\ (is_nan (cdata c) = false -> cmask c' = false)
           /\ (cmask c' = true -> is_nan (cdata c) = true /\ c' = Cell (cdata c) true)
           /\ (is_nan (cdata c) = true -> is_finite (np_log (cdata c)) = false ->
               c' = Cell (cdata c) true).
Proof.
  intros Hin Hd H. unfold log_smooth in H.
  apply exc_bind_Ok in H as (lg & Hlg & H).
  apply exc_bind_Ok in H as (sm & Hsm & H).
  (* the logarithm *)
  rewrite get_log_loop in Hlg.
  destruct (channel_loop_spec _ false _ _ _ _ channels4_NoDup channels_lt_NUM Hlg)
    as (_ & _ & Hch).
  destruct (Hch ii Hin) as (d & Hd' & Hm). rewrite Hd in Hd'. injection Hd' as <-.
  destruct Hm as (b & [= <-] & Hlgi). clear Hch.
  (* the filter *)
  rewrite smooth_loop in Hsm.
  pose proof (channel_loop_in_range _ _ _ _ _ _ Hsm) as Hrange.
  destruct (channel_loop_spec _ false _ _ _ _ channels4_NoDup Hrange Hsm) as (_ & _ & Hch).
  destruct (Hch ii Hin) as (d & Hd' & Hm). rewrite Hlgi in Hd'. injection Hd' as <-.
  destruct Hm as (s & Hs & Hsmi). clear Hch.
  destruct (smooth_channel_spec _ _ _ _ _ _ Hs) as (filtered & mode & _ & Hlen & Hnan & Hval).
  (* the exponential *)
  change (channel_loop (fun a => Ok (ma_exp np_exp a)) false sm
            [Sub.T; Sub.D; Sub.H; Sub.C] empty_data_list = Ok out) in H.
  destruct (channel_loop_spec _ false _ _ _ _ channels4_NoDup channels_lt_NUM H)
    as (_ & _ & Hch).
  destruct (Hch ii Hin) as (d & Hd' & Hm). rewrite Hsmi in Hd'. injection Hd' as <-.
  destruct Hm as (b & [= <-] & Houti). clear Hch.
  exists (ma_exp np_exp s). split; [done|].
  split; [unfold ma_exp, ma_log in *; rewrite length_map, Hlen; apply length_map|].
  intros i c Hc.
  assert (HL : ma_log np_log a !! i = Some (log_cell np_log c)).
  { unfold ma_log. by rewrite list_lookup_fmap, Hc. }
  destruct (is_nan (cdata (log_cell np_log c))) eqn:En.
  - destruct (log_cell_nan np_log c En) as [Hcn HLc].
    exists (Cell (cdata c) true). unfold ma_exp.
    rewrite list_lookup_fmap, (Hnan i _ HL En), HLc. cbn.
    split; [done|]. split; [congruence|]. split; [done|done].
  - destruct (Hval i _ HL En) as (c'' & Hc'' & Hun & _).
    exists (exp_cell np_exp c''). unfold ma_exp. rewrite list_lookup_fmap, Hc''.
    split; [done|]. unfold exp_cell. rewrite Hun. cbn.
    split; [done|]. split; [done|].
    intros Hcn Hfin. exfalso. revert En. unfold log_cell. rewrite Hfin. cbn.
    congruence.
Qed.

Lemma log_smooth_masks_stored_nan_only_witness :
  exists a' : marray,
    log_smooth (fun x => x) (fun x => x) (fun x _ _ _ => Ok x) (fun x => x)
      [None; None; None; None; None; None; None; None; None;
       Some [Cell (-5) false; Cell nan false; Cell 3 true]] 7
    = Ok [None; None; None; None; None; None; None; Some []; None; Some a']
    /\ a' = [Cell (-5) false; Cell nan true; Cell 3 false].
Proof.
  destruct (log_smooth_masks_stored_nan_only (fun x => x) (fun x => x)
              (fun x _ _ _ => Ok x) (fun x => x)
              [None; None; None; None; None; None; None; None; None;
               Some [Cell (-5) false; Cell nan false; Cell 3 true]]
              [None; None; None; None; None; None; None; Some []; None;
               Some [Cell (-5) false; Cell nan true; Cell 3 false]]
              7 Sub.T [Cell (-5) false; Cell nan false; Cell 3 true]
              ltac:(by left) eq_refl ltac:(vm_compute; reflexivity))
    as (a' & Hout & _).
  exists a'. injection Hout as <-. split; [vm_compute; reflexivity | reflexivity].
Defined.

(** ** smooth with as_int *)

Lemma smooth_channel_as_int
    (savgol_filter : list float -> Z -> Z -> savgol_mode -> exc (list float))
    (round_astype_int : float -> float) (nb_pts order : Z) (a : marray) :
  smooth_channel savgol_filter round_astype_int true nb_pts order a
  = (b ← smooth_channel savgol_filter round_astype_int false nb_pts order a;
     Ok (map (fun c => Cell (round_astype_int (cdata c)) (cmask c)) b)).
Proof. unfold smooth_channel. by destruct (savgol_filter _ _ _ _). Qed.

(** X11. [smooth] with [as_int] returns what it returns without, with the
    rounding applied to every element of each present T, D, H or C
    channel, the NaN and the masked ones included; masks and every other
    entry are the same. *)
Theorem smooth_as_int_rounds_every_element
    (savgol_filter : list float -> Z -> Z -> savgol_mode -> exc (list float))
    (round_astype_int : float -> float)
    (data out : data_list) (nb_pts order : Z) :
  smooth savgol_filter round_astype_int data false nb_pts order = Ok out ->
  exists out',
    smooth savgol_filter round_astype_int data true nb_pts order = Ok out'
    /\ length out' = length out
    /\ (forall ii, ii ∈ [Sub.T; Sub.D; Sub.H; Sub.C] ->
          out' !! ii
          = match out !! ii with
            | Some (Some a) =>
                Some (Some (map (fun c => Cell (round_astype_int (cdata c)) (cmask c)) a))
            | other => other
            end)
    /\ (forall j, j ∉ [Sub.T; Sub.D; Sub.H; Sub.C] -> out' !! j = out !! j).
Proof.
  intros H. rewrite smooth_loop in H.
  pose proof (channel_loop_in_range _ _ _ _ _ _ H) as Hrange.
  destruct (channel_loop_spec _ false _ _ _ _ channels4_NoDup Hrange H)
    as (Hlen & Hother & Hch).
  destruct (channel_loop_returns
              (smooth_channel savgol_filter round_astype_int true nb_pts order)
              false data [Sub.T; Sub.D; Sub.H; Sub.C] data) as [out' H'].
  { intros ii Hin. destruct (Hch ii Hin) as (d & Hd & Hm). exists d. split; [done|].
    destruct d as [a|]; [|done]. destruct Hm as (b & Hb & _).
    rewrite smooth_channel_as_int, Hb. by eexists. }
  exists out'. rewrite smooth_loop. split; [done|].
  destruct (channel_loop_spec _ false _ _ _ _ channels4_NoDup Hrange H')
    as (Hlen' & Hother' & Hch').
  split; [congruence|]. split.
  - intros ii Hin. destruct (Hch ii Hin) as (d & Hd & Hm).
    destruct (Hch' ii Hin) as (d' & Hd' & Hm'). rewrite Hd in Hd'. injection Hd' as <-.
    destruct d as [a|].
    + destruct Hm as (b & Hb & ->). destruct Hm' as (b' & Hb' & ->).
      rewrite smooth_channel_as_int, Hb in Hb'. by injection Hb' as <-.
    + rewrite Hm', Hm, Hd. done.
  - intros j Hj. by rewrite Hother, Hother'.
Qed.

Lemma smooth_as_int_rounds_every_element_witness :
  exists out',
    smooth (fun x _ _ _ => Ok x) (fun x => (x + 0.5)%float)
      [None; None; None; None; None; None; None; None; None;
       Some [Cell 1 true; Cell nan true; Cell 3 false]] true 9 3 = Ok out'
    /\ out' !! Sub.T = Some (Some [Cell 1.5 false; Cell nan true; Cell 3.5 false]).
Proof.
  destruct (smooth_as_int_rounds_every_element (fun x _ _ _ => Ok x)
              (fun x => (x + 0.5)%float)
              [None; None; None; None; None; None; None; None; None;
               Some [Cell 1 true; Cell nan true; Cell 3 false]]
              [None; None; None; None; None; None; None; None; None;
               Some [Cell 1 false; Cell nan true; Cell 3 false]]
              9 3 ltac:(vm_compute; reflexivity)) as (out' & Hs & _ & Hch & _).
  exists out'. split; [exact Hs|].
  rewrite (Hch Sub.T ltac:(by left)). vm_compute. reflexivity.
Defined.

(** ** stair_fit and stair_fits *)

Section StairChannel.

Variable np_sum : list float -> float.
Variable masked_value : float.

Lemma stair_fits_channel (time : list Z) (data : list (option series))
    (out : list (option fit)) (nb_value : Z) (ii : nat) (a : series) :
  ii ∈ [Sub.T; Sub.D; Sub.H; Sub.C] ->
  data !! ii = Some (Some a) ->
  stair_fits np_sum masked_value time data nb_value = Ok out ->
  exists r, stair_fit np_sum masked_value time a nb_value = Ok r
            /\ out !! ii = Some (Some (Fit r.1.1 r.1.2 (PyInt r.2))).
Proof.
  intros Hin Hd H. rewrite stair_fits_loop in H.
  destruct (channel_loop_spec _ true _ _ _ _ channels4_NoDup channels_lt_replicate H)
    as (_ & _ & Hch).
  destruct (Hch ii Hin) as (d & Hd' & Hm). rewrite Hd in Hd'. injection Hd' as <-.
  destruct Hm as (b & Hb & Hout). apply exc_bind_Ok in Hb as (r & Hr & [= <-]).
  by exists r.
Qed.

Lemma stair_fit_breakpoint (time : list Z) (a : series) (nb_value : Z)
    (r : float * float * Z) :
  stair_fit np_sum masked_value time a nb_value = Ok r -> r.2 ∈ time.
Proof.
  unfold stair_fit. intros H.
  apply exc_bind_Ok in H as (vo & _ & H).
  apply exc_bind_Ok in H as (ve & _ & H).
  apply exc_bind_Ok in H as (errs & _ & H).
  apply exc_bind_Ok in H as (i & _ & H).
  apply exc_bind_Ok in H as (bp & Hbp & [= <-]). apply py_index_Ok in Hbp.
  by eapply list_elem_of_lookup_2.
Qed.

Lemma broadcast2_misaligned {A B C : Type} (f : A -> B -> C) (a : list A) (b : list B) :
  length a <> length b -> length a <> 1%nat -> length b <> 1%nat ->
  broadcast2 f a b = Raise ValueError.
Proof.
  intros Hne Ha Hb. unfold broadcast2.
  replace (length a =? length b)%nat with false by (symmetry; by apply Nat.eqb_neq).
  by destruct a as [|x [|x' a]], b as [|y [|y' b]].
Qed.

Lemma err_function_misaligned (x : Z) (time : list Z) (vec : series)
    (val_o val_e : float) :
  series_length vec <> length time -> series_length vec <> 1%nat ->
  length time <> 1%nat ->
  err_function np_sum masked_value x time vec val_o val_e = Raise ValueError.
Proof.
  intros Hne Ha Ht.
  assert (Hl : length (stair_func time val_o val_e x) = length time).
  { unfold stair_func. by rewrite length_map. }
  destruct vec as [l|l|a]; unfold err_function, ma_subtract; cbn [series_length] in *;
    rewrite broadcast2_misaligned; try done;
    unfold ndarray; rewrite ?length_map; congruence.
Qed.

(** The means are computed first: a plain array fails there, and a
    masked array at the first candidate breakpoint, or in [np.argmin] when
    there is none. *)
Lemma stair_fit_misaligned (time : list Z) (vec : series) (nb_value : Z) :
  time = []
  \/ (series_length vec <> length time /\ series_length vec <> 1%nat
      /\ length time <> 1%nat) ->
  stair_fit np_sum masked_value time vec nb_value
  = Raise (match vec with Ndarray _ => AttributeError | _ => ValueError end).
Proof.
  intros Hmis. unfold stair_fit.
  destruct vec as [l|l|a]; [reflexivity| |]; cbn [edge_mean mbind exc_bind].
  - destruct Hmis as [-> | (Hne & Ha & Ht)]; [reflexivity|].
    destruct time as [|t time]; [reflexivity|].
    cbn [list_comp]. by rewrite err_function_misaligned.
  - destruct Hmis as [-> | (Hne & Ha & Ht)]; [reflexivity|].
    destruct time as [|t time]; [reflexivity|].
    cbn [list_comp]. by rewrite err_function_misaligned.
Qed.

End StairChannel.

(** X12. The entry that [stair_fits] returns for a present channel is the
    triple that [stair_fit] returns for that series, and its breakpoint is
    an element of the time array. *)
Theorem stair_fits_is_stair_fit_on_each_channel
    (np_sum : list float -> float) (masked_value : float)
    (time : list Z) (data : list (option series)) (out : list (option fit))
    (nb_value : Z) (ii : nat) (a : series) :
  ii ∈ [Sub.T; Sub.D; Sub.H; Sub.C] ->
  data !! ii = Some (Some a) ->
  stair_fits np_sum masked_value time data nb_value = Ok out ->
  exists val_o val_e drop,
    stair_fit np_sum masked_value time a nb_value = Ok (val_o, val_e, drop)
    /\ out !! ii = Some (Some (Fit val_o val_e (PyInt drop)))
    /\ drop ∈ time.
Proof.
  intros Hin Hd H.
  destruct (stair_fits_channel np_sum masked_value time data out nb_value ii a Hin Hd H)
    as ([[vo ve] dr] & Hr & Hout).
  exists vo, ve, dr. split; [done|]. split; [done|].
  exact (stair_fit_breakpoint np_sum masked_value time a nb_value _ Hr).
Qed.

Lemma stair_fits_is_stair_fit_on_each_channel_witness :
  exists val_o val_e drop,
    stair_fit (fun l => fold_left PrimFloat.add l 0%float) 0%float [1; 2; 3; 4]
      (Masked [Cell 2 false; Cell 2 false; Cell nan true; Cell 5 false]) 1
    = Ok (val_o, val_e, drop)
    /\ drop ∈ [1; 2; 3; 4].
Proof.
  destruct (stair_fits_is_stair_fit_on_each_channel
              (fun l => fold_left PrimFloat.add l 0%float) 0%float [1; 2; 3; 4]
              [None; None; None; None; None; None; None; None; None;
               Some (Masked [Cell 2 false; Cell 2 false; Cell nan true; Cell 5 false])]
              [None; None; None; None; None; None; None; None; None;
               Some (Fit 2 5 (PyInt 2))]
              1 Sub.T (Masked [Cell 2 false; Cell 2 false; Cell nan true; Cell 5 false])
              ltac:(by left) eq_refl ltac:(vm_compute; reflexivity))
    as (vo & ve & dr & Hr & _ & Hdr).
  by exists vo, ve, dr.
Defined.

(** X13. When the time array is empty, or when the series and the time
    array have different lengths, neither being one, [stair_fit] raises:
    [ValueError] on a masked array, and [AttributeError] on a plain array,
    whose [mask] it asks for before anything else; [stair_fits] then raises
    the same for the T channel. *)
Theorem stair_fit_raises_on_misaligned_time
    (np_sum : list float -> float) (masked_value : float)
    (time : list Z) (vec : series) (nb_value : Z) :
  time = []
  \/ (series_length vec <> length time /\ series_length vec <> 1%nat
      /\ length time <> 1%nat) ->
  let e := match vec with Ndarray _ => AttributeError | _ => ValueError end in
  stair_fit np_sum masked_value time vec nb_value = Raise e
  /\ forall data : list (option series),
       data !! Sub.T = Some (Some vec) ->
       stair_fits np_sum masked_value time data nb_value = Raise e.
Proof.
  intros Hmis.
  pose proof (stair_fit_misaligned np_sum masked_value time vec nb_value Hmis) as Hfit.
  cbn zeta. split; [exact Hfit|]. intros data HT.
  rewrite stair_fits_loop. unfold channel_loop. cbn [for_each].
  rewrite (proj2 (py_index_Ok _ _ _) HT). cbn [mbind exc_bind]. by rewrite Hfit.
Qed.

Lemma stair_fit_raises_on_misaligned_time_witness :
  stair_fit (fun l => fold_left PrimFloat.add l 0%float) 0%float [1; 2; 3]
    (Masked [Cell 2 false; Cell 2 false; Cell nan true; Cell 5 false]) 1
  = Raise ValueError
  /\ stair_fit (fun l => fold_left PrimFloat.add l 0%float) 0%float [1; 2; 3]
       (Ndarray [2; 2; 5; 5]%float) 1
     = Raise AttributeError.
Proof.
  split.
  - apply (stair_fit_raises_on_misaligned_time
             (fun l => fold_left PrimFloat.add l 0%float) 0%float [1; 2; 3]
             (Masked [Cell 2 false; Cell 2 false; Cell nan true; Cell 5 false]) 1).
    right. cbn. repeat split; lia.
  - apply (stair_fit_raises_on_misaligned_time
             (fun l => fold_left PrimFloat.add l 0%float) 0%float [1; 2; 3]
             (Ndarray [2; 2; 5; 5]%float) 1).
    right. cbn. repeat split; lia.
Defined.

(** ** A channel without a valid element *)

Section AllMasked.

Variable np_sum : list float -> float.
Variable masked_value : float.

Lemma compressed_all_masked (a : marray) :
  Forall (fun c => cmask c = true) a -> compressed a = [].
Proof.
  unfold compressed. induction 1 as [|c a Hc _ IH]; [done|]. cbn. by rewrite Hc.
Qed.

Lemma terms_all_masked (a b : marray) :
  Forall (fun c => cmask c = true) a ->
  forallb cmask (ma_power_one (ma_abs (zip_with subtract_cell a b))) = true.
Proof.
  intros Ha. revert b. induction Ha as [|c a Hc _ IH]; intros [|y b]; try done.
  cbn. rewrite Hc. cbn. apply IH.
Qed.

Lemma err_function_all_masked (x : Z) (time : list Z) (a : marray) (val_o val_e : float) :
  length time = length a -> a <> [] ->
  Forall (fun c => cmask c = true) a ->
  err_function np_sum masked_value x time (Masked a) val_o val_e = Ok masked_value.
Proof.
  intros Hlen Hne Ha. unfold err_function, ma_subtract, broadcast2.
  replace (length (ndarray (stair_func time val_o val_e x))) with (length a)
    by (unfold ndarray, stair_func; by rewrite !length_map).
  rewrite Nat.eqb_refl. cbn [mbind exc_bind]. unfold ma_sum_power_one, ma_sum.
  pose proof (terms_all_masked a (ndarray (stair_func time val_o val_e x)) Ha) as Hall.
  assert (Hnil : ma_power_one (ma_abs (zip_with subtract_cell a
                   (ndarray (stair_func time val_o val_e x)))) <> []).
  { destruct a; [done|]. by destruct time. }
  by rewrite Hall, (forallb_existsb_nonempty _ _ Hnil Hall).
Qed.

Lemma argmin_from_constant (m : float) (n i : nat) :
  is_nan m = false -> argmin_from m 0 i (replicate n m) = 0%nat.
Proof.
  intros Hm. revert i. induction n as [|n IH]; intros i; [done|].
  cbn. rewrite (leb_refl m Hm). cbn. apply IH.
Qed.

Lemma np_argmin_constant (m : float) (n : nat) :
  np_argmin (replicate (S n) m) = Ok 0%nat.
Proof.
  cbn. destruct (is_nan m) eqn:E; [done|]. by rewrite argmin_from_constant.
Qed.

Lemma stair_fit_all_masked (time : list Z) (t0 : Z) (a : marray) (nb_value : Z) :
  time !! 0%nat = Some t0 ->
  length time = length a ->
  Forall (fun c => cmask c = true) a ->
  stair_fit np_sum masked_value time (Masked a) nb_value
  = Ok (masked_value, masked_value, t0).
Proof.
  intros Ht Hlen Ha. unfold stair_fit, edge_mean. cbn [mbind exc_bind].
  rewrite (compressed_all_masked a Ha).
  assert (Hto : py_slice_to nb_value (@nil cell) = []).
  { unfold py_slice_to. destruct (_ <? _); apply firstn_nil. }
  assert (Hfrom : py_slice_from (- nb_value) (@nil cell) = []).
  { unfold py_slice_from. destruct (_ <? _); apply skipn_nil. }
  rewrite Hto, Hfrom.
  change (ma_mean np_sum masked_value []) with masked_value.
  rewrite (list_comp_Ok _ (fun _ => masked_value)).
  2:{ intros x _. apply err_function_all_masked; [done| |done].
      intros ->. by destruct time. }
  cbn [mbind exc_bind].
  destruct time as [|t time]; [done|]. injection Ht as ->.
  assert (Hc : map (fun _ : Z => masked_value) (t0 :: time)
               = replicate (S (length time)) masked_value).
  { cbn. f_equal. clear. induction time as [|x time IH]; [done|]. cbn. by rewrite IH. }
  rewrite Hc, np_argmin_constant. reflexivity.
Qed.

End AllMasked.

(** X14. A present channel in which every element is masked, aligned with
    the time array, does not get an absent fit: both levels are the masked
    constant and the breakpoint is the first time value. *)
Theorem stair_fits_fits_a_channel_without_valid_element
    (np_sum : list float -> float) (masked_value : float)
    (time : list Z) (data : list (option series)) (out : list (option fit))
    (nb_value : Z) (ii : nat) (a : marray) :
  ii ∈ [Sub.T; Sub.D; Sub.H; Sub.C] ->
  data !! ii = Some (Some (Masked a)) ->
  Forall (fun c => cmask c = true) a ->
  length time = length a ->
  stair_fits np_sum masked_value time data nb_value = Ok out ->
  exists t0,
    time !! 0%nat = Some t0
    /\ out !! ii = Some (Some (Fit masked_value masked_value (PyInt t0))).
Proof.
  intros Hin Hd Ha Hlen H.
  destruct (stair_fits_channel np_sum masked_value time data out nb_value ii (Masked a)
              Hin Hd H) as (r & Hr & Hout).
  destruct time as [|t0 time].
  { discriminate Hr. }
  exists t0. split; [done|].
  rewrite (stair_fit_all_masked np_sum masked_value (t0 :: time) t0 a nb_value
             eq_refl Hlen Ha) in Hr.
  by injection Hr as <-.
Qed.

Lemma stair_fits_fits_a_channel_without_valid_element_witness :
  exists t0,
    [5; 6; 7] !! 0%nat = Some t0
    /\ stair_fits (fun l => fold_left PrimFloat.add l 0%float) 0%float [5; 6; 7]
         [None; None; None; None; None; None; None; None; None;
          Some (Masked [Cell nan true; Cell nan true; Cell nan true])] 7
       = Ok [None; None; None; None; None; None; None; None; None;
             Some (Fit 0 0 (PyInt t0))].
Proof.
  destruct (stair_fits_fits_a_channel_without_valid_element
              (fun l => fold_left PrimFloat.add l 0%float) 0%float [5; 6; 7]
              [None; None; None; None; None; None; None; None; None;
               Some (Masked [Cell nan true; Cell nan true; Cell nan true])]
              [None; None; None; None; None; None; None; None; None;
               Some (Fit 0 0 (PyInt 5))]
              7 Sub.T [Cell nan true; Cell nan true; Cell nan true]
              ltac:(by left) eq_refl ltac:(repeat constructor) eq_refl
              ltac:(vm_compute; reflexivity))
    as (t0 & Ht & _).
  exists t0. split; [exact Ht|]. injection Ht as <-. vm_compute. reflexivity.
Defined.

(** ** stair_fit without edge points *)

(** X15. With [nb_value = 0] the early level of [stair_fit], on a series
    that carries a mask array, is the masked constant (the mean of no
    value) and the late level is the mean of all the valid values, since
    [x[-0:]] is the whole array. *)
Theorem stair_fit_with_no_edge_points
    (np_sum : list float -> float) (masked_value : float)
    (time : list Z) (a : marray) (r : float * float * Z) :
  compressed a <> [] ->
  stair_fit np_sum masked_value time (Masked a) 0 = Ok r ->
  r.1.1 = masked_value
  /\ r.1.2 = mean_of np_sum (ma_data (compressed a)).
Proof.
  intros Hne H. unfold stair_fit, edge_mean in H. cbn [mbind exc_bind] in H.
  change (py_slice_to 0 (compressed a)) with (@nil cell) in H.
  change (py_slice_from (- 0) (compressed a)) with (compressed a) in H.
  change (ma_mean np_sum masked_value []) with masked_value in H.
  rewrite (ma_mean_unmasked np_sum masked_value (compressed a) Hne
             (compressed_unmasked a)) in H.
  apply exc_bind_Ok in H as (errs & _ & H).
  apply exc_bind_Ok in H as (i & _ & H).
  by apply exc_bind_Ok in H as (bp & _ & [= <-]).
Qed.

Lemma stair_fit_with_no_edge_points_witness :
  exists r,
    stair_fit (fun l => fold_left PrimFloat.add l 0%float) 0%float [1; 2; 3]
      (Masked [Cell 2 false; Cell nan true; Cell 4 false]) 0 = Ok r
    /\ r.1.1 = 0%float /\ r.1.2 = 3%float.
Proof.
  destruct (stair_fit (fun l => fold_left PrimFloat.add l 0%float) 0%float [1; 2; 3]
      (Masked [Cell 2 false; Cell nan true; Cell 4 false]) 0) as [r|e] eqn:E;
    [|vm_compute in E; discriminate].
  destruct (stair_fit_with_no_edge_points
              (fun l => fold_left PrimFloat.add l 0%float) 0%float [1; 2; 3]
              [Cell 2 false; Cell nan true; Cell 4 false] r
              ltac:(intros Hc; vm_compute in Hc; discriminate) E) as [H1 H2].
  exists r. split; [reflexivity|]. split; [exact H1|]. rewrite H2. vm_compute. reflexivity.
Defined.

(** ** get_Re_guess, end to end *)

Section EstimatorChain.

Variables np_log np_exp : float -> float.
Variable np_sum : list float -> float.
Variable savgol_filter : list float -> Z -> Z -> savgol_mode -> exc (list float).
Variable round_astype_int : float -> float.
Variables GR_mapping R0s_mapping : list float.
Variable masked_value : float.

Lemma daily_counts_channel_length (a : marray) :
  length (daily_counts_channel a) = (length a `max` 1)%nat.
Proof.
  unfold daily_counts_channel, ma_mask_isnan, ndarray, ma_data.
  rewrite !length_map. cbn [length]. rewrite np_diff_length, length_map. lia.
Qed.

Lemma get_daily_counts_TD (data d1 : data_list) (ii : nat) :
  ii ∈ [Sub.T; Sub.D] ->
  get_daily_counts data = Ok d1 ->
  exists c, data !! ii = Some c
            /\ d1 !! ii = Some (daily_counts_channel <$> c).
Proof.
  intros Hin H. rewrite get_daily_counts_loop in H.
  destruct (channel_loop_spec _ true _ _ _ _ channels2_NoDup channels2_lt_NUM H)
    as (_ & _ & Hch).
  destruct (Hch ii Hin) as (d & Hd & Hm). exists d. split; [done|].
  destruct d as [a|]; [|done]. by destruct Hm as (b & [= <-] & ->).
Qed.

(** [log_smooth] always returns a present T and a present D series: the
    smoothed series, or the empty array of [empty_data_list] when the
    channel was absent. *)
Lemma log_smooth_TD (d1 d2 : data_list) (nb_pts : Z) (ii : nat) :
  ii ∈ [Sub.T; Sub.D] ->
  log_smooth np_log np_exp savgol_filter round_astype_int d1 nb_pts = Ok d2 ->
  exists dT a2,
    d1 !! ii = Some dT /\ d2 !! ii = Some (Some a2)
    /\ length a2 = match dT with Some a1 => length a1 | None => 0%nat end.
Proof.
  intros Hii H. unfold log_smooth in H.
  apply exc_bind_Ok in H as (lg & Hlg & H).
  apply exc_bind_Ok in H as (sm & Hsm & H).
  assert (HT : ii ∈ [Sub.T; Sub.D; Sub.H; Sub.C]) by (by apply channels2_in4).
  assert (Hlog : exists dT x, d1 !! ii = Some dT /\ lg !! ii = Some (Some x)
                  /\ length x = match dT with Some a1 => length a1 | None => 0%nat end).
  { pose proof Hlg as Hlg'. rewrite get_log_loop in Hlg.
    destruct (channel_loop_spec _ false _ _ _ _ channels4_NoDup channels_lt_NUM Hlg)
      as (_ & _ & Hch).
    destruct (Hch ii HT) as (d & Hd & Hm). exists d.
    destruct d as [a|].
    - destruct Hm as (b & [= <-] & Hb). exists (ma_log np_log a).
      split; [done|]. split; [done|]. apply length_map.
    - exists (ndarray []). split; [done|]. split; [|done].
      by apply (get_log_absent np_log d1 lg ii Hlg' Hii). }
  destruct Hlog as (dT & x & HdT & Hx & Hxlen).
  rewrite smooth_loop in Hsm.
  pose proof (channel_loop_in_range _ _ _ _ _ _ Hsm) as Hrange.
  destruct (channel_loop_spec _ false _ _ _ _ channels4_NoDup Hrange Hsm) as (_ & _ & Hch).
  destruct (Hch ii HT) as (d & Hd' & Hm). rewrite Hx in Hd'. injection Hd' as <-.
  destruct Hm as (s & Hs & Hsmi). clear Hch.
  destruct (smooth_channel_spec _ _ _ _ _ _ Hs) as (filtered & mode & _ & Hlen & _).
  change (channel_loop (fun a => Ok (ma_exp np_exp a)) false sm
            [Sub.T; Sub.D; Sub.H; Sub.C] empty_data_list = Ok d2) in H.
  destruct (channel_loop_spec _ false _ _ _ _ channels4_NoDup channels_lt_NUM H)
    as (_ & _ & Hch).
  destruct (Hch ii HT) as (d & Hd' & Hm). rewrite Hsmi in Hd'. injection Hd' as <-.
  destruct Hm as (b & [= <-] & Hout).
  exists dT, (ma_exp np_exp s). split; [done|]. split; [done|].
  unfold ma_exp. rewrite length_map. congruence.
Qed.

Lemma get_growth_rate_TD (d2 d3 : data_list) (step : Z) (ii : nat) (a2 : marray) :
  ii ∈ [Sub.T; Sub.D] ->
  d2 !! ii = Some (Some a2) ->
  get_growth_rate np_log d2 step = Ok d3 ->
  exists a3, d3 !! ii = Some (Some a3)
             /\ (0 < step -> length a3 = (length a2 `max` Z.to_nat step)%nat).
Proof.
  intros Hin Hd H. rewrite get_growth_rate_loop in H.
  destruct (channel_loop_spec _ true _ _ _ _ channels2_NoDup channels2_lt_NUM H)
    as (_ & _ & Hch).
  destruct (Hch ii Hin) as (d & Hd' & Hm).
  rewrite Hd in Hd'. injection Hd' as <-.
  destruct Hm as (a3 & Ha3 & Hout). exists a3. split; [done|].
  intros Hs. rewrite (growth_rate_channel_length np_log step a2 a3 Hs Ha3). lia.
Qed.

Lemma combine_fits_present (fits : list (option fit)) (shift : Z) (t : fit)
    (f : option fit) :
  fits !! Sub.T = Some (Some t) -> combine_fits fits shift = Ok f ->
  exists f', f = Some f'.
Proof.
  intros HT. unfold combine_fits. rewrite (proj2 (py_index_Ok _ _ _) HT).
  cbn [mbind exc_bind]. destruct (py_index fits Sub.D) as [[d|]|]; cbn [mbind exc_bind].
  - destruct (_ && _); intros [= <-]; by eexists.
  - intros [= <-]. by eexists.
  - done.
Qed.

Lemma get_Re_guess_TD (time : list Z) (cases : data_list) (step extremal_points : Z)
    (res : gmap string pyval) (ii : nat) :
  ii ∈ [Sub.T; Sub.D] ->
  get_Re_guess np_log np_exp np_sum savgol_filter round_astype_int
    GR_mapping R0s_mapping masked_value time cases step extremal_points = Ok res ->
  exists c (a4 : marray) r fits f,
    cases !! ii = Some c
    /\ stair_fit np_sum masked_value time (Masked a4) extremal_points = Ok r
    /\ fits !! ii = Some (Some (Fit r.1.1 r.1.2 (PyInt r.2)))
    /\ combine_fits fits 9 = Ok f
    /\ res !! "fit" = Some (VFit f)
    /\ (0 < step ->
        length a4 = (match c with Some a => length a | None => 0 end
                     `max` Z.to_nat step)%nat).
Proof.
  unfold get_Re_guess. intros Hin H.
  apply exc_bind_Ok in H as (d1 & H1 & H).
  apply exc_bind_Ok in H as (d2 & H2 & H).
  apply exc_bind_Ok in H as (d3 & H3 & H).
  apply exc_bind_Ok in H as (d4 & H4 & H).
  apply exc_bind_Ok in H as (fits & H5 & H).
  apply exc_bind_Ok in H as (f & H6 & [= <-]).
  destruct (get_daily_counts_TD cases d1 ii Hin H1) as (c & Hc & Hd1).
  destruct (log_smooth_TD d1 d2 7 ii Hin H2) as (dT & a2 & HdT & Hd2 & Hlen2).
  rewrite Hd1 in HdT. injection HdT as <-.
  destruct (get_growth_rate_TD d2 d3 step ii a2 Hin Hd2 H3) as (a3 & Hd3 & Hlen3).
  pose proof (growth_rate_to_R0_channel GR_mapping R0s_mapping d3 6 d4 ii a3
                Hin Hd3 H4) as Hd4.
  assert (Hs4 : with_mask_array d4 !! ii
                = Some (Some (Masked (map (R0_cell GR_mapping R0s_mapping) a3)))).
  { unfold with_mask_array. by rewrite list_lookup_fmap, Hd4. }
  destruct (stair_fits_channel np_sum masked_value time (with_mask_array d4) fits
              extremal_points ii _ (channels2_in4 ii Hin) Hs4 H5) as (r & Hr & Hfits).
  exists c, (map (R0_cell GR_mapping R0s_mapping) a3), r, fits, f.
  split; [done|]. split; [done|]. split; [done|]. split; [done|].
  split; [by simplify_map_eq|].
  intros Hs. rewrite length_map, (Hlen3 Hs), Hlen2.
  destruct c as [a|]; cbn [fmap option_fmap option_map]; [|lia].
  rewrite daily_counts_channel_length. lia.
Qed.

End EstimatorChain.

(** X16. Whenever [get_Re_guess] returns, the time array is not empty and
    the value under "fit" is a triple, never [None]: [log_smooth] hands on a
    present T series even when the input had none. *)
Theorem get_Re_guess_never_returns_an_absent_fit
    (np_log np_exp : float -> float) (np_sum : list float -> float)
    (savgol_filter : list float -> Z -> Z -> savgol_mode -> exc (list float))
    (round_astype_int : float -> float)
    (GR_mapping R0s_mapping : list float) (masked_value : float)
    (time : list Z) (cases : data_list) (step extremal_points : Z)
    (res : gmap string pyval) :
  get_Re_guess np_log np_exp np_sum savgol_filter round_astype_int
    GR_mapping R0s_mapping masked_value time cases step extremal_points = Ok res ->
  time <> [] /\ exists f, res !! "fit" = Some (VFit (Some f)).
Proof.
  intros H.
  destruct (get_Re_guess_TD _ _ _ _ _ _ _ _ _ _ _ _ _ Sub.T ltac:(by left) H)
    as (c & a4 & r & fits & f & _ & Hr & Hfits & Hf & Hres & _).
  split; [intros ->; discriminate Hr|].
  destruct (combine_fits_present fits 9 _ f Hfits Hf) as [f' ->]. by exists f'.
Qed.

Lemma get_Re_guess_never_returns_an_absent_fit_witness :
  exists (res : gmap string pyval) (f : fit),
    get_Re_guess (fun x => x) (fun x => x) (fun l => fold_left PrimFloat.add l 0%float)
      (fun x _ _ _ => Ok x) (fun x => x) [0; 1]%float [1; 2]%float 0%float
      [1; 2; 3; 4] (replicate Sub.NUM None) 4 7 = Ok res
    /\ res !! "fit" = Some (VFit (Some f)).
Proof.
  destruct (get_Re_guess (fun x => x) (fun x => x) (fun l => fold_left PrimFloat.add l 0%float)
      (fun x _ _ _ => Ok x) (fun x => x) [0; 1]%float [1; 2]%float 0%float
      [1; 2; 3; 4] (replicate Sub.NUM None) 4 7) as [res|e] eqn:E;
    [|vm_compute in E; discriminate].
  destruct (get_Re_guess_never_returns_an_absent_fit _ _ _ _ _ _ _ _ _ _ _ _ _ E)
    as (_ & f & Hf).
  by exists res, f.
Defined.

(** X17. For a positive step [get_Re_guess] returns only when the time
    array has as many entries as the T series and as the D series, each
    counted as [step] when it is absent or shorter than [step] (or when one
    of the two lengths is one). *)
Theorem get_Re_guess_needs_a_time_array_of_the_padded_length
    (np_log np_exp : float -> float) (np_sum : list float -> float)
    (savgol_filter : list float -> Z -> Z -> savgol_mode -> exc (list float))
    (round_astype_int : float -> float)
    (GR_mapping R0s_mapping : list float) (masked_value : float)
    (time : list Z) (cases : data_list) (step extremal_points : Z)
    (res : gmap string pyval) (ii : nat) :
  0 < step ->
  ii ∈ [Sub.T; Sub.D] ->
  get_Re_guess np_log np_exp np_sum savgol_filter round_astype_int
    GR_mapping R0s_mapping masked_value time cases step extremal_points = Ok res ->
  exists c,
    cases !! ii = Some c
    /\ let n := match c with Some a => length a | None => 0%nat end in
       let padded := (n `max` Z.to_nat step)%nat in
       length time = padded \/ length time = 1%nat \/ padded = 1%nat.
Proof.
  intros Hs Hin H.
  destruct (get_Re_guess_TD _ _ _ _ _ _ _ _ _ _ _ _ _ ii Hin H)
    as (c & a4 & r & fits & f & Hc & Hr & _ & _ & _ & Hlen).
  exists c. split; [done|]. cbn zeta. rewrite <- (Hlen Hs).
  destruct (decide (length time = length a4)) as [|Hne]; [by left|].
  destruct (decide (length time = 1%nat)) as [|Ht]; [by right; left|].
  destruct (decide (length a4 = 1%nat)) as [|Ha]; [by right; right|].
  rewrite (stair_fit_misaligned np_sum masked_value time (Masked a4) extremal_points)
    in Hr; [done|].
  right. cbn [series_length]. repeat split; congruence.
Qed.

Lemma get_Re_guess_needs_a_time_array_of_the_padded_length_witness :
  length [1; 2; 3; 4] = (0 `max` Z.to_nat 4)%nat
  \/ length [1; 2; 3; 4] = 1%nat \/ (0 `max` Z.to_nat 4)%nat = 1%nat.
Proof.
  destruct (get_Re_guess (fun x => x) (fun x => x) (fun l => fold_left PrimFloat.add l 0%float)
      (fun x _ _ _ => Ok x) (fun x => x) [0; 1]%float [1; 2]%float 0%float
      [1; 2; 3; 4] (replicate Sub.NUM None) 4 7) as [res|e] eqn:E;
    [|vm_compute in E; discriminate].
  destruct (get_Re_guess_needs_a_time_array_of_the_padded_length
              _ _ _ _ _ _ _ _ _ _ 4 _ _ Sub.D ltac:(lia) ltac:(by right; left) E)
    as (c & Hc & Hlen).
  injection Hc as <-. exact Hlen.
Defined.

(** ** Fitter.fit: the shape of a result *)

Section FitterRows.

Variable np_log : float -> float.
Variable np_mean : list float -> float.
Variable linregress : list float -> list float -> Fitter.regression.
Variable strptime_toordinal : string -> exc Z.
Variable int_of_float : float -> exc Z.
Variable fromordinal : Z -> exc (Z * Z * Z).

Abbreviation fit_cumulative' := (Fitter.fit_cumulative np_log np_mean linregress).
Abbreviation fit' :=
  (Fitter.fit np_log np_mean linregress strptime_toordinal int_of_float fromordinal).

Lemma list_comp_app {A B : Type} (f : A -> exc B) (l k : list A) :
  list_comp f (l ++ k) = (x ← list_comp f l; y ← list_comp f k; Ok (x ++ y)).
Proof.
  induction l as [|a l IH]; cbn [list_comp app].
  - cbn. by destruct (list_comp f k).
  - destruct (f a) as [b|e]; cbn [mbind exc_bind]; [|done]. rewrite IH.
    destruct (list_comp f l) as [x|e]; cbn [mbind exc_bind]; [|done].
    by destruct (list_comp f k).
Qed.

Lemma list_comp_length {A B : Type} (f : A -> exc B) (l : list A) (r : list B) :
  list_comp f l = Ok r -> length r = length l.
Proof.
  revert r. induction l as [|a l IH]; intros r; cbn [list_comp].
  - by intros [= <-].
  - intros H. apply exc_bind_Ok in H as (b & _ & H).
    apply exc_bind_Ok in H as (bs & Hbs & [= <-]). cbn. by rewrite (IH bs).
Qed.

Lemma select_skip {A : Type} (b1 b2 : list bool) (l1 l2 : list A) (x : A) :
  length b1 = length l1 ->
  select (b1 ++ false :: b2) (l1 ++ x :: l2) = select (b1 ++ b2) (l1 ++ l2).
Proof.
  revert l1. induction b1 as [|b b1 IH]; intros [|y l1] Hlen; try done.
  cbn in Hlen. injection Hlen as Hlen. cbn. destruct b; by rewrite IH.
Qed.

Lemma fit_cumulative_skip (t1 t2 y1 y2 : list float) (t y : float) :
  length t1 = length y1 ->
  (3 <? y)%float && (y <? 500)%float = false ->
  fit_cumulative' (t1 ++ t :: t2) (y1 ++ y :: y2) = fit_cumulative' (t1 ++ t2) (y1 ++ y2).
Proof.
  intros Hlen Hy. unfold Fitter.fit_cumulative.
  rewrite !map_app. cbn [map]. rewrite Hy.
  rewrite !select_skip by (by rewrite length_map).
  rewrite !List.filter_app. cbn [List.filter]. reflexivity.
Qed.

Lemma row_Ok (dp : Fitter.datapoint) (t : Z) :
  Fitter.to_ms strptime_toordinal (Fitter.time dp) = Ok t ->
  Fitter.row strptime_toordinal dp
  = Ok (Z2float t, Fitter.or_nan (Fitter.cases dp), Fitter.or_nan (Fitter.deaths dp)).
Proof. intros H. unfold Fitter.row. by rewrite H. Qed.

Lemma row_Raise (dp : Fitter.datapoint) (e : pyerr) :
  strptime_toordinal (String.substring 0 10 (Fitter.time dp)) = Raise e ->
  Fitter.row strptime_toordinal dp = Raise e.
Proof. intros H. unfold Fitter.row, Fitter.to_ms. by rewrite H. Qed.

Lemma fit_of_rows (pop : list Fitter.datapoint) (data : list (float * float * float)) :
  list_comp (Fitter.row strptime_toordinal) pop = Ok data ->
  data <> [] ->
  fit' pop
  = let on_cases :=
      match fit_cumulative' (map (fun r => r.1.1) data) (map (fun r => r.1.2) data) with
      | Some p =>
          if (0 <? Fitter.slope p)%float then
            s ← Fitter.from_ms int_of_float fromordinal
                  ((np_log (Z2float Fitter.cases_on_tMin) / Z2float Fitter.under_reporting
                    - Fitter.intercept p) / Fitter.slope p)%float;
            Ok (Some {| Fitter.tMin := s; Fitter.initialCases := Fitter.cases_on_tMin;
                        Fitter.r0 := Fitter.slope_to_r0 (Fitter.slope p) |})
          else Ok None
      | None => Ok None
      end in
    match fit_cumulative' (map (fun r => r.1.1) data) (map (fun r => r.2) data) with
    | Some p =>
        if (0 <? Fitter.slope p)%float then
          s ← Fitter.from_ms int_of_float fromordinal
                ((np_log (Z2float Fitter.cases_on_tMin * Fitter.fatality_rate)
                  - Fitter.intercept p) / Fitter.slope p - Z2float Fitter.delay)%float;
          Ok (Some {| Fitter.tMin := s; Fitter.initialCases := Fitter.cases_on_tMin;
                      Fitter.r0 := Fitter.slope_to_r0 (Fitter.slope p) |})
        else on_cases
    | None => on_cases
    end.
Proof.
  intros Hrows Hne. unfold Fitter.fit. rewrite Hrows. cbn [mbind exc_bind].
  destruct data as [|r data]; [done|]. reflexivity.
Qed.

Lemma fit_rows_nonempty (pop : list Fitter.datapoint) (r : option Fitter.params) :
  fit' pop = Ok r ->
  exists data, list_comp (Fitter.row strptime_toordinal) pop = Ok data /\ data <> [].
Proof.
  unfold Fitter.fit. intros H. apply exc_bind_Ok in H as (data & Hrows & H).
  exists data. split; [done|]. by intros ->.
Qed.

Lemma fit_cumulative_fixed_slope (t y : list float) :
  (5 <= good_points y <= 10)%nat ->
  exists i, fit_cumulative' t y
            = Some {| Fitter.intercept := i;
                      Fitter.slope := (1.0 * Fitter.fixed_slope np_log)%float;
                      Fitter.rvalue := nan |}.
Proof.
  intros H. unfold Fitter.fit_cumulative. rewrite good_points_count.
  replace (10 <? Z.of_nat (good_points y)) with false by lia.
  replace (4 <? Z.of_nat (good_points y)) with true by lia. by eexists.
Qed.

End FitterRows.

(** X20. Whenever [Fitter.fit] returns a record, the series was not empty,
    [initialCases] is 10, [r0] is [1 + 7.5 * slope] for a slope that is
    positive, and [tMin] is a string that [from_ms] produced. *)
Theorem Fitter_fit_result_shape
    (np_log : float -> float) (np_mean : list float -> float)
    (linregress : list float -> list float -> Fitter.regression)
    (strptime_toordinal : string -> exc Z) (int_of_float : float -> exc Z)
    (fromordinal : Z -> exc (Z * Z * Z))
    (pop : list Fitter.datapoint) (p : Fitter.params) :
  Fitter.fit np_log np_mean linregress strptime_toordinal int_of_float fromordinal pop
  = Ok (Some p) ->
  pop <> []
  /\ Fitter.initialCases p = 10
  /\ (exists slope, (0 <? slope)%float = true /\ Fitter.r0 p = (1 + slope * 7.5)%float)
  /\ (exists t, Fitter.from_ms int_of_float fromordinal t = Ok (Fitter.tMin p)).
Proof.
  intros H.
  destruct (fit_rows_nonempty _ _ _ _ _ _ _ _ H) as (data & Hrows & Hne).
  split.
  { intros ->. cbn in Hrows. by injection Hrows as <-. }
  rewrite (fit_of_rows _ _ _ _ _ _ _ _ Hrows Hne) in H. cbn zeta in H.
  assert (Hbranch : forall q t,
            (0 <? Fitter.slope q)%float = true ->
            (s ← Fitter.from_ms int_of_float fromordinal t;
             Ok (Some {| Fitter.tMin := s; Fitter.initialCases := Fitter.cases_on_tMin;
                         Fitter.r0 := Fitter.slope_to_r0 (Fitter.slope q) |}))
            = Ok (Some p) ->
            Fitter.initialCases p = 10
            /\ (exists slope, (0 <? slope)%float = true
                              /\ Fitter.r0 p = (1 + slope * 7.5)%float)
            /\ (exists t, Fitter.from_ms int_of_float fromordinal t = Ok (Fitter.tMin p))).
  { intros q t Hq Hb. apply exc_bind_Ok in Hb as (s & Hs & [= <-]). cbn.
    split; [done|]. split; [by exists (Fitter.slope q) | by exists t]. }
  destruct (Fitter.fit_cumulative _ _ _ _ (map (fun r => r.2) data)) as [q|].
  - destruct (0 <? Fitter.slope q)%float eqn:Eq; [by eapply Hbranch|].
    destruct (Fitter.fit_cumulative _ _ _ _ _) as [q'|]; [|done].
    destruct (0 <? Fitter.slope q')%float eqn:Eq'; [by eapply Hbranch | done].
  - destruct (Fitter.fit_cumulative _ _ _ _ _) as [q'|]; [|done].
    destruct (0 <? Fitter.slope q')%float eqn:Eq'; [by eapply Hbranch | done].
Qed.

Lemma Fitter_fit_result_shape_witness :
  exists p,
    Fitter.fit (fun x => x) (fun _ => 0%float)
      (fun _ _ => {| Fitter.intercept := 0; Fitter.slope := 1; Fitter.rvalue := 1 |})
      (fun _ => Ok 737485) (fun _ => Ok 737485) (fun _ => Ok (2020, 3, 1))
      (map (fun n => {| Fitter.time := "2020-03-01"; Fitter.cases := None;
                        Fitter.deaths := Some (3 + n) |}) [1; 2; 3; 4; 5])
    = Ok (Some p)
    /\ Fitter.initialCases p = 10.
Proof.
  destruct (Fitter.fit (fun x => x) (fun _ => 0%float)
      (fun _ _ => {| Fitter.intercept := 0; Fitter.slope := 1; Fitter.rvalue := 1 |})
      (fun _ => Ok 737485) (fun _ => Ok 737485) (fun _ => Ok (2020, 3, 1))
      (map (fun n => {| Fitter.time := "2020-03-01"; Fitter.cases := None;
                        Fitter.deaths := Some (3 + n) |}) [1; 2; 3; 4; 5]))
    as [[p|]|e] eqn:E; [|vm_compute in E; discriminate..].
  exists p. split; [reflexivity|].
  exact (proj1 (proj2 (Fitter_fit_result_shape _ _ _ _ _ _ _ _ E))).
Defined.

(** X21. When the regression that decides has between 5 and 10 usable
    points (deaths, or cases when fewer than 5 deaths are usable), the
    slope is fixed and the [r0] of the result is the same number for all
    data: [1 + 7.5 * ln 2 / 3], that is 2.732867951399863. *)
Theorem Fitter_fit_r0_is_constant_on_few_points
    (np_log : float -> float) (np_mean : list float -> float)
    (linregress : list float -> list float -> Fitter.regression)
    (strptime_toordinal : string -> exc Z) (int_of_float : float -> exc Z)
    (fromordinal : Z -> exc (Z * Z * Z))
    (pop : list Fitter.datapoint) (data : list (float * float * float))
    (p : Fitter.params) :
  np_log 2%float = 0.6931471805599453%float ->
  list_comp (Fitter.row strptime_toordinal) pop = Ok data ->
  (5 <= good_points (map (fun r => r.2) data) <= 10)%nat
  \/ ((good_points (map (fun r => r.2) data) < 5)%nat
      /\ (5 <= good_points (map (fun r => r.1.2) data) <= 10)%nat) ->
  Fitter.fit np_log np_mean linregress strptime_toordinal int_of_float fromordinal pop
  = Ok (Some p) ->
  Fitter.r0 p = 2.732867951399863%float.
Proof.
  intros Hlog Hrows Hpts H.
  destruct (fit_rows_nonempty _ _ _ _ _ _ _ _ H) as (data' & Hrows' & Hne).
  rewrite Hrows in Hrows'. injection Hrows' as <-.
  rewrite (fit_of_rows _ _ _ _ _ _ _ _ Hrows Hne) in H. cbn zeta in H.
  assert (Hpos : (0 <? 1.0 * Fitter.fixed_slope np_log)%float = true).
  { unfold Fitter.fixed_slope. rewrite Hlog. vm_compute. reflexivity. }
  assert (Hr0 : Fitter.slope_to_r0 (1.0 * Fitter.fixed_slope np_log)
                = 2.732867951399863%float).
  { unfold Fitter.fixed_slope. rewrite Hlog. vm_compute. reflexivity. }
  destruct Hpts as [Hd | [Hd Hc]].
  - destruct (fit_cumulative_fixed_slope np_log np_mean linregress
                (map (fun r => r.1.1) data) _ Hd) as [i Hi].
    rewrite Hi in H. cbn [Fitter.slope Fitter.intercept] in H. rewrite Hpos in H.
    apply exc_bind_Ok in H as (s & _ & [= <-]). exact Hr0.
  - rewrite (fit_cumulative_insufficient np_log np_mean linregress _ _ Hd) in H.
    destruct (fit_cumulative_fixed_slope np_log np_mean linregress
                (map (fun r => r.1.1) data) _ Hc) as [i Hi].
    rewrite Hi in H. cbn [Fitter.slope Fitter.intercept] in H. rewrite Hpos in H.
    apply exc_bind_Ok in H as (s & _ & [= <-]). exact Hr0.
Qed.

Lemma Fitter_fit_r0_is_constant_on_few_points_witness :
  exists p,
    Fitter.fit (fun _ => 0.6931471805599453%float) (fun _ => 0%float)
      (fun _ _ => {| Fitter.intercept := 0; Fitter.slope := 1; Fitter.rvalue := 1 |})
      (fun _ => Ok 737485) (fun _ => Ok 737485) (fun _ => Ok (2020, 3, 1))
      (map (fun n => {| Fitter.time := "2020-03-01"; Fitter.cases := None;
                        Fitter.deaths := Some (3 + n) |}) [1; 2; 3; 4; 5])
    = Ok (Some p)
    /\ Fitter.r0 p = 2.732867951399863%float.
Proof.
  destruct (Fitter.fit (fun _ => 0.6931471805599453%float) (fun _ => 0%float)
      (fun _ _ => {| Fitter.intercept := 0; Fitter.slope := 1; Fitter.rvalue := 1 |})
      (fun _ => Ok 737485) (fun _ => Ok 737485) (fun _ => Ok (2020, 3, 1))
      (map (fun n => {| Fitter.time := "2020-03-01"; Fitter.cases := None;
                        Fitter.deaths := Some (3 + n) |}) [1; 2; 3; 4; 5]))
    as [[p|]|e] eqn:E; [|vm_compute in E; discriminate..].
  exists p. split; [reflexivity|].
  eapply (Fitter_fit_r0_is_constant_on_few_points
            (fun _ => 0.6931471805599453%float) _ _ (fun _ => Ok 737485) _ _
            (map (fun n => {| Fitter.time := "2020-03-01"; Fitter.cases := None;
                              Fitter.deaths := Some (3 + n) |}) [1; 2; 3; 4; 5]) _ p
            eq_refl); [vm_compute; reflexivity | left; vm_compute; lia | exact E].
Defined.

(** X22. A row whose date parses and whose case and death counts are both
    unusable (missing, zero, or not strictly between 3 and 500) has no
    effect on [Fitter.fit], as long as it is not the only row. *)
Theorem Fitter_fit_ignores_rows_outside_the_window
    (np_log : float -> float) (np_mean : list float -> float)
    (linregress : list float -> list float -> Fitter.regression)
    (strptime_toordinal : string -> exc Z) (int_of_float : float -> exc Z)
    (fromordinal : Z -> exc (Z * Z * Z))
    (pre post : list Fitter.datapoint) (dp : Fitter.datapoint) (t : Z) :
  Fitter.to_ms strptime_toordinal (Fitter.time dp) = Ok t ->
  usable (Fitter.cases dp) = false ->
  usable (Fitter.deaths dp) = false ->
  pre ++ post <> [] ->
  Fitter.fit np_log np_mean linregress strptime_toordinal int_of_float fromordinal
    (pre ++ dp :: post)
  = Fitter.fit np_log np_mean linregress strptime_toordinal int_of_float fromordinal
      (pre ++ post).
Proof.
  intros Ht Hc Hd Hne.
  destruct (list_comp (Fitter.row strptime_toordinal) pre) as [d1|e] eqn:E1.
  2:{ unfold Fitter.fit. by rewrite !list_comp_app, E1. }
  destruct (list_comp (Fitter.row strptime_toordinal) post) as [d2|e] eqn:E2.
  2:{ unfold Fitter.fit. rewrite !list_comp_app, E1. cbn [list_comp mbind exc_bind].
      rewrite (row_Ok _ dp t Ht), E2. reflexivity. }
  set (r := (Z2float t, Fitter.or_nan (Fitter.cases dp), Fitter.or_nan (Fitter.deaths dp))).
  assert (HL : list_comp (Fitter.row strptime_toordinal) (pre ++ dp :: post)
               = Ok (d1 ++ r :: d2)).
  { rewrite list_comp_app, E1. cbn [list_comp mbind exc_bind].
    rewrite (row_Ok _ dp t Ht), E2. reflexivity. }
  assert (HR : list_comp (Fitter.row strptime_toordinal) (pre ++ post) = Ok (d1 ++ d2)).
  { by rewrite list_comp_app, E1, E2. }
  assert (Hne' : d1 ++ d2 <> []).
  { intros E. apply (f_equal length) in E. rewrite length_app in E.
    rewrite (list_comp_length _ _ _ E1), (list_comp_length _ _ _ E2), <- length_app in E.
    by destruct (pre ++ post). }
  rewrite (fit_of_rows _ _ _ _ _ _ _ _ HL) by (by destruct d1).
  rewrite (fit_of_rows _ _ _ _ _ _ _ _ HR Hne').
  rewrite !map_app. cbn [map]. subst r. cbn [fst snd].
  rewrite !fit_cumulative_skip by (done || by rewrite !length_map).
  reflexivity.
Qed.

Lemma Fitter_fit_ignores_rows_outside_the_window_witness :
  Fitter.fit (fun x => x) (fun _ => 0%float)
    (fun _ _ => {| Fitter.intercept := 0; Fitter.slope := 1; Fitter.rvalue := 1 |})
    (fun _ => Ok 737485) (fun _ => Ok 737485) (fun _ => Ok (2020, 3, 1))
    [ {| Fitter.time := "2020-03-01"; Fitter.cases := Some 40; Fitter.deaths := Some 4 |};
      {| Fitter.time := "2020-03-02"; Fitter.cases := Some 700; Fitter.deaths := Some 0 |} ]
  = Fitter.fit (fun x => x) (fun _ => 0%float)
      (fun _ _ => {| Fitter.intercept := 0; Fitter.slope := 1; Fitter.rvalue := 1 |})
      (fun _ => Ok 737485) (fun _ => Ok 737485) (fun _ => Ok (2020, 3, 1))
      [ {| Fitter.time := "2020-03-01"; Fitter.cases := Some 40; Fitter.deaths := Some 4 |} ].
Proof.
  apply (Fitter_fit_ignores_rows_outside_the_window (fun x => x) (fun _ => 0%float)
           (fun _ _ => {| Fitter.intercept := 0; Fitter.slope := 1; Fitter.rvalue := 1 |})
           (fun _ => Ok 737485) (fun _ => Ok 737485) (fun _ => Ok (2020, 3, 1))
           [ {| Fitter.time := "2020-03-01"; Fitter.cases := Some 40;
                Fitter.deaths := Some 4 |} ] []
           {| Fitter.time := "2020-03-02"; Fitter.cases := Some 700;
              Fitter.deaths := Some 0 |} 737485).
  - reflexivity.
  - vm_compute. reflexivity.
  - vm_compute. reflexivity.
  - discriminate.
Defined.

(** X23. [Fitter.fit] raises the error of the first row whose date does
    not parse, whatever the counts of the series are. *)
Theorem Fitter_fit_raises_on_unparsable_date
    (np_log : float -> float) (np_mean : list float -> float)
    (linregress : list float -> list float -> Fitter.regression)
    (strptime_toordinal : string -> exc Z) (int_of_float : float -> exc Z)
    (fromordinal : Z -> exc (Z * Z * Z))
    (pre post : list Fitter.datapoint) (dp : Fitter.datapoint)
    (rows : list (float * float * float)) (e : pyerr) :
  list_comp (Fitter.row strptime_toordinal) pre = Ok rows ->
  strptime_toordinal (String.substring 0 10 (Fitter.time dp)) = Raise e ->
  Fitter.fit np_log np_mean linregress strptime_toordinal int_of_float fromordinal
    (pre ++ dp :: post)
  = Raise e.
Proof.
  intros Hpre Hdp. unfold Fitter.fit. rewrite list_comp_app, Hpre.
  cbn [list_comp mbind exc_bind]. by rewrite (row_Raise _ dp e Hdp).
Qed.

Lemma Fitter_fit_raises_on_unparsable_date_witness :
  Fitter.fit (fun x => x) (fun _ => 0%float)
    (fun _ _ => {| Fitter.intercept := 0; Fitter.slope := 1; Fitter.rvalue := 1 |})
    (fun s => if String.eqb s "2020-03-01" then Ok 737485 else Raise ValueError)
    (fun _ => Ok 737485) (fun _ => Ok (2020, 3, 1))
    [ {| Fitter.time := "2020-03-01"; Fitter.cases := Some 40; Fitter.deaths := Some 4 |};
      {| Fitter.time := "yesterday"; Fitter.cases := None; Fitter.deaths := None |} ]
  = Raise ValueError.
Proof.
  apply (Fitter_fit_raises_on_unparsable_date (fun x => x) (fun _ => 0%float)
           (fun _ _ => {| Fitter.intercept := 0; Fitter.slope := 1; Fitter.rvalue := 1 |})
           (fun s => if String.eqb s "2020-03-01" then Ok 737485 else Raise ValueError)
           (fun _ => Ok 737485) (fun _ => Ok (2020, 3, 1))
           [ {| Fitter.time := "2020-03-01"; Fitter.cases := Some 40;
                Fitter.deaths := Some 4 |} ] []
           {| Fitter.time := "yesterday"; Fitter.cases := None; Fitter.deaths := None |}
           [(Z2float 737485, 40%float, 4%float)] ValueError).
  - vm_compute. reflexivity.
  - reflexivity.
Defined.

(** ** The date strings of Fitter.fit *)

Lemma format_0d_length (width : nat) (hi z : Z) :
  forallb (fun n => String.length (Fitter.format_0d width (Z.of_nat n)) =? width)%nat
          (seq 1 (Z.to_nat hi)) = true ->
  1 <= z <= hi ->
  String.length (Fitter.format_0d width z) = width.
Proof.
  intros H Hz. rewrite forallb_forall in H. specialize (H (Z.to_nat z)).
  rewrite Z2Nat.id in H by lia. apply Nat.eqb_eq, H, in_seq. lia.
Qed.

(** X24. For a date within the range of [datetime] the string that
    [from_ms] returns has ten characters with a dash at positions 4 and 7,
    so that [to_ms], which reads the first ten characters, reads all of
    it. *)
Theorem from_ms_gives_a_ten_character_date
    (int_of_float : float -> exc Z) (fromordinal : Z -> exc (Z * Z * Z))
    (x : float) (s : string) :
  (forall n y m d, fromordinal n = Ok (y, m, d) ->
                   1 <= y <= 9999 /\ 1 <= m <= 12 /\ 1 <= d <= 31) ->
  Fitter.from_ms int_of_float fromordinal x = Ok s ->
  String.length s = 10%nat
  /\ String.substring 4 1 s = "-"
  /\ String.substring 7 1 s = "-"
  /\ forall strptime_toordinal : string -> exc Z,
       Fitter.to_ms strptime_toordinal s = strptime_toordinal s.
Proof.
  intros Hrange H. unfold Fitter.from_ms in H.
  apply exc_bind_Ok in H as (n & _ & H).
  apply exc_bind_Ok in H as ([[y m] d] & Hymd & [= <-]).
  destruct (Hrange n y m d Hymd) as (Hy & Hm & Hd).
  assert (Ly : String.length (Fitter.format_0d 4 y) = 4%nat).
  { apply (format_0d_length 4 9999); [vm_compute; reflexivity | lia]. }
  assert (Lm : String.length (Fitter.format_0d 2 m) = 2%nat).
  { apply (format_0d_length 2 12); [vm_compute; reflexivity | lia]. }
  assert (Ld : String.length (Fitter.format_0d 2 d) = 2%nat).
  { apply (format_0d_length 2 31); [vm_compute; reflexivity | lia]. }
  destruct (Fitter.format_0d 4 y) as [|y0 [|y1 [|y2 [|y3 [|? ?]]]]]; try discriminate Ly.
  destruct (Fitter.format_0d 2 m) as [|m0 [|m1 [|? ?]]]; try discriminate Lm.
  destruct (Fitter.format_0d 2 d) as [|d0 [|d1 [|? ?]]]; try discriminate Ld.
  repeat split; reflexivity.
Qed.

Lemma from_ms_gives_a_ten_character_date_witness :
  Fitter.to_ms (fun s => if String.eqb s "2020-03-01" then Ok 737485 else Raise ValueError)
    "2020-03-01"
  = Ok 737485.
Proof.
  destruct (from_ms_gives_a_ten_character_date (fun _ => Ok 737485)
              (fun _ => Ok (2020, 3, 1)) 737485.0%float "2020-03-01"
              ltac:(intros n y m d [= <- <- <-]; lia) eq_refl) as (_ & _ & _ & H).
  rewrite H. reflexivity.
Defined.

Lemma fit_absent_when_insufficient_witness :
  Fitter.fit (fun x => x) (fun _ => 0%float)
    (fun _ _ => {| Fitter.intercept := 0; Fitter.slope := 1; Fitter.rvalue := 1 |})
    (fun _ => Ok 737485) (fun _ => Ok 737485) (fun _ => Ok (2020, 3, 1))
    [ {| Fitter.time := "2020-03-01"; Fitter.cases := Some 40; Fitter.deaths := None |};
      {| Fitter.time := "2020-03-02"; Fitter.cases := Some 80; Fitter.deaths := Some 4 |} ]
  = Ok None.
Proof.
  eapply (fit_absent_when_insufficient (fun x => x) (fun _ => 0%float)
            (fun _ _ => {| Fitter.intercept := 0; Fitter.slope := 1; Fitter.rvalue := 1 |})
            (fun _ => Ok 737485) (fun _ => Ok 737485) (fun _ => Ok (2020, 3, 1))
            [ {| Fitter.time := "2020-03-01"; Fitter.cases := Some 40;
                 Fitter.deaths := None |};
              {| Fitter.time := "2020-03-02"; Fitter.cases := Some 80;
                 Fitter.deaths := Some 4 |} ]
            [(737485%float, 40%float, nan); (737485%float, 80%float, 4%float)]).
  - discriminate.
  - vm_compute. reflexivity.
  - vm_compute. lia.
  - vm_compute. lia.
Defined.

Lemma fit_prefers_deaths_witness :
  Fitter.fit (fun x => x) (fun _ => 0%float)
    (fun _ _ => {| Fitter.intercept := 0; Fitter.slope := 1; Fitter.rvalue := 1 |})
    (fun _ => Ok 737485) (fun _ => Ok 737485) (fun _ => Ok (2020, 3, 1))
    (map (fun n => {| Fitter.time := "2020-03-01"; Fitter.cases := Some (40 + n);
                      Fitter.deaths := Some (3 + n) |})
         [1; 2; 3; 4; 5; 6; 7; 8; 9; 10; 11])
  = Ok (Some {| Fitter.tMin := "2020-03-01"; Fitter.initialCases := 10;
                Fitter.r0 := 8.5 |}).
Proof.
  rewrite (fit_prefers_deaths (fun x => x) (fun _ => 0%float)
             (fun _ _ => {| Fitter.intercept := 0; Fitter.slope := 1; Fitter.rvalue := 1 |})
             (fun _ => Ok 737485) (fun _ => Ok 737485) (fun _ => Ok (2020, 3, 1))
             (map (fun n => {| Fitter.time := "2020-03-01"; Fitter.cases := Some (40 + n);
                               Fitter.deaths := Some (3 + n) |})
                  [1; 2; 3; 4; 5; 6; 7; 8; 9; 10; 11])
             (map (fun n => (737485%float, Z2float (40 + n), Z2float (3 + n)))
                  [1; 2; 3; 4; 5; 6; 7; 8; 9; 10; 11])
             {| Fitter.intercept := 0; Fitter.slope := 1; Fitter.rvalue := 1 |}).
  - vm_compute. reflexivity.
  - discriminate.
  - vm_compute. reflexivity.
  - vm_compute. reflexivity.
  - vm_compute. reflexivity.
Defined.

(** ** The parameter classes and the scenario table *)

(** X25. [EpidemiologicalParams] sets [seasonalForcing] and [peakMonth]
    together: (0.2, 0) for no hemisphere and for Northern, (0.2, 6) for
    Southern, (0, 6) for Tropical; for any other hemisphere both are left
    unset. *)
Theorem EpidemiologicalParams_leaves_unknown_hemisphere_unset
    (py_round1 : float -> float) (FIT_CASE_DATA : gmap string Fitter.params)
    (region hemisphere : string) :
  let e := Scenarios.new_EpidemiologicalParams py_round1 FIT_CASE_DATA region hemisphere in
  (Scenarios.peakMonth e = None
   <-> hemisphere <> "" /\ hemisphere <> "Northern"
       /\ hemisphere <> "Southern" /\ hemisphere <> "Tropical")
  /\ (Scenarios.seasonalForcing e = None <-> Scenarios.peakMonth e = None)
  /\ (hemisphere = "" \/ hemisphere = "Northern" ->
      Scenarios.seasonalForcing e = Some (PyFloat 0.2) /\ Scenarios.peakMonth e = Some 0)
  /\ (hemisphere = "Southern" ->
      Scenarios.seasonalForcing e = Some (PyFloat 0.2) /\ Scenarios.peakMonth e = Some 6)
  /\ (hemisphere = "Tropical" ->
      Scenarios.seasonalForcing e = Some (PyInt 0) /\ Scenarios.peakMonth e = Some 6).
Proof.
  cbn zeta. unfold Scenarios.new_EpidemiologicalParams.
  destruct (String.eqb_spec hemisphere "") as [->|H0]; cbn [negb];
    [|destruct (String.eqb_spec hemisphere "Northern") as [->|H1];
      [|destruct (String.eqb_spec hemisphere "Southern") as [->|H2];
        [|destruct (String.eqb_spec hemisphere "Tropical") as [->|H3]]]];
    cbn; repeat split; try done; try intros Hh; try done;
    try (destruct Hh as (? & ? & ? & ?); done);
    try (destruct Hh as [Hh|Hh]; done);
    try (split; done);
    try (match goal with Hd : _ \/ _ |- _ => destruct Hd; done end).
Qed.

Section ScenarioTable.

Variable py_int : string -> exc Z.
Variable py_float : string -> exc float.
Variable pow_half : float -> exc float.
Variable py_round1 : float -> float.
Variable FIT_CASE_DATA : gmap string Fitter.params.

Abbreviation entry_of :=
  (Scenarios.scenario_entry py_int py_float pow_half py_round1 FIT_CASE_DATA).
Abbreviation rows_of :=
  (Scenarios.scenario_rows py_int py_float pow_half py_round1 FIT_CASE_DATA).

Lemma index_from_spec (hdr : list string) (name : string) (i : nat) :
  match Scenarios.index_from i hdr name with
  | Ok j => (i <= j)%nat /\ hdr !! (j - i)%nat = Some name
            /\ forall k, (k < j - i)%nat -> hdr !! k <> Some name
  | Raise e => e = ValueError /\ name ∉ hdr
  end.
Proof.
  revert i. induction hdr as [|h hdr IH]; intros i; cbn [Scenarios.index_from].
  - split; [done|]. apply not_elem_of_nil.
  - destruct (String.eqb_spec h name) as [->|Hne].
    + rewrite Nat.sub_diag. split; [done|]. split; [done|]. intros k Hk. lia.
    + specialize (IH (S i)). destruct (Scenarios.index_from (S i) hdr name) as [j|e].
      * destruct IH as (Hle & Hj & Hfirst). split; [lia|].
        replace (j - i)%nat with (S (j - S i)) by lia. split; [done|].
        intros [|k] Hk; cbn; [congruence|]. apply Hfirst. lia.
      * destruct IH as [-> Hnot]. split; [done|].
        apply not_elem_of_cons. split; [congruence|done].
Qed.

Lemma list_index_Raise (hdr : list string) (name : string) :
  name ∉ hdr -> Scenarios.list_index hdr name = Raise ValueError.
Proof.
  intros Hnot. unfold Scenarios.list_index.
  pose proof (index_from_spec hdr name 0) as H.
  destruct (Scenarios.index_from 0 hdr name) as [j|e].
  - destruct H as (_ & Hj & _). exfalso. apply Hnot. by eapply list_elem_of_lookup_2.
  - by destruct H as [-> _].
Qed.

Lemma list_index_error (hdr : list string) (name : string) (e : pyerr) :
  Scenarios.list_index hdr name = Raise e -> e = ValueError.
Proof.
  unfold Scenarios.list_index. pose proof (index_from_spec hdr name 0) as H.
  destruct (Scenarios.index_from 0 hdr name); [done|]. intros [= <-]. by destruct H.
Qed.

Lemma scenario_rows_app (idx : Scenarios.columns) (l k : list (list string))
    (s : gmap string Scenarios.AllParams) :
  rows_of idx (l ++ k) s = (s' ← rows_of idx l s; rows_of idx k s').
Proof.
  revert s. induction l as [|r l IH]; intros s; cbn [Scenarios.scenario_rows app].
  - done.
  - destruct (entry_of idx r) as [kv|e]; cbn [mbind exc_bind]; [apply IH | done].
Qed.

Lemma scenario_rows_keep (idx : Scenarios.columns) (rdr : list (list string))
    (s out : gmap string Scenarios.AllParams) (key : string) :
  rows_of idx rdr s = Ok out ->
  (forall r k v, r ∈ rdr -> entry_of idx r = Ok (k, v) -> k <> key) ->
  out !! key = s !! key.
Proof.
  revert s. induction rdr as [|r rdr IH]; intros s H Hne; cbn [Scenarios.scenario_rows] in H.
  - by injection H as <-.
  - apply exc_bind_Ok in H as ([k v] & Hr & H). cbn [fst snd] in H.
    rewrite (IH _ H) by (intros; eapply Hne; [by right | done]).
    apply lookup_insert_ne. eapply Hne; [by left | done].
Qed.

Lemma scenario_rows_from (idx : Scenarios.columns) (rdr : list (list string))
    (s out : gmap string Scenarios.AllParams) (key : string) (value : Scenarios.AllParams) :
  rows_of idx rdr s = Ok out ->
  out !! key = Some value ->
  s !! key = Some value \/ exists r, r ∈ rdr /\ entry_of idx r = Ok (key, value).
Proof.
  revert s. induction rdr as [|r rdr IH]; intros s H Hout; cbn [Scenarios.scenario_rows] in H.
  - injection H as <-. by left.
  - apply exc_bind_Ok in H as ([k v] & Hr & H). cbn [fst snd] in H.
    destruct (IH _ H Hout) as [Hs | (r' & Hin & Hr')].
    + destruct (decide (k = key)) as [->|Hne].
      * rewrite lookup_insert_eq in Hs. injection Hs as ->. right. exists r. split; [by left|done].
      * rewrite lookup_insert_ne in Hs by done. by left.
    + right. exists r'. split; [by right | done].
Qed.

Lemma list_index_Ok (hdr : list string) (name : string) (i : nat) :
  Scenarios.list_index hdr name = Ok i -> hdr !! i = Some name.
Proof.
  unfold Scenarios.list_index. pose proof (index_from_spec hdr name 0) as H.
  destruct (Scenarios.index_from 0 hdr name) as [j|]; [|done]. intros [= <-].
  destruct H as (_ & H & _). by rewrite Nat.sub_0_r in H.
Qed.

Lemma header_columns_spec (hdr : list string) (idx : Scenarios.columns) :
  Scenarios.header_columns hdr = Ok idx ->
  hdr !! Scenarios.c_name idx = Some "name"
  /\ hdr !! Scenarios.c_size idx = Some "populationServed"
  /\ hdr !! Scenarios.c_ages idx = Some "ageDistribution"
  /\ hdr !! Scenarios.c_beds idx = Some "hospitalBeds"
  /\ hdr !! Scenarios.c_icus idx = Some "ICUBeds"
  /\ hdr !! Scenarios.c_hemisphere idx = Some "hemisphere".
Proof.
  unfold Scenarios.header_columns. intros H.
  apply exc_bind_Ok in H as (i1 & H1 & H). apply exc_bind_Ok in H as (i2 & H2 & H).
  apply exc_bind_Ok in H as (i3 & H3 & H). apply exc_bind_Ok in H as (i4 & H4 & H).
  apply exc_bind_Ok in H as (i5 & H5 & H). apply exc_bind_Ok in H as (i6 & H6 & [= <-]).
  cbn. repeat split; by apply list_index_Ok.
Qed.

Lemma scenario_entry_spec (idx : Scenarios.columns) (region : list string)
    (key : string) (value : Scenarios.AllParams) :
  entry_of idx region = Ok (key, value) ->
  exists ages size beds icus hemisphere population,
    region !! Scenarios.c_name idx = Some key
    /\ region !! Scenarios.c_ages idx = Some ages
    /\ region !! Scenarios.c_size idx = Some size
    /\ region !! Scenarios.c_beds idx = Some beds
    /\ region !! Scenarios.c_icus idx = Some icus
    /\ region !! Scenarios.c_hemisphere idx = Some hemisphere
    /\ Scenarios.new_PopulationParams py_int py_float pow_half py_round1
         key ages size beds icus = Ok population
    /\ value = {| Scenarios.population := population;
                  Scenarios.epidemiological :=
                    Scenarios.new_EpidemiologicalParams py_round1 FIT_CASE_DATA
                      key hemisphere;
                  Scenarios.simulation := Scenarios.new_SimulationParams FIT_CASE_DATA key;
                  Scenarios.containment := Scenarios.new_ContainmentParams |}.
Proof.
  unfold Scenarios.scenario_entry. intros H.
  apply exc_bind_Ok in H as (name & Hn & H). apply exc_bind_Ok in H as (ages & Ha & H).
  apply exc_bind_Ok in H as (size & Hs & H). apply exc_bind_Ok in H as (beds & Hb & H).
  apply exc_bind_Ok in H as (icus & Hi & H). apply exc_bind_Ok in H as (hemi & Hh & H).
  apply exc_bind_Ok in H as (v & Hv & H). apply exc_bind_Ok in H as (k & Hk & [= <- <-]).
  apply py_index_Ok in Hn, Ha, Hs, Hb, Hi, Hh, Hk.
  rewrite Hn in Hk. injection Hk as <-.
  unfold Scenarios.new_AllParams in Hv. apply exc_bind_Ok in Hv as (p & Hp & [= <-]).
  by exists ages, size, beds, icus, hemi, p.
Qed.

End ScenarioTable.

(** X26. [generate] raises [ValueError] when the header lacks one of the six
    columns it looks up, whatever the rows are. *)
Theorem generate_needs_the_six_columns
    (py_int : string -> exc Z) (py_float : string -> exc float)
    (pow_half : float -> exc float) (py_round1 : float -> float)
    (FIT_CASE_DATA : gmap string Fitter.params)
    (hdr : list string) (rdr : list (list string)) (column : string) :
  column ∈ ["name"; "populationServed"; "ageDistribution"; "hospitalBeds"; "ICUBeds";
            "hemisphere"] ->
  column ∉ hdr ->
  Scenarios.generate py_int py_float pow_half py_round1 FIT_CASE_DATA hdr rdr
  = Raise ValueError.
Proof.
  intros Hcol Hnot. unfold Scenarios.generate, Scenarios.header_columns.
  assert (Hall : forall n, match Scenarios.list_index hdr n with
                           | Ok _ => True | Raise e => e = ValueError end).
  { intros n. destruct (Scenarios.list_index hdr n) eqn:E; [done|].
    by eapply list_index_error. }
  pose proof (list_index_Raise hdr column Hnot) as Hc.
  repeat (apply elem_of_cons in Hcol as [-> | Hcol];
          [repeat (match goal with
                   | |- context [Scenarios.list_index hdr ?n] =>
                       let E := fresh in
                       pose proof (Hall n) as E;
                       destruct (Scenarios.list_index hdr n); cbn [mbind exc_bind];
                       [|by subst]
                   end); try done; by rewrite ?Hc in * |]).
  by apply elem_of_nil in Hcol.
Qed.

Lemma generate_needs_the_six_columns_witness :
  Scenarios.generate (fun _ => Ok 1) (fun _ => Ok 1%float) (fun x => Ok x) (fun x => x) ∅
    ["name"; "populationServed"; "ageDistribution"; "hospitalBeds"; "ICUBeds"]
    [["Switzerland"; "8600000"; "Switzerland"; "30000"; "1400"; "Northern"]]
  = Raise ValueError.
Proof.
  apply (generate_needs_the_six_columns (fun _ => Ok 1) (fun _ => Ok 1%float)
           (fun x => Ok x) (fun x => x) ∅
           ["name"; "populationServed"; "ageDistribution"; "hospitalBeds"; "ICUBeds"]
           [["Switzerland"; "8600000"; "Switzerland"; "30000"; "1400"; "Northern"]]
           "hemisphere").
  - do 5 (apply elem_of_cons; right). apply elem_of_cons. by left.
  - intros Hin. repeat (apply elem_of_cons in Hin as [Hin | Hin]; [discriminate|]).
    by apply elem_of_nil in Hin.
Defined.

(** X27. Every entry of the table that [generate] builds comes from a row
    of the file, read through the positions of the column names in the
    header: its key and [cases] are the name, [country] is the
    ageDistribution entry, the three counts are the integers of the
    populationServed, hospitalBeds and ICUBeds entries, the hemisphere
    entry and the fitted data of the name give the epidemiological and
    simulation parameters, and [suspectedCasesToday] is 10. *)
Theorem generate_reads_the_columns_by_name
    (py_int : string -> exc Z) (py_float : string -> exc float)
    (pow_half : float -> exc float) (py_round1 : float -> float)
    (FIT_CASE_DATA : gmap string Fitter.params)
    (hdr : list string) (rdr : list (list string))
    (scenario : gmap string Scenarios.AllParams)
    (key : string) (value : Scenarios.AllParams) :
  Scenarios.generate py_int py_float pow_half py_round1 FIT_CASE_DATA hdr rdr = Ok scenario ->
  scenario !! key = Some value ->
  exists (region : list string) (i_name i_ages i_size i_beds i_icus i_hemisphere : nat)
         (size beds icus hemisphere : string),
    region ∈ rdr
    /\ hdr !! i_name = Some "name" /\ region !! i_name = Some key
    /\ hdr !! i_ages = Some "ageDistribution"
    /\ region !! i_ages = Some (Scenarios.country (Scenarios.population value))
    /\ hdr !! i_size = Some "populationServed" /\ region !! i_size = Some size
    /\ py_int size = Ok (Scenarios.populationServed (Scenarios.population value))
    /\ hdr !! i_beds = Some "hospitalBeds" /\ region !! i_beds = Some beds
    /\ py_int beds = Ok (Scenarios.hospitalBeds (Scenarios.population value))
    /\ hdr !! i_icus = Some "ICUBeds" /\ region !! i_icus = Some icus
    /\ py_int icus = Ok (Scenarios.ICUBeds (Scenarios.population value))
    /\ hdr !! i_hemisphere = Some "hemisphere" /\ region !! i_hemisphere = Some hemisphere
    /\ Scenarios.cases (Scenarios.population value) = key
    /\ Scenarios.suspectedCasesToday (Scenarios.population value) = 10
    /\ Scenarios.epidemiological value
       = Scenarios.new_EpidemiologicalParams py_round1 FIT_CASE_DATA key hemisphere
    /\ Scenarios.simulation value = Scenarios.new_SimulationParams FIT_CASE_DATA key.
Proof.
  unfold Scenarios.generate. intros H Hkey.
  apply exc_bind_Ok in H as (idx & Hidx & H).
  destruct (header_columns_spec hdr idx Hidx) as (H1 & H2 & H3 & H4 & H5 & H6).
  destruct (scenario_rows_from _ _ _ _ _ idx rdr ∅ scenario key value H Hkey)
    as [Hempty | (region & Hin & Hentry)].
  { by rewrite lookup_empty in Hempty. }
  destruct (scenario_entry_spec _ _ _ _ _ idx region key value Hentry)
    as (ages & size & beds & icus & hemi & p & Rn & Ra & Rs & Rb & Ri & Rh & Hp & ->).
  unfold Scenarios.new_PopulationParams in Hp.
  apply exc_bind_Ok in Hp as (ps & Hps & Hp). apply exc_bind_Ok in Hp as (x & _ & Hp).
  apply exc_bind_Ok in Hp as (h & _ & Hp). cbn zeta in Hp.
  apply exc_bind_Ok in Hp as (hb & Hhb & Hp). apply exc_bind_Ok in Hp as (ib & Hib & [= <-]).
  exists region, (Scenarios.c_name idx), (Scenarios.c_ages idx), (Scenarios.c_size idx),
    (Scenarios.c_beds idx), (Scenarios.c_icus idx), (Scenarios.c_hemisphere idx),
    size, beds, icus, hemi.
  cbn. repeat split; done.
Qed.

(** X28. Of the rows of one name the last decides: the table that
    [generate] returns holds, under that name, the entry of the last row
    that carries it. *)
Theorem generate_keeps_the_last_row_of_a_name
    (py_int : string -> exc Z) (py_float : string -> exc float)
    (pow_half : float -> exc float) (py_round1 : float -> float)
    (FIT_CASE_DATA : gmap string Fitter.params)
    (hdr : list string) (pre post : list (list string)) (region : list string)
    (scenario : gmap string Scenarios.AllParams) (i_name : nat) (key : string) :
  Scenarios.generate py_int py_float pow_half py_round1 FIT_CASE_DATA hdr
    (pre ++ region :: post) = Ok scenario ->
  Scenarios.list_index hdr "name" = Ok i_name ->
  region !! i_name = Some key ->
  (forall r, r ∈ post -> r !! i_name <> Some key) ->
  exists idx value,
    Scenarios.header_columns hdr = Ok idx
    /\ Scenarios.scenario_entry py_int py_float pow_half py_round1 FIT_CASE_DATA idx region
       = Ok (key, value)
    /\ scenario !! key = Some value.
Proof.
  unfold Scenarios.generate. intros H Hname Hkey Hpost.
  apply exc_bind_Ok in H as (idx & Hidx & H).
  assert (Hi : Scenarios.c_name idx = i_name).
  { unfold Scenarios.header_columns in Hidx. rewrite Hname in Hidx.
    cbn [mbind exc_bind] in Hidx.
    apply exc_bind_Ok in Hidx as (i2 & _ & Hidx). apply exc_bind_Ok in Hidx as (i3 & _ & Hidx).
    apply exc_bind_Ok in Hidx as (i4 & _ & Hidx). apply exc_bind_Ok in Hidx as (i5 & _ & Hidx).
    by apply exc_bind_Ok in Hidx as (i6 & _ & [= <-]). }
  rewrite scenario_rows_app in H. apply exc_bind_Ok in H as (s1 & _ & H).
  cbn [Scenarios.scenario_rows] in H. apply exc_bind_Ok in H as ([k v] & Hentry & H).
  cbn [fst snd] in H.
  destruct (scenario_entry_spec _ _ _ _ _ idx region k v Hentry)
    as (_ & _ & _ & _ & _ & _ & Rn & _).
  rewrite Hi, Hkey in Rn. injection Rn as <-.
  exists idx, v. split; [done|]. split; [done|].
  rewrite (scenario_rows_keep _ _ _ _ _ idx post _ scenario key H).
  - apply lookup_insert_eq.
  - intros r k' v' Hin Hr Heq. subst k'.
    destruct (scenario_entry_spec _ _ _ _ _ idx r key v' Hr) as (_ & _ & _ & _ & _ & _ & Rn & _).
    rewrite Hi in Rn. by apply (Hpost r Hin).
Qed.

Lemma generate_reads_the_columns_by_name_witness :
  exists (scenario : gmap string Scenarios.AllParams) (value : Scenarios.AllParams),
    Scenarios.generate (fun s => Ok (Z.of_nat (String.length s))) (fun _ => Ok 4%float)
      (fun x => Ok x) (fun x => x) ∅
      ["hemisphere"; "name"; "ICUBeds"; "populationServed"; "ageDistribution"; "hospitalBeds"]
      [["Tropical"; "Kenya"; "500"; "50000000"; "KEN"; "70000"]]
    = Ok scenario
    /\ scenario !! "Kenya" = Some value
    /\ Scenarios.country (Scenarios.population value) = "KEN"
    /\ Scenarios.cases (Scenarios.population value) = "Kenya".
Proof.
  destruct (Scenarios.generate (fun s => Ok (Z.of_nat (String.length s))) (fun _ => Ok 4%float)
      (fun x => Ok x) (fun x => x) ∅
      ["hemisphere"; "name"; "ICUBeds"; "populationServed"; "ageDistribution"; "hospitalBeds"]
      [["Tropical"; "Kenya"; "500"; "50000000"; "KEN"; "70000"]])
    as [scenario|e] eqn:E; [|vm_compute in E; discriminate].
  destruct (scenario !! "Kenya") as [value|] eqn:Ev.
  2:{ vm_compute in E. injection E as <-. vm_compute in Ev. discriminate. }
  exists scenario, value. split; [reflexivity|]. split; [exact Ev|].
  destruct (generate_reads_the_columns_by_name _ _ _ _ _ _ _ _ _ _ E Ev)
    as (region & i1 & i2 & i3 & i4 & i5 & i6 & size & beds & icus & hemi
        & Hin & H1 & R1 & H2 & R2 & _ & _ & _ & _ & _ & _ & _ & _ & _ & _ & _ & Hc & _).
  split; [|exact Hc].
  apply list_elem_of_singleton in Hin. subst region.
  assert (i2 = 4%nat) as ->.
  { do 6 (destruct i2 as [|i2]; [try discriminate H2; try reflexivity|]).
    by destruct i2. }
  by injection R2 as <-.
Defined.

Lemma generate_keeps_the_last_row_of_a_name_witness :
  exists (scenario : gmap string Scenarios.AllParams) (value : Scenarios.AllParams),
    Scenarios.generate (fun s => Ok (Z.of_nat (String.length s))) (fun _ => Ok 4%float)
      (fun x => Ok x) (fun x => x) ∅
      ["name"; "populationServed"; "ageDistribution"; "hospitalBeds"; "ICUBeds"; "hemisphere"]
      [["Kenya"; "5"; "KEN"; "7"; "5"; "Tropical"];
       ["Kenya"; "50000000"; "KEN"; "70000"; "500"; "Tropical"]]
    = Ok scenario
    /\ scenario !! "Kenya" = Some value
    /\ Scenarios.populationServed (Scenarios.population value) = 8.
Proof.
  destruct (Scenarios.generate (fun s => Ok (Z.of_nat (String.length s))) (fun _ => Ok 4%float)
      (fun x => Ok x) (fun x => x) ∅
      ["name"; "populationServed"; "ageDistribution"; "hospitalBeds"; "ICUBeds"; "hemisphere"]
      [["Kenya"; "5"; "KEN"; "7"; "5"; "Tropical"];
       ["Kenya"; "50000000"; "KEN"; "70000"; "500"; "Tropical"]])
    as [scenario|e] eqn:E; [|vm_compute in E; discriminate].
  destruct (generate_keeps_the_last_row_of_a_name
              (fun s => Ok (Z.of_nat (String.length s))) (fun _ => Ok 4%float)
              (fun x => Ok x) (fun x => x) ∅
              ["name"; "populationServed"; "ageDistribution"; "hospitalBeds"; "ICUBeds";
               "hemisphere"]
              [["Kenya"; "5"; "KEN"; "7"; "5"; "Tropical"]] []
              ["Kenya"; "50000000"; "KEN"; "70000"; "500"; "Tropical"]
              scenario 0%nat "Kenya" E eq_refl eq_refl)
    as (idx & value & Hidx & Hentry & Hlook).
  { intros r Hr. by apply elem_of_nil in Hr. }
  exists scenario, value. split; [reflexivity|]. split; [exact Hlook|].
  vm_compute in Hidx. injection Hidx as <-.
  vm_compute in Hentry. by injection Hentry as <-.
Defined.
